(** * spillyourguts-log: the event-ingestion pipeline

    A shallow embedding of the water-event endpoint ([water.ts]:
    [onRequestPost] and its helpers), of the Gitea mirror ([gitea.ts]:
    [appendEventToGitea]) and of the three tables of the D1 migration,
    and of the form of the page ([app.js]), followed by the properties the
    design document states about them and by further properties of the code.

    Conventions of the embedding.
    - Time stamps, counters and amounts are integers ([Z]).  [amount_oz] is an
      [INTEGER] column and the form submits [parseInt] values; a JSON number
      is modelled by its integer value.
    - Strings are sequences of 8-bit code units ([string]); header values are
      byte strings, so [charCodeAt] is the code of the character.
    - The body of a request is what [request.json()] gives ([parsed_body]):
      nothing when the promise rejects, [null], or a value read through
      [interface RequestBody]; the value under [amount_oz] may be any JSON
      value.
    - The three D1 tables are the fields of [D1Database]; the two tables with
      a key are finite maps, the event table is the list of its rows.  A
      statement fails only where a constraint rejects it, except the insert
      into [events] (the one statement the handler guards with [try]), which
      may also fail for reasons of the store.
    - Every [async] function is a computation in [Async]: it threads the
      database and a journal of the statements, HTTP requests and console
      messages it issued, and either returns or throws.  The call to the
      mirror, which the handler does not await, is run to its end in place.
      [Async] runs an invocation from start to end in one piece; [Task]
      gives the limiter, the guard and the handler a second time with
      their [await]s as suspension points, for invocations that overlap,
      and [serve] is the schedule on which none do.
    - What the platform supplies (URL parsing, [Date], base64 and JSON codecs)
      is the interface [Runtime]; what varies per invocation (clock, random
      id, storage fault, the replies of the Gitea server) is [Ambient].
      [js_runtime] is the instance with the codecs written out.
    - [Math.random()] is a rational in [[0, 1)]; [generateUUID] reads its
      draws from a stream. *)

From Stdlib Require Import ZArith QArith Qround String Ascii List Lia HexadecimalString.
From stdpp Require Import gmap strings list fin_maps pretty.

Open Scope string_scope.
Open Scope list_scope.
Open Scope Z_scope.

(** ** JavaScript primitives *)

(** [ToInt32]: the value every bitwise operator reduces its operands to. *)
Definition ToInt32 (z : Z) : Z := (z + 2 ^ 31) mod 2 ^ 32 - 2 ^ 31.

(** [s.charCodeAt(i)] for the character at position [i]. *)
Definition charCodeAt (c : ascii) : Z := Z.of_nat (nat_of_ascii c).

(** [`${n}`] for an integer below 1e21 in magnitude: plain decimal digits. *)
Definition Number_toString (n : Z) : string := pretty n.

(** [n.toString(16)] for a non-negative integer: lower-case hexadecimal. *)
Definition toString16 (n : Z) : string :=
  NilZero.string_of_uint (N.to_hex_uint (Z.to_N n)).

(** Truthiness of a [string | null]: neither [null] nor the empty string. *)
Definition truthy (s : option string) : bool :=
  match s with
  | Some (String _ _) => true
  | _ => false
  end.

(** [s || null]. *)
Definition or_null (s : option string) : option string :=
  if truthy s then s else None.

(** [s.split(',')[0]]: everything before the first comma. *)
Fixpoint split_comma_first (s : string) : string :=
  match s with
  | EmptyString => EmptyString
  | String c rest =>
      if Ascii.eqb c "," then EmptyString else String c (split_comma_first rest)
  end.

(** White space in the sense of [String.prototype.trim], among 8-bit codes:
    TAB, LF, VT, FF, CR, SPACE and NBSP. *)
Definition isWhiteSpace (c : ascii) : bool :=
  let n := nat_of_ascii c in
  ((9 <=? n) && (n <=? 13))%nat || (n =? 32)%nat || (n =? 160)%nat.

Fixpoint trimStart (s : string) : string :=
  match s with
  | EmptyString => EmptyString
  | String c rest => if isWhiteSpace c then trimStart rest else s
  end.

Definition trim (s : string) : string :=
  String.rev (trimStart (String.rev (trimStart s))).

(** [s.padStart(n, c)] for a one-character filler [c]. *)
Definition padStart (s : string) (n : nat) (c : ascii) : string :=
  fold_right String s (replicate (n - String.length s) c).

(** ** Constants of [water.ts] *)

Definition RATE_LIMIT_WINDOW : Z := 60.
Definition RATE_LIMIT_MAX_REQUESTS : Z := 10.
Definition IDEMPOTENCY_WINDOW : Z := 5.

(** ** Requests and responses *)

(** The value found under a key of the parsed JSON body. *)
Inductive json_value : Type :=
  | JUndefined
  | JNull
  | JNumber (n : Z)
  | JString (s : string)
  | JBoolean (b : bool)
  | JCompound.

(** [interface RequestBody]; [amount_oz] is kept as the raw JSON value because
    the handler checks its type at run time. *)
Record RequestBody : Type := {
  body_amount_oz : json_value;
  body_source : option string;
  body_note : option string
}.

(** What [await request.json()] gives: the promise rejects, or it resolves
    to [null], or to another value.  Of that value the handler reads the
    three properties of [RequestBody]; a number, a string, a boolean or an
    array has none of them, like the empty object. *)
Inductive parsed_body : Type :=
  | Rejects
  | ResolvesNull
  | Resolves (body : RequestBody).

(** What the handler reads of a [Request]: the origin of [request.url], the
    four headers it looks up, and the outcome of [request.json()]. *)
Record Request : Type := {
  url_origin : string;
  header_Origin : option string;
  header_CF_Connecting_IP : option string;
  header_X_Forwarded_For : option string;
  header_User_Agent : option string;
  json : parsed_body
}.

Inductive ResponseBody : Type :=
  | ErrorBody (error : string)
  | CreatedBody (id : string) (amount_oz : Z) (created_at : Z).

Record Response : Type := {
  status : Z;
  body : ResponseBody
}.

Definition error_response (code : Z) (msg : string) : Response :=
  {| status := code; body := ErrorBody msg |}.

(** ** The D1 database *)

(** A row of the table [events] and the [Event] of [gitea.ts]. *)
Record Event : Type := {
  event_id : string;
  event_type : string;
  event_amount_oz : Z;
  event_created_at : Z;
  event_user_agent : option string;
  event_source : option string;
  event_note : option string
}.

(** [rate_limits] has primary key [(ip, window_start)] and holds
    [request_count]; [idempotency_keys] has primary key [key_hash] and holds
    [created_at]; [events] has primary key [id]. *)
Record D1Database : Type := {
  events : list Event;
  rate_limits : gmap (string * Z) Z;
  idempotency_keys : gmap string Z
}.

Definition empty_db : D1Database :=
  {| events := []; rate_limits := ∅; idempotency_keys := ∅ |}.

(** The SQL statements the handler prepares. *)
Inductive statement : Type :=
  | SelectRateLimit (ip : string) (window_start : Z)
  | InsertRateLimit (ip : string) (window_start : Z)
  | UpdateRateLimit (ip : string) (window_start : Z)
  | DeleteRateLimits (before : Z)
  | SelectIdempotencyKey (key_hash : string)
  | ReplaceIdempotencyKey (key_hash : string) (created_at : Z)
  | DeleteIdempotencyKeys (before : Z)
  | InsertEvent (e : Event).

(** [INSERT INTO rate_limits ... VALUES (?, ?, 1)]: rejected when the primary
    key is taken. *)
Definition insert_rate_limit (ip : string) (w : Z) (d : D1Database)
  : option D1Database :=
  match rate_limits d !! (ip, w) with
  | Some _ => None
  | None =>
      Some {| events := events d;
              rate_limits := <[(ip, w) := 1]> (rate_limits d);
              idempotency_keys := idempotency_keys d |}
  end.

(** [UPDATE rate_limits SET request_count = request_count + 1 WHERE ...]. *)
Definition update_rate_limit (ip : string) (w : Z) (d : D1Database)
  : option D1Database :=
  Some {| events := events d;
          rate_limits := alter Z.succ (ip, w) (rate_limits d);
          idempotency_keys := idempotency_keys d |}.

(** [DELETE FROM rate_limits WHERE window_start < ?]. *)
Definition delete_rate_limits (before : Z) (d : D1Database)
  : option D1Database :=
  Some {| events := events d;
          rate_limits := filter (λ row, before ≤ row.1.2) (rate_limits d);
          idempotency_keys := idempotency_keys d |}.

(** [INSERT OR REPLACE INTO idempotency_keys ...]. *)
Definition replace_idempotency_key (k : string) (now : Z) (d : D1Database)
  : option D1Database :=
  Some {| events := events d;
          rate_limits := rate_limits d;
          idempotency_keys := <[k := now]> (idempotency_keys d) |}.

(** [DELETE FROM idempotency_keys WHERE created_at < ?]. *)
Definition delete_idempotency_keys (before : Z) (d : D1Database)
  : option D1Database :=
  Some {| events := events d;
          rate_limits := rate_limits d;
          idempotency_keys := filter (λ row, before ≤ row.2) (idempotency_keys d) |}.

Definition has_event (i : string) (d : D1Database) : bool :=
  existsb (λ e, String.eqb (event_id e) i) (events d).

(** [INSERT INTO events ...]: rejected when the id is taken, or when the
    storage layer fails ([fault]). *)
Definition insert_event (fault : bool) (e : Event) (d : D1Database)
  : option D1Database :=
  if fault || has_event (event_id e) d then None
  else Some {| events := events d ++ [e];
               rate_limits := rate_limits d;
               idempotency_keys := idempotency_keys d |}.

(** ** The Gitea server, as seen through [fetch] *)

Record GiteaConfig : Type := {
  config_url : string;
  config_token : string;
  config_owner : string;
  config_repo : string
}.

Record GiteaFileContent : Type := {
  file_content : string;
  file_encoding : string;
  file_sha : option string
}.

(** The JSON body of the write request, without its commit message;
    [put_sha] is present on updates. *)
Record PutBody : Type := {
  put_content : string;
  put_sha : option string
}.

(** What [fetch] gives: the promise rejects, or a response with a status and
    a payload. *)
Inductive fetch_reply (A : Type) : Type :=
  | NetworkError
  | HttpResponse (code : Z) (payload : A).
Arguments NetworkError {A}.
Arguments HttpResponse {A} code payload.

(** [response.ok]. *)
Definition response_ok (code : Z) : bool := (200 <=? code) && (code <=? 299).

(** The replies of the archive: for a GET the payload is the outcome of
    [response.json()] ([None] when it rejects). *)
Record GiteaServer : Type := {
  http_get : string -> fetch_reply (option GiteaFileContent);
  http_send : string -> string -> PutBody -> fetch_reply unit
}.

Inductive console_level : Type := ConsoleLog | ConsoleWarn | ConsoleError.

Inductive effect : Type :=
  | Sql (s : statement)
  | Fetch (method : string) (url : string) (payload : option PutBody)
  | Console (level : console_level) (message : string).

(** ** Asynchronous computations *)

Record World : Type := {
  DB : D1Database;
  journal : list effect
}.

Inductive completion (A : Type) : Type :=
  | Returned (a : A)
  | Thrown.
Arguments Returned {A} a.
Arguments Thrown {A}.

Definition Async (A : Type) : Type := World -> completion A * World.

Definition ret {A : Type} (a : A) : Async A := λ w, (Returned a, w).

Definition throw {A : Type} : Async A := λ w, (Thrown, w).

Definition bind {A B : Type} (m : Async A) (k : A -> Async B) : Async B :=
  λ w, match m w with
       | (Returned a, w') => k a w'
       | (Thrown, w') => (Thrown, w')
       end.

Notation "'let*' x := m 'in' k" := (bind m (λ x, k))
  (at level 10, x name, m at level 100, k at level 200, only parsing).
Notation "'do' m 'in' k" := (bind m (λ _, k))
  (at level 10, m at level 100, k at level 200, only parsing).

(** [try { m } catch { handler }]. *)
Definition try_catch {A : Type} (m handler : Async A) : Async A :=
  λ w, match m w with
       | (Thrown, w') => handler w'
       | r => r
       end.

Definition emit (e : effect) : Async unit :=
  λ w, (Returned tt, {| DB := DB w; journal := journal w ++ [e] |}).

Definition console (level : console_level) (message : string) : Async unit :=
  emit (Console level message).

(** [.first()] of a SELECT. *)
Definition query {A : Type} (s : statement) (read : D1Database -> A) : Async A :=
  do emit (Sql s) in
  λ w, (Returned (read (DB w)), w).

(** [.run()] of a writing statement; throws when D1 rejects it. *)
Definition run (s : statement) (write : D1Database -> option D1Database)
  : Async unit :=
  do emit (Sql s) in
  λ w, match write (DB w) with
       | Some d => (Returned tt, {| DB := d; journal := journal w |})
       | None => (Thrown, w)
       end.

(** ** [water.ts]: the helpers *)

(** [getClientIP]. *)
Definition getClientIP (request : Request) : string :=
  let cfConnectingIP := header_CF_Connecting_IP request in
  match cfConnectingIP with
  | Some (String _ _ as ip) => ip
  | _ =>
      let forwarded := header_X_Forwarded_For request in
      match forwarded with
      | Some (String _ _ as f) => trim (split_comma_first f)
      | _ => "unknown"
      end
  end.

(** One round of the loop of [generateIdempotencyKey]:
    [hash = ((hash << 5) - hash) + char; hash = hash & hash]. *)
Definition hash_step (hash : Z) (char : Z) : Z :=
  let hash := (ToInt32 (Z.shiftl (ToInt32 hash) 5) - hash) + char in
  Z.land (ToInt32 hash) (ToInt32 hash).

Fixpoint hash_loop (data : string) (hash : Z) : Z :=
  match data with
  | EmptyString => hash
  | String c rest => hash_loop rest (hash_step hash (charCodeAt c))
  end.

(** [Math.floor(t / size) * size]. *)
Definition window_floor (t size : Z) : Z := t / size * size.

(** [generateIdempotencyKey]. *)
Definition generateIdempotencyKey (ip : string) (amount : Z) (timestamp : Z)
  : string :=
  let window := window_floor timestamp IDEMPOTENCY_WINDOW in
  let data := ip +:+ ":" +:+ Number_toString amount +:+ ":" +:+ Number_toString window in
  let hash := hash_loop data 0 in
  "idempotency:" +:+ toString16 (Z.abs hash).

(** [checkRateLimit]. *)
Definition checkRateLimit (ip : string) (now : Z) : Async bool :=
  let windowStart := window_floor now RATE_LIMIT_WINDOW in
  let* result := query (SelectRateLimit ip windowStart)
                       (λ d, rate_limits d !! (ip, windowStart)) in
  let currentCount := default 0 result in
  if RATE_LIMIT_MAX_REQUESTS <=? currentCount then ret false
  else
    do (if currentCount =? 0
        then run (InsertRateLimit ip windowStart) (insert_rate_limit ip windowStart)
        else run (UpdateRateLimit ip windowStart) (update_rate_limit ip windowStart)) in
    do run (DeleteRateLimits (now - 3600)) (delete_rate_limits (now - 3600)) in
    ret true.

(** [checkIdempotency]. *)
Definition checkIdempotency (keyHash : string) (now : Z) : Async bool :=
  let* result := query (SelectIdempotencyKey keyHash)
                       (λ d, idempotency_keys d !! keyHash) in
  let duplicate :=
    match result with
    | Some created_at => now - created_at <? IDEMPOTENCY_WINDOW
    | None => false
    end in
  if duplicate then ret false
  else
    do run (ReplaceIdempotencyKey keyHash now) (replace_idempotency_key keyHash now) in
    do run (DeleteIdempotencyKeys (now - 3600)) (delete_idempotency_keys (now - 3600)) in
    ret true.

(** [body.amount_oz ?? 64]. *)
Definition amount_or_default (v : json_value) : json_value :=
  match v with
  | JUndefined | JNull => JNumber 64
  | _ => v
  end.

(** The amount when
    [typeof amount !== 'number' || amount < 0 || amount > 10000] is false. *)
Definition valid_amount (amount : json_value) : option Z :=
  match amount with
  | JNumber n => if (n <? 0) || (10000 <? n) then None else Some n
  | _ => None
  end.

(** ** The platform *)

(** The result of [JSON.parse] on an archive document. *)
Inductive json_document : Type :=
  | JArray (items : list Event)
  | JNotArray.

(** Built-ins the code calls.  [URL_hostname s] is [new URL(s).hostname]
    ([None] when the constructor throws); the two [Date] getters take the
    milliseconds given to [new Date]; [atob] and [JSON_parse] are [None] when
    they throw; [btoa_utf8 s] is [btoa(unescape(encodeURIComponent(s)))] and
    [JSON_stringify l] is [JSON.stringify(l, null, 2)]. *)
Class Runtime : Type := {
  URL_hostname : string -> option string;
  Date_getFullYear : Z -> Z;
  Date_getMonth : Z -> Z;
  atob : string -> option string;
  btoa_utf8 : string -> string;
  JSON_parse : string -> option json_document;
  JSON_stringify : list Event -> string
}.

(** [interface Env] of [gitea.ts]; the [DB] binding is the [World]. *)
Record Env : Type := {
  GITEA_URL : option string;
  GITEA_TOKEN : option string;
  GITEA_OWNER : option string;
  GITEA_REPO : option string
}.

(** What one invocation draws from its surroundings: [Date.now()], the id
    that [generateUUID()] makes of its [Math.random] draws, whether D1 fails
    on the event insert, and the archive behind [fetch]. *)
Record Ambient : Type := {
  Date_now : Z;
  random_uuid : string;
  d1_fault : bool;
  gitea : GiteaServer
}.

Section Pipeline.
Context {platform : Runtime}.

(** [isSameOrigin]. *)
Definition isSameOrigin (request : Request) (expectedOrigin : string) : bool :=
  let origin := header_Origin request in
  match origin with
  | Some (String _ _ as origin) =>
      match URL_hostname origin with
      | Some originHost =>
          match URL_hostname expectedOrigin with
          | Some expectedHost => String.eqb originHost expectedHost
          | None => false
          end
      | None => false
      end
  | _ => false
  end.

(** ** [gitea.ts] *)

(** [getGiteaConfig]. *)
Definition getGiteaConfig (env : Env) : option GiteaConfig :=
  match GITEA_URL env, GITEA_TOKEN env, GITEA_OWNER env, GITEA_REPO env with
  | Some (String _ _ as url), Some (String _ _ as token),
    Some (String _ _ as owner), Some (String _ _ as repo) =>
      Some {| config_url := url; config_token := token;
              config_owner := owner; config_repo := repo |}
  | _, _, _, _ => None
  end.

(** [getMonthlyFilePath]. *)
Definition getMonthlyFilePath (year month : Z) : string :=
  let monthStr := padStart (Number_toString month) 2 "0" in
  "events/" +:+ Number_toString year +:+ "-" +:+ monthStr +:+ ".json".

Definition contents_url (config : GiteaConfig) (filepath : string) : string :=
  config_url config +:+ "/api/v1/repos/" +:+ config_owner config +:+ "/"
    +:+ config_repo config +:+ "/contents/" +:+ filepath.

(** [getFileContent]: [None] for a 404; every other failure is logged and
    thrown again. *)
Definition getFileContent (server : GiteaServer) (config : GiteaConfig)
    (filepath : string) : Async (option GiteaFileContent) :=
  let url := contents_url config filepath in
  try_catch
    (do emit (Fetch "GET" url None) in
     match http_get server url with
     | NetworkError => throw
     | HttpResponse code data =>
         if code =? 404 then ret None
         else if negb (response_ok code) then throw
         else match data with
              | Some file => ret (Some file)
              | None => throw
              end
     end)
    (do console ConsoleError "Error fetching file from Gitea:" in throw).

(** [putFileContent]: POST creates, PUT (with the revision) updates. *)
Definition putFileContent (server : GiteaServer) (config : GiteaConfig)
    (filepath content : string) (sha : option string) : Async unit :=
  let url := contents_url config filepath in
  let base64Content := btoa_utf8 content in
  let body := {| put_content := base64Content; put_sha := or_null sha |} in
  let method := if truthy sha then "PUT" else "POST" in
  try_catch
    (do emit (Fetch method url (Some body)) in
     match http_send server method url body with
     | NetworkError => throw
     | HttpResponse code _ => if negb (response_ok code) then throw else ret tt
     end)
    (do console ConsoleError "Error writing file to Gitea:" in throw).

(** [JSON.parse(text)] typed as [Event[]], then [events.push(event)], which
    throws on anything but an array. *)
Definition parse_and_push (text : string) (event : Event) : Async (list Event) :=
  match JSON_parse text with
  | Some (JArray items) => ret (items ++ [event])
  | Some JNotArray => throw
  | None => throw
  end.

(** [appendEventToGitea]. *)
Definition appendEventToGitea (server : GiteaServer) (event : Event) (env : Env)
  : Async unit :=
  match getGiteaConfig env with
  | None => console ConsoleWarn "Gitea config not available, skipping webhook"
  | Some config =>
      try_catch
        (let date := event_created_at event * 1000 in
         let year := Date_getFullYear date in
         let month := Date_getMonth date + 1 in
         let filepath := getMonthlyFilePath year month in
         let* existingFile := getFileContent server config filepath in
         let* events :=
           match existingFile with
           | Some file =>
               if String.eqb (file_encoding file) "base64" then
                 match atob (file_content file) with
                 | Some decoded => parse_and_push decoded event
                 | None => throw
                 end
               else parse_and_push (file_content file) event
           | None => ret [event]
           end in
         let sha := match existingFile with
                    | Some file => file_sha file
                    | None => None
                    end in
         let content := JSON_stringify events in
         do putFileContent server config filepath content sha in
         console ConsoleLog ("Successfully appended event " +:+ event_id event
                               +:+ " to " +:+ filepath))
        (console ConsoleError "Failed to append event to Gitea:")
  end.

(** ** [water.ts]: the handler *)

(** A call that is not awaited, with its [.catch] handler attached; it is
    run to its end in place. *)
Definition detached (m : Async unit) (on_reject : Async unit) : Async unit :=
  λ w, match m w with
       | (Returned _, w') => (Returned tt, w')
       | (Thrown, w') => on_reject w'
       end.

(** [onRequestPost].  [body.amount_oz] is read outside any [try]: on a body
    that is [null] it throws. *)
Definition onRequestPost (request : Request) (env : Env) (amb : Ambient)
  : Async Response :=
  let expectedOrigin := url_origin request in
  if negb (isSameOrigin request expectedOrigin) then
    ret (error_response 403 "Invalid origin")
  else
  match json request with
  | Rejects => ret (error_response 400 "Invalid JSON")
  | ResolvesNull => throw
  | Resolves body =>
  match valid_amount (amount_or_default (body_amount_oz body)) with
  | None => ret (error_response 400 "Invalid amount_oz")
  | Some amount =>
  let ip := getClientIP request in
  let now := Date_now amb / 1000 in
  let* allowed := checkRateLimit ip now in
  if negb allowed then ret (error_response 429 "Rate limit exceeded")
  else
  let idempotencyKey := generateIdempotencyKey ip amount now in
  let* fresh := checkIdempotency idempotencyKey now in
  if negb fresh then ret (error_response 409 "Duplicate request")
  else
  let eventId := random_uuid amb in
  let userAgent := or_null (header_User_Agent request) in
  let source := or_null (body_source body) in
  let note := or_null (body_note body) in
  let event := {| event_id := eventId; event_type := "water";
                  event_amount_oz := amount; event_created_at := now;
                  event_user_agent := userAgent; event_source := source;
                  event_note := note |} in
  try_catch
    (do run (InsertEvent event) (insert_event (d1_fault amb) event) in
     do detached (appendEventToGitea (gitea amb) event env)
                 (console ConsoleError "Gitea webhook failed (non-blocking):") in
     ret {| status := 201;
            body := CreatedBody eventId amount now |})
    (do console ConsoleError "Database error:" in
     ret (error_response 500 "Internal server error"))
  end
  end.

(** Successive requests, each with its own surroundings. *)
Fixpoint serve (calls : list (Request * Ambient)) (env : Env) (w : World)
  : list (completion Response) * World :=
  match calls with
  | [] => ([], w)
  | (request, amb) :: rest =>
      let '(r, w1) := onRequestPost request env amb w in
      let '(rs, w2) := serve rest env w1 in
      (r :: rs, w2)
  end.

End Pipeline.

(** ** A runtime to run the model on examples

    UTC calendar arithmetic for [Date] (Workers run in UTC), a hostname
    reader for [scheme://host[:port][/path]] URLs, an archive that stores its
    documents unencoded, and a JSON codec that knows the empty array. *)

(** Year and zero-based month of the day [days] after 1970-01-01, in the
    proleptic Gregorian calendar. *)
Definition civil_year_month (days : Z) : Z * Z :=
  let z := days + 719468 in
  let era := z / 146097 in
  let doe := z - era * 146097 in
  let yoe := (doe - doe / 1460 + doe / 36524 - doe / 146096) / 365 in
  let doy := doe - (365 * yoe + yoe / 4 - yoe / 100) in
  let mp := (5 * doy + 2) / 153 in
  let m := if mp <? 10 then mp + 3 else mp - 9 in
  let y := yoe + era * 400 + (if m <=? 2 then 1 else 0) in
  (y, m - 1).

Definition utc_getFullYear (ms : Z) : Z := fst (civil_year_month (ms / 86400000)).
Definition utc_getMonth (ms : Z) : Z := snd (civil_year_month (ms / 86400000)).

Fixpoint strip_prefix (p s : string) : option string :=
  match p, s with
  | EmptyString, _ => Some s
  | String a p', String b s' => if Ascii.eqb a b then strip_prefix p' s' else None
  | String _ _, EmptyString => None
  end.

Fixpoint host_part (s : string) : string :=
  match s with
  | EmptyString => EmptyString
  | String c rest =>
      if Ascii.eqb c "/" || Ascii.eqb c ":" then EmptyString
      else String c (host_part rest)
  end.

Definition simple_hostname (s : string) : option string :=
  match strip_prefix "https://" s, strip_prefix "http://" s with
  | Some rest, _ | None, Some rest =>
      match host_part rest with
      | EmptyString => None
      | h => Some h
      end
  | None, None => None
  end.

Definition simple_parse (s : string) : option json_document :=
  if String.eqb s "[]" then Some (JArray [])
  else if String.eqb s "{}" then Some JNotArray
  else None.

Definition simple_stringify (l : list Event) : string :=
  "[" +:+ fold_right (λ e acc, event_id e +:+ ";" +:+ acc) "]" l.

Definition test_runtime : Runtime :=
  {| URL_hostname := simple_hostname;
     Date_getFullYear := utc_getFullYear;
     Date_getMonth := utc_getMonth;
     atob := Some;
     btoa_utf8 := λ s, s;
     JSON_parse := simple_parse;
     JSON_stringify := simple_stringify |}.

(** An archive that has no document yet and accepts every write. *)
Definition empty_archive : GiteaServer :=
  {| http_get := λ _, HttpResponse 404 None;
     http_send := λ _ _ _, HttpResponse 201 tt |}.

(** An archive that cannot be reached. *)
Definition unreachable_archive : GiteaServer :=
  {| http_get := λ _, NetworkError;
     http_send := λ _ _ _, NetworkError |}.

Definition no_gitea : Env :=
  {| GITEA_URL := None; GITEA_TOKEN := None; GITEA_OWNER := None; GITEA_REPO := None |}.

Definition test_gitea : Env :=
  {| GITEA_URL := Some "https://git.example"; GITEA_TOKEN := Some "t0ken";
     GITEA_OWNER := Some "me"; GITEA_REPO := Some "log" |}.

Definition fresh_world : World := {| DB := empty_db; journal := [] |}.

(** A same-origin POST to [https://log.example/api/events/water] from the
    address [ip] with body [{amount_oz: amount, source: "tap"}]. *)
Definition post_from (ip : string) (amount : json_value) : Request :=
  {| url_origin := "https://log.example";
     header_Origin := Some "https://log.example";
     header_CF_Connecting_IP := Some ip;
     header_X_Forwarded_For := None;
     header_User_Agent := Some "curl/8";
     json := Resolves {| body_amount_oz := amount; body_source := Some "tap";
                         body_note := None |} |}.

(** The surroundings at second [t], with [uuid] as the generated id. *)
Definition at_time (t : Z) (uuid : string) : Ambient :=
  {| Date_now := t * 1000; random_uuid := uuid; d1_fault := false;
     gitea := empty_archive |}.

(** ** Vocabulary of the statements below *)

(** The [request_count] the limiter reads for [ip] at time [now]; 0 when the
    window has no row. *)
Definition request_count (d : D1Database) (ip : string) (now : Z) : Z :=
  default 0 (rate_limits d !! (ip, window_floor now RATE_LIMIT_WINDOW)).

(** Rows of [rate_limits] are created with [request_count = 1] and only ever
    incremented. *)
Definition consistent (d : D1Database) : Prop :=
  ∀ k n, rate_limits d !! k = Some n → 1 ≤ n.

(** The guard finds a record of [key] younger than the dedupe window. *)
Definition live_record (d : D1Database) (key : string) (now : Z) : bool :=
  match idempotency_keys d !! key with
  | Some created_at => now - created_at <? IDEMPOTENCY_WINDOW
  | None => false
  end.

(** The second of the invocation: [Math.floor(Date.now() / 1000)]. *)
Definition now_of (amb : Ambient) : Z := Date_now amb / 1000.

(** The row the handler inserts for [request] once [amount] is validated. *)
Definition new_event (request : Request) (body : RequestBody) (amb : Ambient)
    (amount : Z) : Event :=
  {| event_id := random_uuid amb; event_type := "water";
     event_amount_oz := amount; event_created_at := now_of amb;
     event_user_agent := or_null (header_User_Agent request);
     event_source := or_null (body_source body);
     event_note := or_null (body_note body) |}.

Definition created_response (amb : Ambient) (amount : Z) : Response :=
  {| status := 201; body := CreatedBody (random_uuid amb) amount (now_of amb) |}.

Definition is_event_insert (e : effect) : bool :=
  match e with
  | Sql (InsertEvent _) => true
  | _ => false
  end.

Definition is_fetch (e : effect) : bool :=
  match e with
  | Fetch _ _ _ => true
  | _ => false
  end.

(** The same surroundings with another archive behind [fetch]. *)
Definition with_archive (amb : Ambient) (server : GiteaServer) : Ambient :=
  {| Date_now := Date_now amb; random_uuid := random_uuid amb;
     d1_fault := d1_fault amb; gitea := server |}.

(** The same request with another value under [amount_oz]. *)
Definition with_amount (request : Request) (v : json_value) : Request :=
  {| url_origin := url_origin request;
     header_Origin := header_Origin request;
     header_CF_Connecting_IP := header_CF_Connecting_IP request;
     header_X_Forwarded_For := header_X_Forwarded_For request;
     header_User_Agent := header_User_Agent request;
     json := match json request with
             | Resolves b =>
                 Resolves {| body_amount_oz := v; body_source := body_source b;
                             body_note := body_note b |}
             | other => other
             end |}.

Section Vocabulary.
Context {platform : Runtime}.

(** The amount of a request that passes the origin check, parses and has a
    valid amount: the requests that reach the rate limiter. *)
Definition validated (request : Request) : option (RequestBody * Z) :=
  if isSameOrigin request (url_origin request) then
    match json request with
    | Resolves body =>
        match valid_amount (amount_or_default (body_amount_oz body)) with
        | Some amount => Some (body, amount)
        | None => None
        end
    | _ => None
    end
  else None.

(** The sequence of events an archive document holds, as [appendEventToGitea]
    reads it. *)
Definition archived_events (file : GiteaFileContent) : option (list Event) :=
  let text := if String.eqb (file_encoding file) "base64"
              then atob (file_content file) else Some (file_content file) in
  match text with
  | Some t => match JSON_parse t with
              | Some (JArray items) => Some items
              | _ => None
              end
  | None => None
  end.

(** How one invocation of [onRequestPost] ends, by the stage that decides. *)
Inductive outcome (request : Request) (env : Env) (amb : Ambient) (w : World)
  : completion Response -> World -> Prop :=
  | Forbidden :
      isSameOrigin request (url_origin request) = false →
      outcome request env amb w (Returned (error_response 403 "Invalid origin")) w
  | MalformedBody :
      isSameOrigin request (url_origin request) = true →
      json request = Rejects →
      outcome request env amb w (Returned (error_response 400 "Invalid JSON")) w
  | NullBody :
      isSameOrigin request (url_origin request) = true →
      json request = ResolvesNull →
      outcome request env amb w Thrown w
  | InvalidAmount body :
      isSameOrigin request (url_origin request) = true →
      json request = Resolves body →
      valid_amount (amount_or_default (body_amount_oz body)) = None →
      outcome request env amb w (Returned (error_response 400 "Invalid amount_oz")) w
  | LimiterThrew body amount w1 :
      validated request = Some (body, amount) →
      checkRateLimit (getClientIP request) (now_of amb) w = (Thrown, w1) →
      outcome request env amb w Thrown w1
  | RateLimited body amount w1 :
      validated request = Some (body, amount) →
      checkRateLimit (getClientIP request) (now_of amb) w = (Returned false, w1) →
      outcome request env amb w
              (Returned (error_response 429 "Rate limit exceeded")) w1
  | DuplicateRequest body amount w1 w2 :
      validated request = Some (body, amount) →
      checkRateLimit (getClientIP request) (now_of amb) w = (Returned true, w1) →
      checkIdempotency
        (generateIdempotencyKey (getClientIP request) amount (now_of amb))
        (now_of amb) w1 = (Returned false, w2) →
      outcome request env amb w
              (Returned (error_response 409 "Duplicate request")) w2
  | PersistenceFailure body amount w1 w2 :
      validated request = Some (body, amount) →
      checkRateLimit (getClientIP request) (now_of amb) w = (Returned true, w1) →
      checkIdempotency
        (generateIdempotencyKey (getClientIP request) amount (now_of amb))
        (now_of amb) w1 = (Returned true, w2) →
      insert_event (d1_fault amb) (new_event request body amb amount) (DB w2) = None →
      outcome request env amb w
              (Returned (error_response 500 "Internal server error"))
              {| DB := DB w2;
                 journal := journal w2
                   ++ [Sql (InsertEvent (new_event request body amb amount));
                       Console ConsoleError "Database error:"] |}
  | Created body amount w1 w2 d3 archive :
      validated request = Some (body, amount) →
      checkRateLimit (getClientIP request) (now_of amb) w = (Returned true, w1) →
      checkIdempotency
        (generateIdempotencyKey (getClientIP request) amount (now_of amb))
        (now_of amb) w1 = (Returned true, w2) →
      insert_event (d1_fault amb) (new_event request body amb amount) (DB w2) = Some d3 →
      appendEventToGitea (gitea amb) (new_event request body amb amount) env
        {| DB := d3;
           journal := journal w2
             ++ [Sql (InsertEvent (new_event request body amb amount))] |}
      = (Returned tt,
         {| DB := d3;
            journal := (journal w2
              ++ [Sql (InsertEvent (new_event request body amb amount))])
              ++ archive |}) →
      outcome request env amb w
              (Returned (created_response amb amount))
              {| DB := d3;
                 journal := (journal w2
                   ++ [Sql (InsertEvent (new_event request body amb amount))])
                   ++ archive |}.

End Vocabulary.

(** [m] leaves D1 alone and only extends the journal. *)
Definition frames {A : Type} (m : Async A) : Prop :=
  ∀ w, ∃ j, snd (m w) = {| DB := DB w; journal := journal w ++ j |}.

(** [m] never throws. *)
Definition returns {A : Type} (m : Async A) : Prop :=
  ∀ w, ∃ a, fst (m w) = Returned a.

(** D1 after the limiter has admitted a call from [ip] at [now]:
    the counter of the current window is one higher and the rows of windows
    that ended more than an hour ago are gone. *)
Definition counted (d : D1Database) (ip : string) (now : Z) : D1Database :=
  {| events := events d;
     rate_limits :=
       filter (λ row, now - 3600 ≤ row.1.2)
              (<[(ip, window_floor now RATE_LIMIT_WINDOW) := request_count d ip now + 1]>
                 (rate_limits d));
     idempotency_keys := idempotency_keys d |}.

(** D1 after the guard has admitted [key] at [now]. *)
Definition recorded (d : D1Database) (key : string) (now : Z) : D1Database :=
  {| events := events d;
     rate_limits := rate_limits d;
     idempotency_keys :=
       filter (λ row, now - 3600 ≤ row.2) (<[key := now]> (idempotency_keys d)) |}.

(** The statement that writes the counter. *)
Definition counter_write (d : D1Database) (ip : string) (now : Z) : statement :=
  if request_count d ip now =? 0
  then InsertRateLimit ip (window_floor now RATE_LIMIT_WINDOW)
  else UpdateRateLimit ip (window_floor now RATE_LIMIT_WINDOW).

(** The world after the effects [j] that leave D1 alone. *)
Definition after (w : World) (j : list effect) : World :=
  {| DB := DB w; journal := journal w ++ j |}.

(** What [getFileContent] makes of the reply to its GET: [Some None] for a
    404, [Some (Some file)] for a successful reply with a JSON body, [None]
    when it throws. *)
Definition fetched (reply : fetch_reply (option GiteaFileContent))
  : option (option GiteaFileContent) :=
  match reply with
  | NetworkError => None
  | HttpResponse code data =>
      if code =? 404 then Some None
      else if response_ok code then
             match data with
             | Some file => Some (Some file)
             | None => None
             end
           else None
  end.

(** The reply to the write is a success. *)
Definition accepted (reply : fetch_reply unit) : bool :=
  match reply with
  | NetworkError => false
  | HttpResponse code _ => response_ok code
  end.

(** The write request for the document [events] at revision [sha]. *)
Definition write_request `{Runtime} (events : list Event) (sha : option string)
  : string * PutBody :=
  (if truthy sha then "PUT" else "POST",
   {| put_content := btoa_utf8 (JSON_stringify events); put_sha := or_null sha |}).

(** The sequence the mirror starts from and the revision it found: nothing
    for a document that does not exist yet. *)
Definition starting_events `{Runtime} (existing : option GiteaFileContent)
  : option (list Event) :=
  match existing with
  | Some file => archived_events file
  | None => Some []
  end.

Definition revision (existing : option GiteaFileContent) : option string :=
  match existing with
  | Some file => file_sha file
  | None => None
  end.

(** The path of the monthly document of [event] and its URL. *)
Definition monthly_path `{Runtime} (event : Event) : string :=
  getMonthlyFilePath (Date_getFullYear (event_created_at event * 1000))
                     (Date_getMonth (event_created_at event * 1000) + 1).

Definition success_message `{Runtime} (event : Event) : string :=
  "Successfully appended event " +:+ event_id event +:+ " to " +:+ monthly_path event.

(** The effects of one run of the mirror against [server]. *)
Definition sync_journal `{Runtime} (server : GiteaServer) (config : GiteaConfig)
    (event : Event) : list effect :=
  let url := contents_url config (monthly_path event) in
  match fetched (http_get server url) with
  | None =>
      [Fetch "GET" url None;
       Console ConsoleError "Error fetching file from Gitea:";
       Console ConsoleError "Failed to append event to Gitea:"]
  | Some existing =>
      match starting_events existing with
      | None =>
          [Fetch "GET" url None;
           Console ConsoleError "Failed to append event to Gitea:"]
      | Some previous =>
          let '(method, payload) :=
            write_request (previous ++ [event]) (revision existing) in
          if accepted (http_send server method url payload)
          then [Fetch "GET" url None;
                Fetch method url (Some payload);
                Console ConsoleLog (success_message event)]
          else [Fetch "GET" url None;
                Fetch method url (Some payload);
                Console ConsoleError "Error writing file to Gitea:";
                Console ConsoleError "Failed to append event to Gitea:"]
      end
  end.

(** The decimal digit [d] and the fixed-width renderings [MM] and [YYYY]. *)
Definition digit (d : Z) : ascii := ascii_of_nat (48 + Z.to_nat d).

Definition two_digits (n : Z) : string :=
  String (digit (n / 10)) (String (digit (n mod 10)) "").

Definition four_digits (n : Z) : string :=
  String (digit (n / 1000)) (String (digit (n / 100 mod 10)) (two_digits (n mod 100))).

(** No idempotency record is younger than [now]: the clock did not run
    backwards since the records were written. *)
Definition settled (d : D1Database) (now : Z) : Prop :=
  ∀ k t, idempotency_keys d !! k = Some t → t ≤ now.

(** A call that reaches the limiter, made from [ip] during the 60-second
    window that starts at [W]. *)
Definition from_address_in_window `{Runtime} (ip : string) (W : Z)
    (call : Request * Ambient) : Prop :=
  is_Some (validated call.1)
  ∧ getClientIP call.1 = ip
  ∧ window_floor (now_of call.2) RATE_LIMIT_WINDOW = W.

(** ** Requests and surroundings of the concrete runs *)

(** A POST that names another origin than the one serving it. *)
Definition foreign_post : Request :=
  {| url_origin := "https://log.example";
     header_Origin := Some "https://evil.example";
     header_CF_Connecting_IP := Some "A";
     header_X_Forwarded_For := None;
     header_User_Agent := None;
     json := Resolves {| body_amount_oz := JNumber 32; body_source := None;
                         body_note := None |} |}.

(** A POST without any address header. *)
Definition anonymous_post (agent : string) : Request :=
  {| url_origin := "https://log.example";
     header_Origin := Some "https://log.example";
     header_CF_Connecting_IP := None;
     header_X_Forwarded_For := None;
     header_User_Agent := Some agent;
     json := Resolves {| body_amount_oz := JNumber 8; body_source := None;
                         body_note := None |} |}.

(** The surroundings at second [t] when D1 fails on the event insert. *)
Definition failing_store (t : Z) (uuid : string) : Ambient :=
  {| Date_now := t * 1000; random_uuid := uuid; d1_fault := true;
     gitea := empty_archive |}.

(** The body [{amount_oz: 32, source: "tap"}]. *)
Definition tap_body : RequestBody :=
  {| body_amount_oz := JNumber 32; body_source := Some "tap"; body_note := None |}.

(** A POST in November 2023 and the event it creates. *)
Definition first_post : Ambient := at_time 1700000000 "id-1".

Definition first_event : Event :=
  new_event (post_from "A" (JNumber 32)) tap_body first_post 32.

(** Ten identical POSTs from address A at t=1000. *)
Definition ten_posts : list (Request * Ambient) :=
  replicate 10 (post_from "A" (JNumber 32), at_time 1000 "id-1").

(** The polynomial hash with multiplier 31 over the integers:
    [poly31 "c1...cn" h = 31^n h + 31^(n-1) c1 + ... + cn]. *)
Fixpoint poly31 (data : string) (h : Z) : Z :=
  match data with
  | EmptyString => h
  | String c rest => poly31 rest (31 * h + charCodeAt c)
  end.

(** ** The event id *)

(** The callback of [replace(/[xy]/g, ...)]: one [Math.random()] draw per
    placeholder; [(x * 16) | 0] of a non-negative [x] is the floor of the
    product, reduced to 32 bits. *)
Definition uuid_digit (c : ascii) (random : Q) : string :=
  let r := ToInt32 (Qfloor (random * 16)) in
  let v := if decide (c = "x"%char) then r else Z.lor (Z.land r 3) 8 in
  toString16 v.

(** [template.replace(/[xy]/g, callback)], the [i]-th match taking the
    [i]-th draw. *)
Fixpoint replace_xy (template : string) (random : nat → Q) (i : nat) : string :=
  match template with
  | "" => ""
  | String c rest =>
      if decide (c = "x"%char ∨ c = "y"%char)
      then uuid_digit c (random i) +:+ replace_xy rest random (S i)
      else String c (replace_xy rest random i)
  end.

Definition generateUUID (random : nat → Q) : string :=
  replace_xy "xxxxxxxx-xxxx-4xxx-yxxx-xxxxxxxxxxxx" random 0.

(** The textual form of a version 4 UUID (RFC 4122): 36 characters, hyphens
    at 8, 13, 18 and 23, the version digit 4 at 14, a variant digit 8, 9, a
    or b at 19, lower-case hexadecimal digits elsewhere. *)
Definition is_hex (c : ascii) : bool :=
  bool_decide (c ∈ list_ascii_of_string "0123456789abcdef").

Definition uuid_char_ok (i : nat) (c : ascii) : bool :=
  if bool_decide (i ∈ [8; 13; 18; 23]%nat) then bool_decide (c = "-"%char)
  else if bool_decide (i = 14%nat) then bool_decide (c = "4"%char)
  else if bool_decide (i = 19%nat)
       then bool_decide (c ∈ list_ascii_of_string "89ab")
       else is_hex c.

Definition is_uuid_v4 (s : string) : bool :=
  bool_decide (String.length s = 36%nat)
  && forallb (λ ic, uuid_char_ok ic.1 ic.2)
       (imap (λ i c, (i, c)) (list_ascii_of_string s)).

(** A stream of draws that runs through the sixteen values. *)
Definition cycling_draws (i : nat) : Q := Z.of_nat (i mod 16) # 16.

(** What the callback may put in the place of a template character. *)
Definition replaced_by (c c' : ascii) : bool :=
  if decide (c = "x"%char) then is_hex c'
  else if decide (c = "y"%char)
       then bool_decide (c' ∈ list_ascii_of_string "89ab")
       else bool_decide (c' = c).

(** ** The form of the page ([app.js]) *)

Definition is_digit (c : ascii) : bool :=
  let n := nat_of_ascii c in ((48 <=? n) && (n <=? 57))%nat.

(** The value of the longest prefix of decimal digits; [acc] is the value
    of the digits read so far, [None] before the first one. *)
Fixpoint leading_digits (s : string) (acc : option Z) : option Z :=
  match s with
  | String c rest =>
      if is_digit c
      then leading_digits rest (Some (10 * default 0 acc + (charCodeAt c - 48)))
      else acc
  | EmptyString => acc
  end.

(** [parseInt(s, 10)]: leading white space and one sign are skipped, the
    digits that follow are read up to the first other character; [None] is
    [NaN].  The integer is the number itself as long as it is below 2^53,
    which fifteen characters guarantee. *)
Definition parseInt (s : string) : option Z :=
  match trimStart s with
  | String "-" rest => Z.opp <$> leading_digits rest None
  | String "+" rest => leading_digits rest None
  | digits => leading_digits digits None
  end.

(** The three fields of [waterForm]. *)
Record Form : Type := {
  amount_value : string;
  source_value : string;
  note_value : string
}.

(** The submit handler up to its [fetch]: the body it posts, or [None] when
    it shows 'Please enter a valid amount' and returns. *)
Definition submit (form : Form) : option RequestBody :=
  let amount := parseInt (amount_value form) in
  let source := or_null (Some (trim (source_value form))) in
  let note := or_null (Some (trim (note_value form))) in
  match amount with
  | None => None
  | Some amount =>
      if amount <? 0 then None
      else Some {| body_amount_oz := JNumber amount;
                   body_source := source;
                   body_note := note |}
  end.

Definition tap_form : Form :=
  {| amount_value := " 16 oz"; source_value := "  tap "; note_value := "   " |}.

(** The same request with another [X-Forwarded-For] header. *)
Definition with_forwarded (request : Request) (forwarded : option string) : Request :=
  {| url_origin := url_origin request;
     header_Origin := header_Origin request;
     header_CF_Connecting_IP := header_CF_Connecting_IP request;
     header_X_Forwarded_For := forwarded;
     header_User_Agent := header_User_Agent request;
     json := json request |}.

(** A call that reaches the limiter from [ip] with [amount] while the clock
    is in the 5-second window that starts at [W]. *)
Definition in_dedupe_window `{Runtime} (ip : string) (amount W : Z)
    (call : Request * Ambient) : Prop :=
  (∃ body, validated call.1 = Some (body, amount))
  ∧ getClientIP call.1 = ip
  ∧ window_floor (now_of call.2) IDEMPOTENCY_WINDOW = W.

(** [key] has a record that was stamped in the window that starts at [W]. *)
Definition stamped_in (d : D1Database) (key : string) (W : Z) : Prop :=
  ∃ t, idempotency_keys d !! key = Some t
       ∧ window_floor t IDEMPOTENCY_WINDOW = W.

(** A database whose counter for address A in the window of t=1000 holds 0. *)
Definition zeroed_world : World :=
  {| DB := {| events := []; rate_limits := {[ ("A", 960) := 0 ]};
              idempotency_keys := ∅ |};
     journal := [] |}.

(** A database with a counter and a record from the first minutes. *)
Definition stale_world : World :=
  {| DB := {| events := []; rate_limits := {[ ("B", 60) := 3 ]};
              idempotency_keys := {[ "idempotency:0" := 60 ]} |};
     journal := [] |}.

(** Ten POSTs in the last second of the window [960, 1020) and ten in the
    first second of the next. *)
Definition late_posts : list (Request * Ambient) :=
  replicate 10 (post_from "A" (JNumber 32), at_time 1019 "id-1").

Definition early_posts : list (Request * Ambient) :=
  replicate 10 (post_from "A" (JNumber 32), at_time 1020 "id-2").

(** Three POSTs from address A in the dedupe window [1000, 1005). *)
Definition burst : list (Request * Ambient) :=
  [(post_from "A" (JNumber 32), at_time 1001 "id-1");
   (post_from "A" (JNumber 32), at_time 1003 "id-2");
   (post_from "A" (JNumber 32), at_time 1004 "id-3")].

(** A configuration whose token is the empty string. *)
Definition blank_token : Env :=
  {| GITEA_URL := Some "https://git.example"; GITEA_TOKEN := Some "";
     GITEA_OWNER := Some "me"; GITEA_REPO := Some "log" |}.

(** ** Suspension points

    The handler and its helpers are [async] functions: at every [await] an
    invocation is suspended, and other invocations may run before it is
    resumed.  A [Task] runs from a world up to its next [await] or to its
    end.  D1 executes one statement at a time; an awaited statement is taken
    to run when the invocation is resumed, in one piece with the code that
    follows it up to the next [await] (that code reads no table). *)

Inductive Run (A : Type) : Type :=
  | Settled (c : completion A) (w : World)
  | Suspended (w : World) (resume : World -> Run A).
Arguments Settled {A} c w.
Arguments Suspended {A} w resume.

Definition Task (A : Type) : Type := World -> Run A.

Definition ret_task {A : Type} (a : A) : Task A := λ w, Settled (Returned a) w.

Definition throw_task {A : Type} : Task A := λ w, Settled Thrown w.

Fixpoint bind_run {A B : Type} (r : Run A) (k : A -> Task B) : Run B :=
  match r with
  | Settled (Returned a) w => k a w
  | Settled Thrown w => Settled Thrown w
  | Suspended w resume => Suspended w (λ w', bind_run (resume w') k)
  end.

Definition bind_task {A B : Type} (m : Task A) (k : A -> Task B) : Task B :=
  λ w, bind_run (m w) k.

Notation "'let!' x := m 'in' k" := (bind_task m (λ x, k))
  (at level 10, x name, m at level 100, k at level 200, only parsing).
Notation "'do!' m 'in' k" := (bind_task m (λ _, k))
  (at level 10, m at level 100, k at level 200, only parsing).

(** [try { m } catch { handler }] around code that awaits. *)
Fixpoint try_run {A : Type} (r : Run A) (handler : Task A) : Run A :=
  match r with
  | Settled Thrown w => handler w
  | Settled c w => Settled c w
  | Suspended w resume => Suspended w (λ w', try_run (resume w') handler)
  end.

Definition try_task {A : Type} (m handler : Task A) : Task A :=
  λ w, try_run (m w) handler.

(** Code that runs without being suspended. *)
Definition at_once {A : Type} (m : Async A) : Task A :=
  λ w, let '(c, w') := m w in Settled c w'.

(** [await m]. *)
Definition await {A : Type} (m : Async A) : Task A :=
  λ w, Suspended w (at_once m).

(** [checkRateLimit], with its three suspension points. *)
Definition checkRateLimit_task (ip : string) (now : Z) : Task bool :=
  let windowStart := window_floor now RATE_LIMIT_WINDOW in
  let! result := await (query (SelectRateLimit ip windowStart)
                              (λ d, rate_limits d !! (ip, windowStart))) in
  let currentCount := default 0 result in
  if RATE_LIMIT_MAX_REQUESTS <=? currentCount then ret_task false
  else
    do! await (if currentCount =? 0
               then run (InsertRateLimit ip windowStart)
                        (insert_rate_limit ip windowStart)
               else run (UpdateRateLimit ip windowStart)
                        (update_rate_limit ip windowStart)) in
    do! await (run (DeleteRateLimits (now - 3600)) (delete_rate_limits (now - 3600))) in
    ret_task true.

(** [checkIdempotency], with its three suspension points. *)
Definition checkIdempotency_task (keyHash : string) (now : Z) : Task bool :=
  let! result := await (query (SelectIdempotencyKey keyHash)
                              (λ d, idempotency_keys d !! keyHash)) in
  let duplicate :=
    match result with
    | Some created_at => now - created_at <? IDEMPOTENCY_WINDOW
    | None => false
    end in
  if duplicate then ret_task false
  else
    do! await (run (ReplaceIdempotencyKey keyHash now)
                   (replace_idempotency_key keyHash now)) in
    do! await (run (DeleteIdempotencyKeys (now - 3600))
                   (delete_idempotency_keys (now - 3600))) in
    ret_task true.

Section Suspension.
Context {platform : Runtime}.

(** [onRequestPost], suspended at [request.json()] and at every statement.
    The call to the mirror is not awaited; it touches no table and is run
    to its end in place, as in [onRequestPost]. *)
Definition onRequestPost_task (request : Request) (env : Env) (amb : Ambient)
  : Task Response :=
  let expectedOrigin := url_origin request in
  if negb (isSameOrigin request expectedOrigin) then
    ret_task (error_response 403 "Invalid origin")
  else
  let! body := await (ret (json request)) in
  match body with
  | Rejects => ret_task (error_response 400 "Invalid JSON")
  | ResolvesNull => throw_task
  | Resolves body =>
  match valid_amount (amount_or_default (body_amount_oz body)) with
  | None => ret_task (error_response 400 "Invalid amount_oz")
  | Some amount =>
  let ip := getClientIP request in
  let now := Date_now amb / 1000 in
  let! allowed := checkRateLimit_task ip now in
  if negb allowed then ret_task (error_response 429 "Rate limit exceeded")
  else
  let idempotencyKey := generateIdempotencyKey ip amount now in
  let! fresh := checkIdempotency_task idempotencyKey now in
  if negb fresh then ret_task (error_response 409 "Duplicate request")
  else
  let eventId := random_uuid amb in
  let userAgent := or_null (header_User_Agent request) in
  let source := or_null (body_source body) in
  let note := or_null (body_note body) in
  let event := {| event_id := eventId; event_type := "water";
                  event_amount_oz := amount; event_created_at := now;
                  event_user_agent := userAgent; event_source := source;
                  event_note := note |} in
  try_task
    (do! await (run (InsertEvent event) (insert_event (d1_fault amb) event)) in
     do! at_once (detached (appendEventToGitea (gitea amb) event env)
                    (console ConsoleError "Gitea webhook failed (non-blocking):")) in
     ret_task {| status := 201;
                 body := CreatedBody eventId amount now |})
    (do! at_once (console ConsoleError "Database error:") in
     ret_task (error_response 500 "Internal server error"))
  end
  end.

End Suspension.

(** An invocation that is resumed each time as soon as it is suspended. *)
Fixpoint finish {A : Type} (r : Run A) : completion A * World :=
  match r with
  | Settled c w => (c, w)
  | Suspended w resume => finish (resume w)
  end.

(** Invocations in flight: each is waiting to be started or resumed, or has
    completed. *)
Inductive slot (A : Type) : Type :=
  | Pending (resume : Task A)
  | Completed (c : completion A).
Arguments Pending {A} resume.
Arguments Completed {A} c.

(** One invocation runs up to its next [await] or to its end. *)
Definition advance {A : Type} (s : slot A) (w : World) : slot A * World :=
  match s with
  | Pending resume =>
      match resume w with
      | Settled c w' => (Completed c, w')
      | Suspended w' resume' => (Pending resume', w')
      end
  | Completed c => (Completed c, w)
  end.

(** The invocations advance in the order [schedule] gives, each entry
    naming the one that runs next. *)
Fixpoint interleave {A : Type} (schedule : list nat) (slots : list (slot A))
    (w : World) : list (slot A) * World :=
  match schedule with
  | [] => (slots, w)
  | i :: rest =>
      match slots !! i with
      | Some s =>
          let '(s', w') := advance s w in
          interleave rest (<[i := s']> slots) w'
      | None => interleave rest slots w
      end
  end.

(** Nine POSTs from address A at t=1000, then the tenth and the eleventh of
    the window, with different amounts. *)
Definition nine_posts : list (Request * Ambient) :=
  replicate 9 (post_from "A" (JNumber 32), at_time 1000 "id-1").

Definition tenth_and_eleventh : list (Request * Ambient) :=
  [(post_from "A" (JNumber 10), at_time 1001 "id-10");
   (post_from "A" (JNumber 11), at_time 1001 "id-11")].

(** The invocations of [calls], none started yet. *)
Definition invoke `{Runtime} (calls : list (Request * Ambient)) (env : Env)
  : list (slot Response) :=
  map (λ call, Pending (onRequestPost_task call.1 env call.2)) calls.

(** Two invocations of three suspension points each, the second one reading
    before the first one writes. *)
Definition read_read_write_write : list nat := [0; 0; 1; 1; 0; 0; 1; 1]%nat.

(** ** The codecs of the platform

    [btoa], [atob], the UTF-8 step [unescape(encodeURIComponent(s))] and
    the JSON codec, for the strings of the model: code units below 256,
    integers as numbers. *)

Definition base64_alphabet : string :=
  "ABCDEFGHIJKLMNOPQRSTUVWXYZabcdefghijklmnopqrstuvwxyz0123456789+/".

Definition base64_digit (n : Z) : ascii :=
  default "A"%char (String.get (Z.to_nat n) base64_alphabet).

(** [btoa(s)] for a string of bytes. *)
Fixpoint btoa (s : string) : string :=
  match s with
  | EmptyString => EmptyString
  | String a EmptyString =>
      let a := charCodeAt a in
      String (base64_digit (a / 4)) (String (base64_digit (a mod 4 * 16)) "==")
  | String a (String b EmptyString) =>
      let a := charCodeAt a in
      let b := charCodeAt b in
      String (base64_digit (a / 4))
        (String (base64_digit (a mod 4 * 16 + b / 16))
           (String (base64_digit (b mod 16 * 4)) "="))
  | String a (String b (String c rest)) =>
      let a := charCodeAt a in
      let b := charCodeAt b in
      let c := charCodeAt c in
      String (base64_digit (a / 4))
        (String (base64_digit (a mod 4 * 16 + b / 16))
           (String (base64_digit (b mod 16 * 4 + c / 64))
              (String (base64_digit (c mod 64)) (btoa rest))))
  end.

Fixpoint index_of (c : ascii) (s : string) (i : Z) : option Z :=
  match s with
  | EmptyString => None
  | String d rest => if Ascii.eqb c d then Some i else index_of c rest (i + 1)
  end.

Definition base64_value (c : ascii) : option Z := index_of c base64_alphabet 0.

Definition is_ascii_whitespace (c : ascii) : bool :=
  let n := charCodeAt c in
  (n =? 9) || (n =? 10) || (n =? 12) || (n =? 13) || (n =? 32).

Fixpoint without_whitespace (s : string) : list ascii :=
  match s with
  | EmptyString => []
  | String c rest =>
      if is_ascii_whitespace c then without_whitespace rest
      else c :: without_whitespace rest
  end.

(** One or two [=] at the end of data whose length is a multiple of 4. *)
Definition without_padding (l : list ascii) : list ascii :=
  if (length l mod 4 =? 0)%nat then
    match reverse l with
    | "="%char :: "="%char :: rest => reverse rest
    | "="%char :: rest => reverse rest
    | _ => l
    end
  else l.

Definition byte (n : Z) : ascii := ascii_of_nat (Z.to_nat (n mod 256)).

Fixpoint from_sextets (l : list Z) : string :=
  match l with
  | a :: b :: c :: d :: rest =>
      String (byte (a * 4 + b / 16))
        (String (byte (b mod 16 * 16 + c / 4))
           (String (byte (c mod 4 * 64 + d)) (from_sextets rest)))
  | [a; b; c] =>
      String (byte (a * 4 + b / 16)) (String (byte (b mod 16 * 16 + c / 4)) "")
  | [a; b] => String (byte (a * 4 + b / 16)) ""
  | _ => EmptyString
  end.

(** [atob(s)]: [None] when it throws. *)
Definition atob_bytes (s : string) : option string :=
  let data := without_padding (without_whitespace s) in
  if (length data mod 4 =? 1)%nat then None
  else from_sextets <$> mapM base64_value data.

(** [unescape(encodeURIComponent(s))]: the UTF-8 bytes of [s]. *)
Fixpoint utf8_encode (s : string) : string :=
  match s with
  | EmptyString => EmptyString
  | String c rest =>
      let n := charCodeAt c in
      if n <? 128 then String c (utf8_encode rest)
      else String (byte (192 + n / 64)) (String (byte (128 + n mod 64)) (utf8_encode rest))
  end.

(** The text that UTF-8 bytes stand for; [None] for bytes that are not
    UTF-8 or stand for a character above U+00FF. *)
Fixpoint utf8_decode (s : string) : option string :=
  match s with
  | EmptyString => Some EmptyString
  | String a rest =>
      let n := charCodeAt a in
      if n <? 128 then String a <$> utf8_decode rest
      else
        match rest with
        | String b rest' =>
            let m := charCodeAt b in
            if ((n =? 194) || (n =? 195)) && (128 <=? m) && (m <? 192)
            then String (byte ((n - 192) * 64 + (m - 128))) <$> utf8_decode rest'
            else None
        | EmptyString => None
        end
  end.

(** *** [JSON.stringify(events, null, 2)] *)

Definition double_quote : ascii := "034"%char.
Definition line_feed : ascii := "010"%char.

Definition hex_digit (n : Z) : ascii :=
  default "0"%char (String.get (Z.to_nat n) "0123456789abcdef").

Definition escape_char (c : ascii) : string :=
  let n := charCodeAt c in
  if n =? 34 then String "\" (String double_quote "")
  else if n =? 92 then "\\"
  else if n =? 8 then "\b"
  else if n =? 9 then "\t"
  else if n =? 10 then "\n"
  else if n =? 12 then "\f"
  else if n =? 13 then "\r"
  else if n <? 32
       then "\u00" +:+ String (hex_digit (n / 16)) (String (hex_digit (n mod 16)) "")
       else String c "".

Fixpoint escape (s : string) : string :=
  match s with
  | EmptyString => EmptyString
  | String c rest => escape_char c +:+ escape rest
  end.

Definition json_string (s : string) : string :=
  String double_quote (escape s +:+ String double_quote "").

Definition json_nullable (s : option string) : string :=
  match s with
  | Some s => json_string s
  | None => "null"
  end.

Definition json_member (key value : string) : string :=
  "    " +:+ json_string key +:+ ": " +:+ value.

Definition json_event (e : Event) : string :=
  let lines :=
    [json_member "id" (json_string (event_id e));
     json_member "type" (json_string (event_type e));
     json_member "amount_oz" (Number_toString (event_amount_oz e));
     json_member "created_at" (Number_toString (event_created_at e));
     json_member "user_agent" (json_nullable (event_user_agent e));
     json_member "source" (json_nullable (event_source e));
     json_member "note" (json_nullable (event_note e))] in
  "  {" +:+ String line_feed ""
    +:+ fold_right (λ line acc,
          line +:+ (if decide (acc = "") then "" else ",") +:+ String line_feed acc)
          "" lines
    +:+ "  }".

Definition stringify_events (l : list Event) : string :=
  match l with
  | [] => "[]"
  | _ =>
      "[" +:+ String line_feed ""
        +:+ fold_right (λ item acc,
              item +:+ (if decide (acc = "") then "" else ",") +:+ String line_feed acc)
              "" (map json_event l)
        +:+ "]"
  end.

(** *** [JSON.parse] *)

Set Warnings "-register-all".

Inductive json_tree : Type :=
  | TNull
  | TBoolean (b : bool)
  | TNumber (n : Z)
  | TString (s : string)
  | TArray (items : list json_tree)
  | TObject (members : list (string * json_tree)).

Definition is_json_space (c : ascii) : bool :=
  let n := charCodeAt c in
  (n =? 32) || (n =? 9) || (n =? 10) || (n =? 13).

Fixpoint skip_space (s : string) : string :=
  match s with
  | EmptyString => EmptyString
  | String c rest => if is_json_space c then skip_space rest else s
  end.

Definition hex_value (c : ascii) : option Z :=
  match index_of c "0123456789abcdef" 0 with
  | Some v => Some v
  | None => (λ v, v + 10) <$> index_of c "ABCDEF" 0
  end.

(** The characters of a string literal after its opening quote, and what
    follows the closing one. *)
Fixpoint string_literal (s : string) : option (string * string) :=
  match s with
  | EmptyString => None
  | String c rest =>
      let n := charCodeAt c in
      if n =? 34 then Some (EmptyString, rest)
      else if n =? 92 then
        match rest with
        | String e rest' =>
            let keep (c' : ascii) :=
              (λ r : string * string, (String c' r.1, r.2)) <$> string_literal rest' in
            if Ascii.eqb e double_quote then keep double_quote
            else if Ascii.eqb e "\" then keep "\"%char
            else if Ascii.eqb e "/" then keep "/"%char
            else if Ascii.eqb e "b" then keep "008"%char
            else if Ascii.eqb e "f" then keep "012"%char
            else if Ascii.eqb e "n" then keep "010"%char
            else if Ascii.eqb e "r" then keep "013"%char
            else if Ascii.eqb e "t" then keep "009"%char
            else if Ascii.eqb e "u" then
              match rest' with
              | String h1 (String h2 (String h3 (String h4 rest''))) =>
                  match hex_value h1, hex_value h2, hex_value h3, hex_value h4 with
                  | Some 0, Some 0, Some v3, Some v4 =>
                      (λ r : string * string, (String (byte (v3 * 16 + v4)) r.1, r.2))
                        <$> string_literal rest''
                  | _, _, _, _ => None
                  end
              | _ => None
              end
            else None
        | EmptyString => None
        end
      else if n <? 32 then None
      else (λ r : string * string, (String c r.1, r.2)) <$> string_literal rest
  end.

Fixpoint digits (s : string) (acc : Z) : Z * string :=
  match s with
  | String c rest =>
      if is_digit c then digits rest (10 * acc + (charCodeAt c - 48)) else (acc, s)
  | EmptyString => (acc, s)
  end.

(** An integer literal; a fraction or an exponent is not read. *)
Definition number_literal (s : string) : option (Z * string) :=
  let '(negative, s1) :=
    match s with
    | String "-" rest => (true, rest)
    | _ => (false, s)
    end in
  match s1 with
  | String c after =>
      if negb (is_digit c) then None
      else if Ascii.eqb c "0"
                && match after with String d _ => is_digit d | EmptyString => false end
      then None
      else
        let '(v, rest) := digits s1 0 in
        match rest with
        | String "." _ | String "e" _ | String "E" _ => None
        | _ => Some (if negative then - v else v, rest)
        end
  | EmptyString => None
  end.

Fixpoint parse_value (fuel : nat) (s : string) : option (json_tree * string) :=
  match fuel with
  | O => None
  | S fuel =>
      match skip_space s with
      | String c rest as text =>
          if Ascii.eqb c double_quote then
            (λ r : string * string, (TString r.1, r.2)) <$> string_literal rest
          else if Ascii.eqb c "[" then
            match skip_space rest with
            | String "]" rest' => Some (TArray [], rest')
            | _ => (λ r : list json_tree * string, (TArray r.1, r.2))
                     <$> parse_items fuel rest
            end
          else if Ascii.eqb c "{" then
            match skip_space rest with
            | String "}" rest' => Some (TObject [], rest')
            | _ => (λ r : list (string * json_tree) * string, (TObject r.1, r.2))
                     <$> parse_members fuel rest
            end
          else
            match strip_prefix "null" text, strip_prefix "true" text,
                  strip_prefix "false" text with
            | Some rest', _, _ => Some (TNull, rest')
            | _, Some rest', _ => Some (TBoolean true, rest')
            | _, _, Some rest' => Some (TBoolean false, rest')
            | None, None, None =>
                (λ r : Z * string, (TNumber r.1, r.2)) <$> number_literal text
            end
      | EmptyString => None
      end
  end
with parse_items (fuel : nat) (s : string) : option (list json_tree * string) :=
  match fuel with
  | O => None
  | S fuel =>
      match parse_value fuel s with
      | Some (v, rest) =>
          match skip_space rest with
          | String "," rest' =>
              (λ r : list json_tree * string, (v :: r.1, r.2))
                <$> parse_items fuel rest'
          | String "]" rest' => Some ([v], rest')
          | _ => None
          end
      | None => None
      end
  end
with parse_members (fuel : nat) (s : string)
  : option (list (string * json_tree) * string) :=
  match fuel with
  | O => None
  | S fuel =>
      match skip_space s with
      | String c rest =>
          if Ascii.eqb c double_quote then
            match string_literal rest with
            | Some (key, rest1) =>
                match skip_space rest1 with
                | String ":" rest2 =>
                    match parse_value fuel rest2 with
                    | Some (v, rest3) =>
                        match skip_space rest3 with
                        | String "," rest4 =>
                            (λ r : list (string * json_tree) * string,
                               ((key, v) :: r.1, r.2))
                              <$> parse_members fuel rest4
                        | String "}" rest4 => Some ([(key, v)], rest4)
                        | _ => None
                        end
                    | None => None
                    end
                | _ => None
                end
            | None => None
            end
          else None
      | EmptyString => None
      end
  end.

Definition parse_text (s : string) : option json_tree :=
  match parse_value (S (String.length s)) s with
  | Some (v, rest) =>
      match skip_space rest with
      | EmptyString => Some v
      | _ => None
      end
  | None => None
  end.

Definition member (key : string) (members : list (string * json_tree))
  : option json_tree :=
  snd <$> find (λ m, String.eqb m.1 key) (reverse members).

Definition as_string (v : option json_tree) : option string :=
  match v with Some (TString s) => Some s | _ => None end.

Definition as_number (v : option json_tree) : option Z :=
  match v with Some (TNumber n) => Some n | _ => None end.

Definition as_nullable (v : option json_tree) : option (option string) :=
  match v with
  | Some (TString s) => Some (Some s)
  | Some TNull => Some None
  | _ => None
  end.

(** An object with the seven properties of [Event] and no other. *)
Definition event_of_tree (v : json_tree) : option Event :=
  match v with
  | TObject members =>
      if negb (length members =? 7)%nat then None
      else
        id ← as_string (member "id" members);
        type ← as_string (member "type" members);
        amount_oz ← as_number (member "amount_oz" members);
        created_at ← as_number (member "created_at" members);
        user_agent ← as_nullable (member "user_agent" members);
        source ← as_nullable (member "source" members);
        note ← as_nullable (member "note" members);
        Some {| event_id := id; event_type := type; event_amount_oz := amount_oz;
                event_created_at := created_at; event_user_agent := user_agent;
                event_source := source; event_note := note |}
  | _ => None
  end.

(** [JSON.parse(text)] seen as [Event[]]: an array of [Event] objects, or
    another value; an array that holds anything else has no counterpart in
    [json_document] and is not read. *)
Definition parse_events (text : string) : option json_document :=
  match parse_text text with
  | Some (TArray items) => JArray <$> mapM event_of_tree items
  | Some _ => Some JNotArray
  | None => None
  end.

(** The platform with these codecs. *)
Definition js_runtime : Runtime :=
  {| URL_hostname := simple_hostname;
     Date_getFullYear := utc_getFullYear;
     Date_getMonth := utc_getMonth;
     atob := atob_bytes;
     btoa_utf8 := λ s, btoa (utf8_encode s);
     JSON_parse := parse_events;
     JSON_stringify := stringify_events |}.

(** The events a document of the archive holds: its base64 content stands
    for bytes, the bytes for UTF-8 text, the text for an array. *)
Definition held_events (content : string) : option (list Event) :=
  bytes ← atob_bytes content;
  text ← utf8_decode bytes;
  match parse_events text with
  | Some (JArray items) => Some items
  | _ => None
  end.

(** An archive whose monthly document holds [events] at revision [r1] and
    that accepts every write. *)
Definition archive_holding (events : list Event) : GiteaServer :=
  {| http_get := λ _,
       HttpResponse 200
         (Some {| file_content := btoa (utf8_encode (stringify_events events));
                  file_encoding := "base64";
                  file_sha := Some "r1" |});
     http_send := λ _ _ _, HttpResponse 200 tt |}.

(** The content of the last document written in a journal. *)
Definition written_content (j : list effect) : option string :=
  last (omap (λ e, match e with
                   | Fetch _ _ (Some payload) => Some (put_content payload)
                   | _ => None
                   end) j).

(** An event of November 2023 whose note is [café], and what the mirror
    makes of it. *)
Definition cafe_event : Event :=
  {| event_id := "id-0"; event_type := "water"; event_amount_oz := 8;
     event_created_at := 1699990000; event_user_agent := None;
     event_source := Some "tap";
     event_note := Some ("caf" +:+ String "233" "") |}.

Definition garbled_event : Event :=
  {| event_id := "id-0"; event_type := "water"; event_amount_oz := 8;
     event_created_at := 1699990000; event_user_agent := None;
     event_source := Some "tap";
     event_note := Some ("caf" +:+ String "195" (String "169" "")) |}.

Definition tea_event : Event :=
  {| event_id := "id-0"; event_type := "water"; event_amount_oz := 8;
     event_created_at := 1699990000; event_user_agent := None;
     event_source := Some "tap";
     event_note := Some "tea" |}.

(** A same-origin POST whose body is the JSON text [null]. *)
Definition null_post : Request :=
  {| url_origin := "https://log.example";
     header_Origin := Some "https://log.example";
     header_CF_Connecting_IP := Some "A";
     header_X_Forwarded_For := None;
     header_User_Agent := None;
     json := ResolvesNull |}.

(** * Properties *)

Section Properties.
Context {platform : Runtime}.

(** ** Computations that leave D1 alone *)

Lemma frames_ret {A} (a : A) : frames (ret a).
Proof. intros w. exists []. by rewrite app_nil_r; destruct w. Qed.

Lemma frames_throw {A} : frames (@throw A).
Proof. intros w. exists []. by rewrite app_nil_r; destruct w. Qed.

Lemma frames_emit_fetch method url payload : frames (emit (Fetch method url payload)).
Proof. intros w. by eexists. Qed.

Lemma frames_console level message : frames (console level message).
Proof. intros w. by eexists. Qed.

Lemma frames_bind {A B} (m : Async A) (k : A -> Async B) :
  frames m → (∀ a, frames (k a)) → frames (bind m k).
Proof.
  intros Hm Hk w. unfold bind.
  destruct (Hm w) as [j1 H1]. destruct (m w) as [[a|] w1]; cbn in H1; subst w1.
  - destruct (Hk a {| DB := DB w; journal := journal w ++ j1 |}) as [j2 H2].
    exists (j1 ++ j2). rewrite H2; cbn. by rewrite app_assoc.
  - by exists j1.
Qed.

Lemma frames_try_catch {A} (m handler : Async A) :
  frames m → frames handler → frames (try_catch m handler).
Proof.
  intros Hm Hh w. unfold try_catch.
  destruct (Hm w) as [j1 H1]. destruct (m w) as [[a|] w1]; cbn in H1; subst w1.
  - by exists j1.
  - destruct (Hh {| DB := DB w; journal := journal w ++ j1 |}) as [j2 H2].
    exists (j1 ++ j2). rewrite H2; cbn. by rewrite app_assoc.
Qed.

Lemma returns_try_catch {A} (m handler : Async A) :
  returns handler → returns (try_catch m handler).
Proof.
  intros Hh w. unfold try_catch.
  destruct (m w) as [[a|] w1]; [by exists a | apply Hh].
Qed.

Lemma returns_console level message : returns (console level message).
Proof. intros w. by exists tt. Qed.

Lemma frames_getFileContent server config filepath :
  frames (getFileContent server config filepath).
Proof.
  unfold getFileContent.
  apply frames_try_catch; apply frames_bind;
    auto using frames_emit_fetch, frames_console, frames_throw.
  intros _. repeat case_match; auto using frames_ret, frames_throw.
Qed.

Lemma frames_putFileContent server config filepath content sha :
  frames (putFileContent server config filepath content sha).
Proof.
  unfold putFileContent.
  apply frames_try_catch; apply frames_bind;
    auto using frames_emit_fetch, frames_console, frames_throw.
  intros _. repeat case_match; auto using frames_ret, frames_throw.
Qed.

Lemma frames_parse_and_push text event : frames (parse_and_push text event).
Proof.
  unfold parse_and_push. repeat case_match; auto using frames_ret, frames_throw.
Qed.

Lemma frames_appendEventToGitea server event env :
  frames (appendEventToGitea server event env).
Proof.
  unfold appendEventToGitea.
  destruct (getGiteaConfig env) as [config|]; [|apply frames_console].
  apply frames_try_catch; [|apply frames_console].
  apply frames_bind; [apply frames_getFileContent|]. intros existing.
  apply frames_bind.
  - repeat case_match;
      auto using frames_ret, frames_throw, frames_parse_and_push.
  - intros evs. apply frames_bind; [apply frames_putFileContent|].
    intros _. apply frames_console.
Qed.

Lemma returns_appendEventToGitea server event env :
  returns (appendEventToGitea server event env).
Proof.
  unfold appendEventToGitea.
  destruct (getGiteaConfig env) as [config|]; [|apply returns_console].
  apply returns_try_catch, returns_console.
Qed.

(** The mirror never rejects: it returns, leaves D1 alone, and only extends
    the journal. *)
Lemma appendEventToGitea_returns server event env w :
  ∃ j, appendEventToGitea server event env w
       = (Returned tt, {| DB := DB w; journal := journal w ++ j |}).
Proof.
  destruct (frames_appendEventToGitea server event env w) as [j Hj].
  destruct (returns_appendEventToGitea server event env w) as [[] Hr].
  exists j. destruct (appendEventToGitea server event env w); cbn in *.
  by subst.
Qed.

(** ** The guard and the limiter, one call at a time *)

Lemma window_floor_bounds t size :
  0 < size → window_floor t size ≤ t < window_floor t size + size.
Proof.
  intros Hs. unfold window_floor.
  pose proof (Z.mod_pos_bound t size Hs). pose proof (Z.div_mod t size).
  lia.
Qed.

Lemma checkIdempotency_duplicate key now w :
  live_record (DB w) key now = true →
  checkIdempotency key now w
  = (Returned false,
     {| DB := DB w; journal := journal w ++ [Sql (SelectIdempotencyKey key)] |}).
Proof.
  unfold live_record, checkIdempotency, bind, query, emit, ret; cbn.
  intros H. destruct (idempotency_keys (DB w) !! key) as [t|]; [|done].
  by rewrite H.
Qed.

Lemma checkIdempotency_admit key now w :
  live_record (DB w) key now = false →
  checkIdempotency key now w
  = (Returned true,
     {| DB := recorded (DB w) key now;
        journal := journal w
          ++ [Sql (SelectIdempotencyKey key);
              Sql (ReplaceIdempotencyKey key now);
              Sql (DeleteIdempotencyKeys (now - 3600))] |}).
Proof.
  unfold live_record, checkIdempotency, bind, query, run, emit, ret; cbn.
  intros H.
  assert (match idempotency_keys (DB w) !! key with
          | Some created_at => now - created_at <? IDEMPOTENCY_WINDOW
          | None => false
          end = false) as -> by done.
  cbn. by rewrite <- !app_assoc.
Qed.

Lemma checkIdempotency_cases key now w :
  checkIdempotency key now w
  = if live_record (DB w) key now
    then (Returned false,
          {| DB := DB w; journal := journal w ++ [Sql (SelectIdempotencyKey key)] |})
    else (Returned true,
          {| DB := recorded (DB w) key now;
             journal := journal w
               ++ [Sql (SelectIdempotencyKey key);
                   Sql (ReplaceIdempotencyKey key now);
                   Sql (DeleteIdempotencyKeys (now - 3600))] |}).
Proof.
  destruct (live_record (DB w) key now) eqn:H;
    auto using checkIdempotency_duplicate, checkIdempotency_admit.
Qed.

Lemma checkIdempotency_not_thrown key now w w' :
  checkIdempotency key now w ≠ (Thrown, w').
Proof. rewrite checkIdempotency_cases. by case_match. Qed.

(** Every invocation ends in one of the ways [outcome] lists. *)
Lemma onRequestPost_outcome request env amb w r w' :
  onRequestPost request env amb w = (r, w') →
  outcome request env amb w r w'.
Proof.
  unfold onRequestPost. intros H.
  destruct (isSameOrigin request (url_origin request)) eqn:Ho; cbn in H;
    [|unfold ret in H; simplify_eq; by constructor].
  destruct (json request) as [| |body] eqn:Hj;
    [unfold ret in H; simplify_eq; by constructor
    |unfold throw in H; simplify_eq; by constructor|].
  destruct (valid_amount (amount_or_default (body_amount_oz body)))
    as [amount|] eqn:Ha; [|unfold ret in H; simplify_eq; by econstructor].
  assert (validated request = Some (body, amount)) as Hv.
  { unfold validated. by rewrite Ho, Hj, Ha. }
  fold (now_of amb) in H. unfold bind at 1 in H.
  destruct (checkRateLimit (getClientIP request) (now_of amb) w)
    as [[[|]|] w1] eqn:Hl; cbn in H;
    [|unfold ret in H; simplify_eq; by econstructor..].
  unfold bind at 1 in H.
  destruct (checkIdempotency _ (now_of amb) w1) as [[[|]|] w2] eqn:Hg; cbn in H;
    [|unfold ret in H; simplify_eq; by econstructor
     |by apply checkIdempotency_not_thrown in Hg].
  fold (new_event request body amb amount) in H.
  unfold try_catch, bind at 1, run, bind at 1, emit in H; cbn in H.
  destruct (insert_event _ _ (DB w2)) as [d3|] eqn:Hi; cbn in H.
  - unfold bind, detached in H.
    destruct (appendEventToGitea_returns (gitea amb)
                (new_event request body amb amount) env
                {| DB := d3; journal := journal w2
                     ++ [Sql (InsertEvent (new_event request body amb amount))] |})
      as [archive Harch].
    rewrite Harch in H; cbn in H. unfold ret in H. simplify_eq.
    by eapply Created.
  - unfold bind, console, emit, ret in H; cbn in H. rewrite <- app_assoc in H.
    simplify_eq. by eapply PersistenceFailure.
Qed.

Lemma alter_succ_insert (m : gmap (string * Z) Z) k c :
  m !! k = Some c → alter Z.succ k m = <[k := c + 1]> m.
Proof.
  intros H. apply map_eq. intros k'.
  destruct (decide (k = k')) as [<-|Hne].
  - rewrite lookup_alter_eq, lookup_insert_eq, H; cbn; f_equal; lia.
  - by rewrite lookup_alter_ne, lookup_insert_ne.
Qed.

Lemma checkRateLimit_denied ip now w :
  RATE_LIMIT_MAX_REQUESTS ≤ request_count (DB w) ip now →
  checkRateLimit ip now w
  = (Returned false,
     {| DB := DB w;
        journal := journal w
          ++ [Sql (SelectRateLimit ip (window_floor now RATE_LIMIT_WINDOW))] |}).
Proof.
  unfold request_count, checkRateLimit, bind, query, emit, ret; cbn.
  intros H. apply Z.leb_le in H. by rewrite H.
Qed.

Lemma checkRateLimit_admitted ip now w :
  request_count (DB w) ip now < RATE_LIMIT_MAX_REQUESTS →
  rate_limits (DB w) !! (ip, window_floor now RATE_LIMIT_WINDOW) ≠ Some 0 →
  checkRateLimit ip now w
  = (Returned true,
     {| DB := counted (DB w) ip now;
        journal := journal w
          ++ [Sql (SelectRateLimit ip (window_floor now RATE_LIMIT_WINDOW));
              Sql (counter_write (DB w) ip now);
              Sql (DeleteRateLimits (now - 3600))] |}).
Proof.
  unfold counted, counter_write, request_count, checkRateLimit, bind, query,
    run, emit, ret; cbn.
  intros Hlt Hnz. apply Z.leb_gt in Hlt. rewrite Hlt.
  destruct (rate_limits (DB w) !! (ip, window_floor now RATE_LIMIT_WINDOW))
    as [c|] eqn:Hc; cbn.
  - assert (c ≠ 0) as Hc0 by congruence.
    apply Z.eqb_neq in Hc0. rewrite Hc0; cbn.
    rewrite (alter_succ_insert _ _ c Hc). by rewrite <- !app_assoc.
  - unfold insert_rate_limit; cbn. rewrite Hc; cbn. by rewrite <- !app_assoc.
Qed.

Lemma checkRateLimit_thrown ip now w :
  rate_limits (DB w) !! (ip, window_floor now RATE_LIMIT_WINDOW) = Some 0 →
  checkRateLimit ip now w
  = (Thrown,
     {| DB := DB w;
        journal := journal w
          ++ [Sql (SelectRateLimit ip (window_floor now RATE_LIMIT_WINDOW));
              Sql (InsertRateLimit ip (window_floor now RATE_LIMIT_WINDOW))] |}).
Proof.
  unfold checkRateLimit, bind, query, run, emit, ret; cbn.
  intros H. rewrite H; cbn. unfold insert_rate_limit; cbn. rewrite H.
  by rewrite <- !app_assoc.
Qed.

(** What a call that the limiter admitted tells about the world before. *)
Lemma checkRateLimit_true_inv ip now w w1 :
  checkRateLimit ip now w = (Returned true, w1) →
  request_count (DB w) ip now < RATE_LIMIT_MAX_REQUESTS
  ∧ w1 = {| DB := counted (DB w) ip now;
            journal := journal w
              ++ [Sql (SelectRateLimit ip (window_floor now RATE_LIMIT_WINDOW));
                  Sql (counter_write (DB w) ip now);
                  Sql (DeleteRateLimits (now - 3600))] |}.
Proof.
  intros H.
  destruct (Z.le_gt_cases RATE_LIMIT_MAX_REQUESTS (request_count (DB w) ip now))
    as [Hge|Hlt].
  { rewrite checkRateLimit_denied in H by done. congruence. }
  destruct (decide (rate_limits (DB w) !! (ip, window_floor now RATE_LIMIT_WINDOW)
                    = Some 0)) as [Hz|Hnz].
  { rewrite checkRateLimit_thrown in H by done. congruence. }
  rewrite checkRateLimit_admitted in H by done. split; [done|congruence].
Qed.

Lemma consistent_no_zero d k : consistent d → rate_limits d !! k ≠ Some 0.
Proof. intros Hc H. apply Hc in H. lia. Qed.

(** The counter the limiter has just written is the old one plus one. *)
Lemma counted_lookup d ip now :
  rate_limits (counted d ip now) !! (ip, window_floor now RATE_LIMIT_WINDOW)
  = Some (request_count d ip now + 1).
Proof.
  unfold counted; cbn. apply map_lookup_filter_Some. split.
  - apply lookup_insert_eq.
  - cbn. pose proof (window_floor_bounds now RATE_LIMIT_WINDOW).
    unfold RATE_LIMIT_WINDOW in *. lia.
Qed.

(** Counters of other keys survive unless their window ended long ago. *)
Lemma counted_lookup_ne d ip now k :
  k ≠ (ip, window_floor now RATE_LIMIT_WINDOW) →
  now - 3600 ≤ k.2 →
  rate_limits (counted d ip now) !! k = rate_limits d !! k.
Proof.
  intros Hne Hk. unfold counted; cbn.
  destruct (rate_limits d !! k) as [c|] eqn:Hc.
  - apply map_lookup_filter_Some. split; [|done].
    by rewrite lookup_insert_ne.
  - apply map_lookup_filter_None. left. by rewrite lookup_insert_ne.
Qed.

Lemma counted_consistent d ip now :
  consistent d → consistent (counted d ip now).
Proof.
  intros Hc k n Hk. unfold counted in Hk; cbn in Hk.
  apply map_lookup_filter_Some in Hk as [Hk _].
  apply lookup_insert_Some in Hk as [[_ <-]|[_ Hk]]; [|by eapply Hc].
  unfold request_count.
  destruct (rate_limits d !! (ip, window_floor now RATE_LIMIT_WINDOW)) as [c|] eqn:E;
    cbn; [apply Hc in E|]; lia.
Qed.

(** ** Rejections that touch nothing *)

Lemma isSameOrigin_false_iff request expected :
  isSameOrigin request expected = false ↔
  header_Origin request = None
  ∨ header_Origin request = Some ""
  ∨ (∃ o, header_Origin request = Some o ∧ URL_hostname o = None)
  ∨ (∃ o h, header_Origin request = Some o ∧ URL_hostname o = Some h
            ∧ URL_hostname expected = None)
  ∨ (∃ o h h', header_Origin request = Some o ∧ URL_hostname o = Some h
               ∧ URL_hostname expected = Some h' ∧ h ≠ h').
Proof.
  unfold isSameOrigin. split.
  - destruct (header_Origin request) as [[|c o]|]; [tauto| |tauto].
    destruct (URL_hostname (String c o)) as [h|] eqn:Hh;
      [|intros _; right; right; left; eauto].
    destruct (URL_hostname expected) as [h'|] eqn:He;
      [|intros _; right; right; right; left; eauto].
    intros Hne. apply String.eqb_neq in Hne.
    right; right; right; right. eauto 10.
  - intros [->|[->|[(o & -> & Ho)|[(o & h & -> & Ho & He)|(o & h & h' & -> & Ho & He & Hne)]]]];
      try done.
    + destruct o; [done|]. by rewrite Ho.
    + destruct o; [done|]. by rewrite Ho, He.
    + destruct o; [done|]. rewrite Ho, He. by apply String.eqb_neq.
Qed.

(** C5. A request whose [Origin] header is missing, does not parse as a URL,
    or names another host than the one serving the request is answered 403
    whatever its body is, and the world is left exactly as it was: no row of
    any table changes and no statement is issued. *)
Theorem foreign_origin_is_forbidden request env amb w :
  (header_Origin request = None
   ∨ (∃ o, header_Origin request = Some o ∧ URL_hostname o = None)
   ∨ (∃ o h h', header_Origin request = Some o ∧ URL_hostname o = Some h
                ∧ URL_hostname (url_origin request) = Some h' ∧ h ≠ h')) →
  onRequestPost request env amb w
  = (Returned {| status := 403; body := ErrorBody "Invalid origin" |}, w).
Proof.
  intros H.
  assert (isSameOrigin request (url_origin request) = false) as Ho.
  { apply isSameOrigin_false_iff.
    destruct H as [H|[H|H]]; [by left|by right; right; left|].
    by right; right; right; right. }
  unfold onRequestPost. by rewrite Ho.
Qed.

Lemma validated_Some request body amount :
  validated request = Some (body, amount) ↔
  isSameOrigin request (url_origin request) = true
  ∧ json request = Resolves body
  ∧ valid_amount (amount_or_default (body_amount_oz body)) = Some amount.
Proof.
  unfold validated. split.
  - repeat case_match; intros; by simplify_eq.
  - intros (-> & -> & ->). done.
Qed.

(** C2, as the code has it. For a same-origin request whose body parses to
    a value other than [null]:
    when [amount_oz] is absent or [null] the handler behaves exactly as if
    the body carried [amount_oz: 64]; when it is any other non-number, or a
    number below 0 or above 10000, the handler answers 400 and the world is
    left exactly as it was (no event, no counter, no idempotency record, no
    statement issued); and a number within [0, 10000] reaches the rate
    limiter with that amount, so the answer is not 400. *)
Theorem amount_is_defaulted_or_validated request env amb w body :
  isSameOrigin request (url_origin request) = true →
  json request = Resolves body →
  (body_amount_oz body = JUndefined ∨ body_amount_oz body = JNull →
     onRequestPost request env amb w
     = onRequestPost (with_amount request (JNumber 64)) env amb w)
  ∧ (match body_amount_oz body with
     | JUndefined | JNull => False
     | JNumber n => n < 0 ∨ 10000 < n
     | JString _ | JBoolean _ | JCompound => True
     end →
     onRequestPost request env amb w
     = (Returned {| status := 400; body := ErrorBody "Invalid amount_oz" |}, w))
  ∧ (∀ n, body_amount_oz body = JNumber n → 0 ≤ n ≤ 10000 →
     validated request = Some (body, n)
     ∧ ∀ r w', onRequestPost request env amb w = (Returned r, w') →
               status r ≠ 400).
Proof.
  intros Ho Hj. split; [|split].
  - intros Habsent.
    assert (amount_or_default (body_amount_oz body) = JNumber 64) as Hd
      by (destruct Habsent as [-> | ->]; done).
    unfold onRequestPost.
    replace (isSameOrigin (with_amount request (JNumber 64))
               (url_origin (with_amount request (JNumber 64))))
      with (isSameOrigin request (url_origin request)) by done.
    rewrite Ho; cbn. rewrite Hj, Hd; cbn. reflexivity.
  - intros Hbad. unfold onRequestPost. rewrite Ho, Hj; cbn.
    destruct (body_amount_oz body) as [| |n| | |]; try done; cbn.
    destruct Hbad as [Hlt|Hgt].
    + apply Z.ltb_lt in Hlt. by rewrite Hlt.
    + apply Z.ltb_lt in Hgt. rewrite Hgt. by rewrite orb_true_r.
  - intros n Hn [Hlo Hhi].
    assert (validated request = Some (body, n)) as Hv.
    { unfold validated. rewrite Ho, Hj, Hn; cbn.
      apply Z.ltb_ge in Hlo, Hhi. by rewrite Hlo, Hhi. }
    split; [done|]. intros r w' Hr.
    apply onRequestPost_outcome in Hr.
    apply validated_Some in Hv as (_ & _ & Ha).
    inversion Hr; subst; cbn; try done; congruence.
Qed.

(** C9. A request that carries neither [CF-Connecting-IP] nor
    [X-Forwarded-For] is attributed to the address ["unknown"].  Two such
    requests therefore hit the same counter (a call the limiter admits for
    one raises the count the other reads in that window by one) and the same
    idempotency keys (equal amounts in one dedupe window give equal keys). *)
Theorem anonymous_requests_share_an_address request1 request2 :
  header_CF_Connecting_IP request1 = None →
  header_X_Forwarded_For request1 = None →
  header_CF_Connecting_IP request2 = None →
  header_X_Forwarded_For request2 = None →
  getClientIP request1 = "unknown"
  ∧ getClientIP request2 = "unknown"
  ∧ (∀ t1 t2 w w1,
       checkRateLimit (getClientIP request1) t1 w = (Returned true, w1) →
       window_floor t1 RATE_LIMIT_WINDOW = window_floor t2 RATE_LIMIT_WINDOW →
       request_count (DB w1) (getClientIP request2) t2
       = request_count (DB w) (getClientIP request2) t2 + 1)
  ∧ (∀ amount t1 t2,
       window_floor t1 IDEMPOTENCY_WINDOW = window_floor t2 IDEMPOTENCY_WINDOW →
       generateIdempotencyKey (getClientIP request1) amount t1
       = generateIdempotencyKey (getClientIP request2) amount t2).
Proof.
  intros Hcf1 Hxf1 Hcf2 Hxf2.
  assert (getClientIP request1 = "unknown") as E1
    by (unfold getClientIP; by rewrite Hcf1, Hxf1).
  assert (getClientIP request2 = "unknown") as E2
    by (unfold getClientIP; by rewrite Hcf2, Hxf2).
  rewrite E1, E2. repeat split.
  - intros t1 t2 w w1 Hl Hw.
    apply checkRateLimit_true_inv in Hl as [_ ->]; cbn.
    unfold request_count at 1. rewrite <- Hw, counted_lookup; cbn.
    unfold request_count. by rewrite Hw.
  - intros amount t1 t2 Hw. unfold generateIdempotencyKey. by rewrite Hw.
Qed.

(** ** What a response tells about the run *)

Lemma checkIdempotency_false_inv key now w w2 :
  checkIdempotency key now w = (Returned false, w2) →
  live_record (DB w) key now = true
  ∧ w2 = {| DB := DB w; journal := journal w ++ [Sql (SelectIdempotencyKey key)] |}.
Proof.
  rewrite checkIdempotency_cases.
  destruct (live_record (DB w) key now); intros H; simplify_eq. done.
Qed.

Lemma checkIdempotency_true_inv key now w w2 :
  checkIdempotency key now w = (Returned true, w2) →
  live_record (DB w) key now = false
  ∧ w2 = {| DB := recorded (DB w) key now;
            journal := journal w
              ++ [Sql (SelectIdempotencyKey key);
                  Sql (ReplaceIdempotencyKey key now);
                  Sql (DeleteIdempotencyKeys (now - 3600))] |}.
Proof.
  rewrite checkIdempotency_cases.
  destruct (live_record (DB w) key now); intros H; simplify_eq. done.
Qed.

Lemma request_count_counted d ip now :
  request_count (counted d ip now) ip now = request_count d ip now + 1.
Proof. unfold request_count at 1. by rewrite counted_lookup. Qed.

(** C10. A request answered 409 has first been counted by the limiter: the
    counter of its (address, window) row is one higher than before, and the
    statement that writes it precedes the guard's lookup in the journal.
    The request writes nothing else: the event table and the idempotency
    records are as they were, and no record is inserted or replaced. *)
Theorem duplicate_consumes_rate_budget request env amb w r w' :
  onRequestPost request env amb w = (Returned r, w') →
  status r = 409 →
  ∃ body amount w1,
    validated request = Some (body, amount)
    ∧ checkRateLimit (getClientIP request) (now_of amb) w = (Returned true, w1)
    ∧ request_count (DB w1) (getClientIP request) (now_of amb)
      = request_count (DB w) (getClientIP request) (now_of amb) + 1
    ∧ checkIdempotency
        (generateIdempotencyKey (getClientIP request) amount (now_of amb))
        (now_of amb) w1 = (Returned false, w')
    ∧ DB w' = DB w1
    ∧ events (DB w') = events (DB w)
    ∧ idempotency_keys (DB w') = idempotency_keys (DB w)
    ∧ journal w'
      = journal w
        ++ [Sql (SelectRateLimit (getClientIP request)
                   (window_floor (now_of amb) RATE_LIMIT_WINDOW));
            Sql (counter_write (DB w) (getClientIP request) (now_of amb));
            Sql (DeleteRateLimits (now_of amb - 3600));
            Sql (SelectIdempotencyKey
                   (generateIdempotencyKey (getClientIP request) amount
                      (now_of amb)))].
Proof.
  intros Hr Hs. apply onRequestPost_outcome in Hr.
  inversion Hr as [| | | | | |body amount w1 w2 Hv Hl Hg| |]; subst; try done.
  exists body, amount, w1.
  destruct (checkRateLimit_true_inv _ _ _ _ Hl) as [_ E1].
  destruct (checkIdempotency_false_inv _ _ _ _ Hg) as [_ E2].
  split_and!; try done.
  - rewrite E1; cbn. apply request_count_counted.
  - by rewrite E2.
  - by rewrite E2, E1.
  - by rewrite E2, E1.
  - rewrite E2, E1; cbn. by rewrite <- app_assoc.
Qed.

(** ** From the stages to the response *)

Ltac unify_runs :=
  repeat match goal with
         | H1 : ?run = _, H2 : ?run = _ |- _ => rewrite H1 in H2; simplify_eq
         end.

Ltac by_outcome request env amb w :=
  let r := fresh "r" in
  let w' := fresh "w'" in
  let E := fresh "E" in
  destruct (onRequestPost request env amb w) as [r w'] eqn:E;
  apply onRequestPost_outcome in E;
  match goal with
  | Hv : validated request = Some _ |- _ =>
      pose proof (proj1 (validated_Some _ _ _) Hv) as (? & ? & ?)
  end;
  inversion E; subst; unify_runs; try congruence.

Lemma onRequestPost_rate_limited request env amb w body amount w1 :
  validated request = Some (body, amount) →
  checkRateLimit (getClientIP request) (now_of amb) w = (Returned false, w1) →
  onRequestPost request env amb w
  = (Returned (error_response 429 "Rate limit exceeded"), w1).
Proof. intros Hv Hl. by_outcome request env amb w. Qed.

Lemma onRequestPost_duplicate request env amb w body amount w1 w2 :
  validated request = Some (body, amount) →
  checkRateLimit (getClientIP request) (now_of amb) w = (Returned true, w1) →
  checkIdempotency
    (generateIdempotencyKey (getClientIP request) amount (now_of amb))
    (now_of amb) w1 = (Returned false, w2) →
  onRequestPost request env amb w
  = (Returned (error_response 409 "Duplicate request"), w2).
Proof. intros Hv Hl Hg. by_outcome request env amb w. Qed.

Lemma onRequestPost_failed request env amb w body amount w1 w2 :
  validated request = Some (body, amount) →
  checkRateLimit (getClientIP request) (now_of amb) w = (Returned true, w1) →
  checkIdempotency
    (generateIdempotencyKey (getClientIP request) amount (now_of amb))
    (now_of amb) w1 = (Returned true, w2) →
  insert_event (d1_fault amb) (new_event request body amb amount) (DB w2) = None →
  onRequestPost request env amb w
  = (Returned (error_response 500 "Internal server error"),
     {| DB := DB w2;
        journal := journal w2
          ++ [Sql (InsertEvent (new_event request body amb amount));
              Console ConsoleError "Database error:"] |}).
Proof. intros Hv Hl Hg Hi. by_outcome request env amb w. Qed.

Lemma onRequestPost_created request env amb w body amount w1 w2 d3 :
  validated request = Some (body, amount) →
  checkRateLimit (getClientIP request) (now_of amb) w = (Returned true, w1) →
  checkIdempotency
    (generateIdempotencyKey (getClientIP request) amount (now_of amb))
    (now_of amb) w1 = (Returned true, w2) →
  insert_event (d1_fault amb) (new_event request body amb amount) (DB w2) = Some d3 →
  ∃ archive,
    onRequestPost request env amb w
    = (Returned (created_response amb amount),
       {| DB := d3;
          journal := (journal w2
            ++ [Sql (InsertEvent (new_event request body amb amount))])
            ++ archive |})
    ∧ appendEventToGitea (gitea amb) (new_event request body amb amount) env
        {| DB := d3;
           journal := journal w2
             ++ [Sql (InsertEvent (new_event request body amb amount))] |}
      = (Returned tt,
         {| DB := d3;
            journal := (journal w2
              ++ [Sql (InsertEvent (new_event request body amb amount))])
              ++ archive |}).
Proof. intros Hv Hl Hg Hi. by_outcome request env amb w. eauto. Qed.

Lemma has_event_same_rows d d' i :
  events d' = events d → has_event i d' = has_event i d.
Proof. unfold has_event. by intros ->. Qed.

(** C4. When a request has passed the origin, body, amount, rate-limit and
    idempotency checks and the insert into [events] fails, the handler
    answers 500 "Internal server error"; the event table is exactly what it
    was before the request, so an id that had no row still has none; the
    request issued a single insert statement (the failure is not retried)
    and made no call to the archive.  The database is left as the two checks
    left it: the counter and the idempotency record they wrote stay. *)
Theorem failed_insert_is_an_internal_error request env amb w body amount w1 w2 :
  validated request = Some (body, amount) →
  checkRateLimit (getClientIP request) (now_of amb) w = (Returned true, w1) →
  checkIdempotency
    (generateIdempotencyKey (getClientIP request) amount (now_of amb))
    (now_of amb) w1 = (Returned true, w2) →
  insert_event (d1_fault amb) (new_event request body amb amount) (DB w2) = None →
  ∃ w' j,
    onRequestPost request env amb w
    = (Returned {| status := 500; body := ErrorBody "Internal server error" |}, w')
    ∧ events (DB w') = events (DB w)
    ∧ (has_event (random_uuid amb) (DB w) = false →
       has_event (random_uuid amb) (DB w') = false)
    ∧ DB w' = DB w2
    ∧ journal w' = journal w ++ j
    ∧ length (filter (λ e, is_event_insert e = true) j) = 1%nat
    ∧ filter (λ e, is_fetch e = true) j = [].
Proof.
  intros Hv Hl Hg Hi.
  pose proof (onRequestPost_failed _ env _ _ _ _ _ _ Hv Hl Hg Hi) as Hr.
  destruct (checkRateLimit_true_inv _ _ _ _ Hl) as [_ E1].
  destruct (checkIdempotency_true_inv _ _ _ _ Hg) as [_ E2].
  assert (events (DB w2) = events (DB w)) as Hev by (by rewrite E2, E1).
  eexists _, _. split; [exact Hr|]. cbn. split_and!.
  - done.
  - intros Hfresh. by rewrite (has_event_same_rows (DB w) (DB w2)).
  - done.
  - rewrite E2, E1; cbn. rewrite <- !app_assoc. reflexivity.
  - unfold counter_write. by case_match.
  - unfold counter_write. by case_match.
Qed.

(** ** The archive client, reply by reply *)

Lemma getFileContent_fetched server config filepath w :
  getFileContent server config filepath w
  = match fetched (http_get server (contents_url config filepath)) with
    | Some existing =>
        (Returned existing,
         after w [Fetch "GET" (contents_url config filepath) None])
    | None =>
        (Thrown,
         after w [Fetch "GET" (contents_url config filepath) None;
                  Console ConsoleError "Error fetching file from Gitea:"])
    end.
Proof.
  unfold getFileContent, fetched, after, try_catch, bind, emit, throw, ret,
    console; cbn.
  destruct (http_get server (contents_url config filepath)) as [|code data]; cbn.
  { by rewrite <- app_assoc. }
  destruct (code =? 404); cbn; [done|].
  destruct (response_ok code); cbn; [|by rewrite <- app_assoc].
  destruct data; cbn; [done|by rewrite <- app_assoc].
Qed.

Lemma putFileContent_accepted server config filepath events sha w :
  let url := contents_url config filepath in
  let '(method, payload) := write_request events sha in
  putFileContent server config filepath (JSON_stringify events) sha w
  = if accepted (http_send server method url payload)
    then (Returned tt, after w [Fetch method url (Some payload)])
    else (Thrown,
          after w [Fetch method url (Some payload);
                   Console ConsoleError "Error writing file to Gitea:"]).
Proof.
  unfold putFileContent, write_request, accepted, after, try_catch, bind, emit,
    throw, ret, console; cbn.
  destruct (http_send server _ _ _) as [|code []]; cbn.
  { by rewrite <- app_assoc. }
  destruct (response_ok code); cbn; [done|by rewrite <- app_assoc].
Qed.

Lemma parse_and_push_cases text event w :
  parse_and_push text event w
  = match JSON_parse text with
    | Some (JArray items) => (Returned (items ++ [event]), w)
    | _ => (Thrown, w)
    end.
Proof. unfold parse_and_push, ret, throw. by repeat case_match. Qed.

(** With a configuration, one run of the mirror returns after exactly the
    effects of [sync_journal]. *)
Lemma appendEventToGitea_journal server event env config w :
  getGiteaConfig env = Some config →
  appendEventToGitea server event env w
  = (Returned tt, after w (sync_journal server config event)).
Proof.
  intros Hc. unfold appendEventToGitea, sync_journal. rewrite Hc.
  fold (monthly_path event). fold (success_message event).
  set (url := contents_url config (monthly_path event)).
  unfold try_catch, bind at 1. rewrite getFileContent_fetched. fold url.
  destruct (fetched (http_get server url)) as [existing|]; cbn;
    [|unfold console, emit, after; cbn; by rewrite <- app_assoc].
  unfold bind at 1.
  set (w1 := after w [Fetch "GET" url None]).
  assert (match existing with
          | Some file =>
              if String.eqb (file_encoding file) "base64"
              then match atob (file_content file) with
                   | Some decoded => parse_and_push decoded event
                   | None => throw
                   end
              else parse_and_push (file_content file) event
          | None => ret [event]
          end w1
          = match starting_events existing with
            | Some previous => (Returned (previous ++ [event]), w1)
            | None => (Thrown, w1)
            end) as ->.
  { destruct existing as [file|]; [|done]. unfold starting_events, archived_events.
    destruct (String.eqb (file_encoding file) "base64").
    - destruct (atob (file_content file)); [|done].
      rewrite parse_and_push_cases. by repeat case_match.
    - rewrite parse_and_push_cases. by repeat case_match. }
  destruct (starting_events existing) as [previous|]; cbn;
    [|unfold console, emit, after; cbn; by rewrite <- app_assoc].
  unfold bind at 1.
  pose proof (putFileContent_accepted server config (monthly_path event)
                (previous ++ [event]) (revision existing) w1) as Hput.
  unfold write_request in *; cbn in Hput. fold url in Hput.
  replace (match existing with
           | Some file => file_sha file
           | None => None
           end) with (revision existing) by done.
  rewrite Hput. subst w1.
  destruct (accepted (http_send server _ url _)); cbn;
    unfold console, emit, after; cbn; by rewrite <- !app_assoc.
Qed.

Lemma appendEventToGitea_unconfigured server event env w :
  getGiteaConfig env = None →
  appendEventToGitea server event env w
  = (Returned tt,
     after w [Console ConsoleWarn "Gitea config not available, skipping webhook"]).
Proof. intros Hc. unfold appendEventToGitea. by rewrite Hc. Qed.

Lemma insert_event_Some fault e d d' :
  insert_event fault e d = Some d' →
  fault = false ∧ has_event (event_id e) d = false
  ∧ d' = {| events := events d ++ [e]; rate_limits := rate_limits d;
            idempotency_keys := idempotency_keys d |}.
Proof.
  unfold insert_event. destruct fault; [done|]; cbn.
  destruct (has_event (event_id e) d); [done|]. intros; by simplify_eq.
Qed.

Lemma fetched_unreachable reply :
  reply = NetworkError
  ∨ (∃ code data, reply = HttpResponse code data ∧ code ≠ 404
                  ∧ response_ok code = false) →
  fetched reply = None.
Proof.
  intros [->|(code & data & -> & Hc & Hok)]; [done|]. unfold fetched.
  apply Z.eqb_neq in Hc. by rewrite Hc, Hok.
Qed.

Lemma sync_journal_ends_with_a_message server config event :
  ∃ level message,
    last (sync_journal server config event) = Some (Console level message).
Proof.
  unfold sync_journal. repeat case_match; eauto.
Qed.

(** C7. The mirror never throws to its caller: for every event, environment
    and archive, [appendEventToGitea] returns, leaves D1 as it was, and its
    last effect is a console message.  When the archive cannot be reached or
    answers the fetch with an error, and when it rejects the write, the run
    still returns and ends with the logged failure.  A request whose insert
    succeeded is answered 201 and its event is the new last row of [events],
    whatever archive [fetch] talks to. *)
Theorem archive_failure_is_isolated request env amb w server body amount w1 w2 d3 :
  validated request = Some (body, amount) →
  checkRateLimit (getClientIP request) (now_of amb) w = (Returned true, w1) →
  checkIdempotency
    (generateIdempotencyKey (getClientIP request) amount (now_of amb))
    (now_of amb) w1 = (Returned true, w2) →
  insert_event (d1_fault amb) (new_event request body amb amount) (DB w2) = Some d3 →
  (∀ event env0 w0,
     ∃ j, appendEventToGitea server event env0 w0 = (Returned tt, after w0 j)
          ∧ ∃ level message, last j = Some (Console level message))
  ∧ (∀ event env0 config w0,
       getGiteaConfig env0 = Some config →
       let url := contents_url config (monthly_path event) in
       (http_get server url = NetworkError
        ∨ ∃ code data, http_get server url = HttpResponse code data
                       ∧ code ≠ 404 ∧ response_ok code = false) →
       appendEventToGitea server event env0 w0
       = (Returned tt,
          after w0 [Fetch "GET" url None;
                    Console ConsoleError "Error fetching file from Gitea:";
                    Console ConsoleError "Failed to append event to Gitea:"]))
  ∧ (∀ event env0 config w0 existing previous method payload,
       getGiteaConfig env0 = Some config →
       let url := contents_url config (monthly_path event) in
       fetched (http_get server url) = Some existing →
       starting_events existing = Some previous →
       write_request (previous ++ [event]) (revision existing) = (method, payload) →
       accepted (http_send server method url payload) = false →
       appendEventToGitea server event env0 w0
       = (Returned tt,
          after w0 [Fetch "GET" url None;
                    Fetch method url (Some payload);
                    Console ConsoleError "Error writing file to Gitea:";
                    Console ConsoleError "Failed to append event to Gitea:"]))
  ∧ ∃ w',
      onRequestPost request env (with_archive amb server) w
      = (Returned {| status := 201;
                     body := CreatedBody (random_uuid amb) amount (now_of amb) |},
         w')
      ∧ DB w' = d3
      ∧ events (DB w') = events (DB w) ++ [new_event request body amb amount].
Proof.
  intros Hv Hl Hg Hi. split_and!.
  - intros event env0 w0.
    destruct (getGiteaConfig env0) as [config|] eqn:Hc.
    + exists (sync_journal server config event).
      split; [by apply appendEventToGitea_journal|].
      apply sync_journal_ends_with_a_message.
    + eexists. split; [by apply appendEventToGitea_unconfigured|]. by eexists _, _.
  - intros event env0 config w0 Hc url Hdown.
    rewrite (appendEventToGitea_journal _ _ _ config) by done.
    unfold sync_journal. fold url. by rewrite (fetched_unreachable _ Hdown).
  - intros event env0 config w0 existing previous method payload Hc url Hf Hs Hw Hr.
    rewrite (appendEventToGitea_journal _ _ _ config) by done.
    unfold sync_journal. fold url. by rewrite Hf, Hs, Hw, Hr.
  - destruct (onRequestPost_created request env (with_archive amb server)
                w body amount w1 w2 d3 Hv Hl Hg Hi) as (archive & Hr & _).
    eexists. split; [exact Hr|]. cbn. split; [done|].
    apply insert_event_Some in Hi as (_ & _ & ->); cbn.
    destruct (checkRateLimit_true_inv _ _ _ _ Hl) as [_ E1].
    destruct (checkIdempotency_true_inv _ _ _ _ Hg) as [_ E2].
    by rewrite E2, E1.
Qed.

(** ** The monthly document *)

Lemma forallb_seqZ (P : Z → bool) lo len x :
  forallb P (seqZ lo len) = true → lo ≤ x < lo + len → P x = true.
Proof.
  intros H Hx. rewrite forallb_forall in H. apply H.
  apply list_elem_of_In, elem_of_seqZ. lia.
Qed.

Lemma month_two_digits month :
  1 ≤ month ≤ 12 → padStart (Number_toString month) 2 "0" = two_digits month.
Proof.
  intros H.
  apply String.eqb_eq.
  apply (forallb_seqZ
           (λ m, String.eqb (padStart (Number_toString m) 2 "0") (two_digits m))
           1 12); [by vm_compute|lia].
Qed.

Lemma year_four_digits year :
  1000 ≤ year ≤ 9999 → Number_toString year = four_digits year.
Proof.
  intros H.
  apply String.eqb_eq.
  apply (forallb_seqZ (λ y, String.eqb (Number_toString y) (four_digits y))
           1000 9000); [by vm_compute|lia].
Qed.

(** X27. With a configuration, the mirror addresses the document
    [events/<YYYY>-<MM>.json] of the year and month of the event's time
    stamp (four and two decimal digits for a four-digit year and a month
    from 1 to 12).  A 404 on the fetch is not an error: the run goes on from
    the empty sequence and, the write being accepted, sends a POST without
    revision that carries the encoded array of the event alone.  When the
    document exists and the write is accepted, the write carries the
    encoded array of the events the run parsed with the event appended at
    its end, and the revision that was fetched. *)
Theorem event_is_appended_to_its_month server event env config w :
  getGiteaConfig env = Some config →
  let year := Date_getFullYear (event_created_at event * 1000) in
  let month := Date_getMonth (event_created_at event * 1000) + 1 in
  let path := getMonthlyFilePath year month in
  let url := contents_url config path in
  (1000 ≤ year ≤ 9999 → 1 ≤ month ≤ 12 →
     path = "events/" +:+ four_digits year +:+ "-" +:+ two_digits month +:+ ".json")
  ∧ (∀ data,
       http_get server url = HttpResponse 404 data →
       let payload := {| put_content := btoa_utf8 (JSON_stringify [event]);
                         put_sha := None |} in
       accepted (http_send server "POST" url payload) = true →
       appendEventToGitea server event env w
       = (Returned tt,
          after w [Fetch "GET" url None;
                   Fetch "POST" url (Some payload);
                   Console ConsoleLog
                     ("Successfully appended event " +:+ event_id event
                        +:+ " to " +:+ path)]))
  ∧ (∀ code file previous,
       http_get server url = HttpResponse code (Some file) →
       code ≠ 404 → response_ok code = true →
       archived_events file = Some previous →
       let method := if truthy (file_sha file) then "PUT" else "POST" in
       let payload :=
         {| put_content := btoa_utf8 (JSON_stringify (previous ++ [event]));
            put_sha := or_null (file_sha file) |} in
       accepted (http_send server method url payload) = true →
       appendEventToGitea server event env w
       = (Returned tt,
          after w [Fetch "GET" url None;
                   Fetch method url (Some payload);
                   Console ConsoleLog
                     ("Successfully appended event " +:+ event_id event
                        +:+ " to " +:+ path)])).
Proof.
  intros Hc year month path url. split_and!.
  - intros Hy Hm. unfold path, getMonthlyFilePath.
    by rewrite month_two_digits, year_four_digits.
  - intros data Hget payload Hput. subst payload url path month year.
    rewrite (appendEventToGitea_journal _ _ _ config) by done.
    unfold sync_journal, success_message, monthly_path.
    rewrite Hget; cbn. by rewrite Hput.
  - intros code file previous Hget Hcode Hok Hprev method payload Hput.
    subst payload method url path month year.
    rewrite (appendEventToGitea_journal _ _ _ config) by done.
    unfold sync_journal, success_message, monthly_path.
    rewrite Hget; cbn.
    apply Z.eqb_neq in Hcode. rewrite Hcode, Hok; cbn. rewrite Hprev.
    unfold write_request; cbn. by rewrite Hput.
Qed.

(** ** Duplicates and window rollover *)

(** What a 201 tells: the request was valid, counted and recorded, and its
    event is the new last row. *)
Lemma created_inv request env amb w r w' :
  onRequestPost request env amb w = (Returned r, w') →
  status r = 201 →
  ∃ body amount,
    validated request = Some (body, amount)
    ∧ r = created_response amb amount
    ∧ request_count (DB w) (getClientIP request) (now_of amb) < RATE_LIMIT_MAX_REQUESTS
    ∧ events (DB w') = events (DB w) ++ [new_event request body amb amount]
    ∧ rate_limits (DB w')
      = rate_limits (counted (DB w) (getClientIP request) (now_of amb))
    ∧ idempotency_keys (DB w')
      = idempotency_keys
          (recorded (DB w)
             (generateIdempotencyKey (getClientIP request) amount (now_of amb))
             (now_of amb)).
Proof.
  intros Hr Hs. apply onRequestPost_outcome in Hr.
  inversion Hr as [| | | | | | | |body amount w1 w2 d3 archive Hv Hl Hg Hi Ha];
    subst; try done.
  exists body, amount.
  destruct (checkRateLimit_true_inv _ _ _ _ Hl) as [Hlt E1].
  destruct (checkIdempotency_true_inv _ _ _ _ Hg) as [_ E2].
  apply insert_event_Some in Hi as (_ & _ & ->); cbn.
  rewrite E2, E1; cbn. done.
Qed.

Lemma same_window_close t1 t2 size :
  0 < size → window_floor t1 size = window_floor t2 size → t2 - t1 < size.
Proof.
  intros Hs Hw.
  pose proof (window_floor_bounds t1 size Hs).
  pose proof (window_floor_bounds t2 size Hs). lia.
Qed.

Lemma same_window_key ip amount t1 t2 :
  window_floor t1 IDEMPOTENCY_WINDOW = window_floor t2 IDEMPOTENCY_WINDOW →
  generateIdempotencyKey ip amount t1 = generateIdempotencyKey ip amount t2.
Proof. intros Hw. unfold generateIdempotencyKey. by rewrite Hw. Qed.

Lemma recorded_lookup d key now :
  idempotency_keys (recorded d key now) !! key = Some now.
Proof.
  unfold recorded; cbn. apply map_lookup_filter_Some.
  split; [apply lookup_insert_eq|cbn; lia].
Qed.

(** A repeat of a created request (same address, same amount) in the same
    5-second window, once past the limiter, is answered 409; all it changes
    is its counter. *)
Lemma repeat_in_window_is_duplicate
    request1 request2 env amb1 amb2 w r1 w1 body1 body2 amount :
  consistent (DB w) →
  onRequestPost request1 env amb1 w = (Returned r1, w1) →
  status r1 = 201 →
  validated request1 = Some (body1, amount) →
  validated request2 = Some (body2, amount) →
  getClientIP request2 = getClientIP request1 →
  window_floor (now_of amb2) IDEMPOTENCY_WINDOW
  = window_floor (now_of amb1) IDEMPOTENCY_WINDOW →
  request_count (DB w1) (getClientIP request2) (now_of amb2)
  < RATE_LIMIT_MAX_REQUESTS →
  ∃ w2,
    onRequestPost request2 env amb2 w1
    = (Returned (error_response 409 "Duplicate request"), w2)
    ∧ DB w2 = counted (DB w1) (getClientIP request2) (now_of amb2).
Proof.
  intros Hcons Hr1 Hs1 Hv1 Hv2 Hip Hwin Hbudget.
  destruct (created_inv _ _ _ _ _ _ Hr1 Hs1)
    as (body & amount' & Hv & _ & _ & _ & Hrl & Hik).
  assert (amount' = amount) as -> by congruence.
  assert (consistent (DB w1)) as Hcons1.
  { intros k n Hk. rewrite Hrl in Hk. by eapply counted_consistent. }
  pose proof (checkRateLimit_admitted (getClientIP request2) (now_of amb2) w1
                Hbudget (consistent_no_zero _ _ Hcons1)) as Hl.
  eexists. split.
  - eapply (onRequestPost_duplicate request2 env amb2 w1 body2 amount);
      [done|exact Hl|].
    apply checkIdempotency_duplicate; cbn. unfold live_record; cbn.
    rewrite Hik, Hip, (same_window_key _ _ _ _ Hwin), recorded_lookup.
    apply Z.ltb_lt. by apply same_window_close.
  - done.
Qed.

Lemma settled_recorded d key now : settled d now → settled (recorded d key now) now.
Proof.
  intros Hs k t Hk. unfold recorded in Hk; cbn in Hk.
  apply map_lookup_filter_Some in Hk as [Hk _].
  apply lookup_insert_Some in Hk as [[_ <-]|[_ Hk]]; [lia|by eapply Hs].
Qed.

Lemma settled_not_live d key t0 now :
  settled d t0 → IDEMPOTENCY_WINDOW ≤ now - t0 → live_record d key now = false.
Proof.
  intros Hs Hh. unfold live_record.
  destruct (idempotency_keys d !! key) as [t|] eqn:Hk; [|done].
  apply Hs in Hk. apply Z.ltb_ge. lia.
Qed.

(** A valid request that finds budget, no live record, a working store and
    an unused id is answered 201; its event becomes the last row, its
    counter is raised and its key recorded. *)
Lemma request_is_created request env amb w body amount :
  validated request = Some (body, amount) →
  consistent (DB w) →
  request_count (DB w) (getClientIP request) (now_of amb) < RATE_LIMIT_MAX_REQUESTS →
  live_record (DB w)
    (generateIdempotencyKey (getClientIP request) amount (now_of amb))
    (now_of amb) = false →
  d1_fault amb = false →
  has_event (random_uuid amb) (DB w) = false →
  ∃ w',
    onRequestPost request env amb w = (Returned (created_response amb amount), w')
    ∧ events (DB w') = events (DB w) ++ [new_event request body amb amount]
    ∧ rate_limits (DB w')
      = rate_limits (counted (DB w) (getClientIP request) (now_of amb))
    ∧ idempotency_keys (DB w')
      = idempotency_keys
          (recorded (DB w)
             (generateIdempotencyKey (getClientIP request) amount (now_of amb))
             (now_of amb)).
Proof.
  intros Hv Hcons Hbudget Hlive Hfault Hfresh.
  pose proof (checkRateLimit_admitted _ _ w Hbudget (consistent_no_zero _ _ Hcons))
    as Hl.
  set (key := generateIdempotencyKey (getClientIP request) amount (now_of amb)) in *.
  match type of Hl with _ = (_, ?x) => set (w1 := x) in * end.
  pose proof (checkIdempotency_admit key (now_of amb) w1 Hlive) as Hg.
  match type of Hg with _ = (_, ?x) => set (w2 := x) in * end.
  assert (insert_event (d1_fault amb) (new_event request body amb amount) (DB w2)
          = Some {| events := events (DB w2) ++ [new_event request body amb amount];
                    rate_limits := rate_limits (DB w2);
                    idempotency_keys := idempotency_keys (DB w2) |}) as Hi.
  { subst w2 w1. unfold insert_event, has_event in *; cbn.
    by rewrite Hfault, Hfresh. }
  destruct (onRequestPost_created request env amb w body amount w1 w2 _ Hv Hl Hg Hi)
    as (archive & Hr & _).
  eexists. split; [exact Hr|]. done.
Qed.

Lemma consistent_empty : consistent empty_db.
Proof. intros k n Hk. cbn in Hk. by rewrite lookup_empty in Hk. Qed.

Lemma settled_empty now : settled empty_db now.
Proof. intros k t Hk. cbn in Hk. by rewrite lookup_empty in Hk. Qed.

Lemma consistent_same_counters d d' :
  rate_limits d' = rate_limits d → consistent d → consistent d'.
Proof. intros E Hc k n Hk. rewrite E in Hk. by eapply Hc. Qed.

Lemma settled_same_records d d' now :
  idempotency_keys d' = idempotency_keys d → settled d now → settled d' now.
Proof. intros E Hs k t Hk. rewrite E in Hk. by eapply Hs. Qed.

(** A request made at least one dedupe window after every record was
    written is not a duplicate of anything. *)
Lemma request_past_horizon_is_created request env amb w body amount t0 :
  validated request = Some (body, amount) →
  consistent (DB w) →
  settled (DB w) t0 →
  IDEMPOTENCY_WINDOW ≤ now_of amb - t0 →
  request_count (DB w) (getClientIP request) (now_of amb) < RATE_LIMIT_MAX_REQUESTS →
  d1_fault amb = false →
  has_event (random_uuid amb) (DB w) = false →
  ∃ w',
    onRequestPost request env amb w = (Returned (created_response amb amount), w')
    ∧ events (DB w') = events (DB w) ++ [new_event request body amb amount].
Proof.
  intros Hv Hcons Hset Hh Hbudget Hfault Hfresh.
  destruct (request_is_created request env amb w body amount Hv Hcons Hbudget
              (settled_not_live _ _ _ _ Hset Hh) Hfault Hfresh)
    as (w' & Hr & Hev & _).
  eauto.
Qed.

(** C6. A request created in dedupe window N and a request with the same
    address and amount in window N+1 are both admitted as non-duplicates:
    the second is answered 201 and its event is stored (the limiter leaving
    it through, the store working and the generated id being unused).  This
    holds whenever the second request lies beyond the dedupe horizon (at
    least 5 time units after the first), and also for a closer one as long
    as the digest of window N+1 differs from that of window N and is not in
    use.  In particular, with the serving origin [https://log.example]: a
    POST of [{amount_oz: 32}] from address A at t=1000 into an empty database
    is answered 201 with [created_at] 1000, its repeat at t=1002 is answered
    409, and its repeat at t=1010 is answered 201 with the new id, leaving
    two events.  Standing assumptions on the database before the first
    request: its counters are at least 1 ([consistent]) and none of its
    records is younger than that request ([settled]). *)
Theorem window_rollover_admits_both
    request1 request2 env amb1 amb2 w r1 w1 body1 body2 amount N host :
  consistent (DB w) →
  settled (DB w) (now_of amb1) →
  onRequestPost request1 env amb1 w = (Returned r1, w1) →
  status r1 = 201 →
  validated request1 = Some (body1, amount) →
  validated request2 = Some (body2, amount) →
  getClientIP request2 = getClientIP request1 →
  window_floor (now_of amb1) IDEMPOTENCY_WINDOW = N * IDEMPOTENCY_WINDOW →
  window_floor (now_of amb2) IDEMPOTENCY_WINDOW = (N + 1) * IDEMPOTENCY_WINDOW →
  (IDEMPOTENCY_WINDOW ≤ now_of amb2 - now_of amb1
   ∨ (generateIdempotencyKey (getClientIP request2) amount (now_of amb2)
      ≠ generateIdempotencyKey (getClientIP request1) amount (now_of amb1)
      ∧ idempotency_keys (DB w)
        !! generateIdempotencyKey (getClientIP request2) amount (now_of amb2)
        = None)) →
  request_count (DB w1) (getClientIP request2) (now_of amb2)
  < RATE_LIMIT_MAX_REQUESTS →
  d1_fault amb2 = false →
  has_event (random_uuid amb2) (DB w1) = false →
  URL_hostname "https://log.example" = Some host →
  (∃ w2,
     onRequestPost request2 env amb2 w1
     = (Returned {| status := 201;
                    body := CreatedBody (random_uuid amb2) amount (now_of amb2) |},
        w2)
     ∧ events (DB w2) = events (DB w1) ++ [new_event request2 body2 amb2 amount])
  ∧ (∃ wa wb wc,
       onRequestPost (post_from "A" (JNumber 32)) env (at_time 1000 "id-1") fresh_world
       = (Returned {| status := 201; body := CreatedBody "id-1" 32 1000 |}, wa)
       ∧ onRequestPost (post_from "A" (JNumber 32)) env (at_time 1002 "id-2") wa
         = (Returned {| status := 409; body := ErrorBody "Duplicate request" |}, wb)
       ∧ onRequestPost (post_from "A" (JNumber 32)) env (at_time 1010 "id-3") wb
         = (Returned {| status := 201; body := CreatedBody "id-3" 32 1010 |}, wc)
       ∧ map event_id (events (DB wc)) = ["id-1"; "id-3"]).
Proof.
  intros Hcons Hset Hr1 Hs1 Hv1 Hv2 Hip HN HN1 Hh Hbudget Hfault Hfresh Hhost.
  split.
  - destruct (created_inv _ _ _ _ _ _ Hr1 Hs1)
      as (body & amount' & Hv & _ & _ & _ & Hrl & Hik).
    assert (amount' = amount) as -> by congruence.
    assert (consistent (DB w1)) as Hcons1.
    { eapply consistent_same_counters; [exact Hrl|]. by apply counted_consistent. }
    destruct Hh as [Hh|[Hkey Hfree]].
    + apply (request_past_horizon_is_created request2 env amb2 w1 body2 amount
               (now_of amb1)); try done.
      eapply settled_same_records; [exact Hik|]. by apply settled_recorded.
    + destruct (request_is_created request2 env amb2 w1 body2 amount Hv2 Hcons1
                  Hbudget) as (w2 & Hr2 & Hev2 & _); try done; [|by eauto].
      unfold live_record. rewrite Hik.
      assert (idempotency_keys
                (recorded (DB w)
                   (generateIdempotencyKey (getClientIP request1) amount (now_of amb1))
                   (now_of amb1))
              !! generateIdempotencyKey (getClientIP request2) amount (now_of amb2)
              = None) as ->; [|done].
      unfold recorded; cbn [idempotency_keys].
      apply map_lookup_filter_None. left. by rewrite lookup_insert_ne.
  - set (request := post_from "A" (JNumber 32)).
    set (body := {| body_amount_oz := JNumber 32; body_source := Some "tap";
                    body_note := None |}).
    assert (validated request = Some (body, 32)) as Hv.
    { unfold validated, isSameOrigin; cbn. by rewrite Hhost, String.eqb_refl. }
    destruct (request_is_created request env (at_time 1000 "id-1") fresh_world
                body 32 Hv consistent_empty eq_refl eq_refl eq_refl eq_refl)
      as (wa & Hra & Heva & Hrla & Hika).
    assert (consistent (DB wa)) as Hca.
    { eapply consistent_same_counters; [exact Hrla|].
      apply counted_consistent, consistent_empty. }
    assert (request_count (DB wa) "A" 1002 = 1) as Hna.
    { unfold request_count. rewrite Hrla. by vm_compute. }
    destruct (repeat_in_window_is_duplicate request request env
                (at_time 1000 "id-1") (at_time 1002 "id-2") fresh_world _ wa
                body body 32 consistent_empty Hra eq_refl Hv Hv eq_refl eq_refl)
      as (wb & Hrb & Hdb).
    { change (request_count (DB wa) "A" 1002 < 10). lia. }
    assert (request_count (DB wb) "A" 1010 = 2) as Hnb.
    { rewrite Hdb. change (getClientIP request) with "A".
      change (now_of (at_time 1002 "id-2")) with 1002.
      unfold request_count at 1.
      change (window_floor 1010 RATE_LIMIT_WINDOW)
        with (window_floor 1002 RATE_LIMIT_WINDOW).
      rewrite counted_lookup; cbn. lia. }
    destruct (request_past_horizon_is_created request env (at_time 1010 "id-3")
                wb body 32 1000 Hv) as (wc & Hrc & Hevc).
    + rewrite Hdb. by apply counted_consistent.
    + apply (settled_same_records (DB wa)); [by rewrite Hdb|].
      eapply settled_same_records; [exact Hika|].
      apply settled_recorded, settled_empty.
    + by vm_compute.
    + change (request_count (DB wb) "A" 1010 < 10). lia.
    + reflexivity.
    + rewrite (has_event_same_rows (DB wa)) by (by rewrite Hdb).
      unfold has_event. rewrite Heva. by vm_compute.
    + exists wa, wb, wc.
      split; [exact Hra|]. split; [exact Hrb|]. split; [exact Hrc|].
      rewrite Hevc. replace (events (DB wb)) with (events (DB wa)) by (by rewrite Hdb).
      rewrite Heva. reflexivity.
Qed.

(** ** Counting requests *)

(** Every valid request is answered, and is counted unless it is refused
    for want of budget. *)
Lemma call_is_counted request env amb w body amount :
  validated request = Some (body, amount) →
  consistent (DB w) →
  ∃ r w',
    onRequestPost request env amb w = (Returned r, w')
    ∧ consistent (DB w')
    ∧ if decide (RATE_LIMIT_MAX_REQUESTS
                 ≤ request_count (DB w) (getClientIP request) (now_of amb))
      then r = error_response 429 "Rate limit exceeded" ∧ DB w' = DB w
      else status r ≠ 429
           ∧ rate_limits (DB w')
             = rate_limits (counted (DB w) (getClientIP request) (now_of amb)).
Proof.
  intros Hv Hcons. case_decide as Hc.
  { pose proof (onRequestPost_rate_limited _ env _ _ _ _ _ Hv
                  (checkRateLimit_denied _ _ _ Hc)) as Hr.
    eexists _, _. split; [exact Hr|]. split; [exact Hcons|]. done. }
  apply Z.nle_gt in Hc.
  pose proof (checkRateLimit_admitted _ _ w Hc (consistent_no_zero _ _ Hcons)) as Hl.
  pose proof (counted_consistent _ (getClientIP request) (now_of amb) Hcons) as Hcons1.
  match type of Hl with _ = (_, ?x) => set (w1 := x) in * end.
  set (key := generateIdempotencyKey (getClientIP request) amount (now_of amb)).
  destruct (live_record (DB w1) key (now_of amb)) eqn:Hlive.
  { pose proof (checkIdempotency_duplicate key (now_of amb) w1 Hlive) as Hg.
    eexists _, _.
    split; [exact (onRequestPost_duplicate _ env _ _ _ _ _ _ Hv Hl Hg)|].
    split; [exact Hcons1|]. done. }
  pose proof (checkIdempotency_admit key (now_of amb) w1 Hlive) as Hg.
  match type of Hg with _ = (_, ?x) => set (w2 := x) in * end.
  destruct (insert_event (d1_fault amb) (new_event request body amb amount) (DB w2))
    as [d3|] eqn:Hi.
  - destruct (onRequestPost_created _ env _ _ _ _ _ _ _ Hv Hl Hg Hi)
      as (archive & Hr & _).
    apply insert_event_Some in Hi as (_ & _ & ->).
    eexists _, _. split; [exact Hr|]. split; [exact Hcons1|]. done.
  - eexists _, _. split; [exact (onRequestPost_failed _ env _ _ _ _ _ _ Hv Hl Hg Hi)|].
    split; [exact Hcons1|]. done.
Qed.

Lemma serve_app calls1 calls2 env w :
  serve (calls1 ++ calls2) env w
  = let '(rs1, w1) := serve calls1 env w in
    let '(rs2, w2) := serve calls2 env w1 in
    (rs1 ++ rs2, w2).
Proof.
  revert w. induction calls1 as [|[request amb] calls1 IH]; intros w; cbn.
  - by destruct (serve calls2 env w).
  - destruct (onRequestPost request env amb w) as [r w1]. rewrite IH.
    destruct (serve calls1 env w1) as [rs1 w2].
    by destruct (serve calls2 env w2).
Qed.

Lemma consistent_count_nonneg d k : consistent d → 0 ≤ default 0 (rate_limits d !! k).
Proof.
  intros Hc. destruct (rate_limits d !! k) as [n|] eqn:Hk; cbn; [apply Hc in Hk|]; lia.
Qed.

(** One call from [ip] in the window [W]: answered, counted up to the cap,
    and no other address's counter of that window moves. *)
Lemma call_in_window ip W call env w :
  from_address_in_window ip W call →
  consistent (DB w) →
  ∃ r w',
    onRequestPost call.1 env call.2 w = (Returned r, w')
    ∧ consistent (DB w')
    ∧ (RATE_LIMIT_MAX_REQUESTS ≤ default 0 (rate_limits (DB w) !! (ip, W)) →
       r = error_response 429 "Rate limit exceeded")
    ∧ Z.min (default 0 (rate_limits (DB w) !! (ip, W)) + 1) RATE_LIMIT_MAX_REQUESTS
      ≤ default 0 (rate_limits (DB w') !! (ip, W))
    ∧ (∀ ip', ip' ≠ ip →
       rate_limits (DB w') !! (ip', W) = rate_limits (DB w) !! (ip', W)).
Proof.
  intros ([[body amount] Hv] & <- & <-) Hcons.
  destruct (call_is_counted call.1 env call.2 w body amount Hv Hcons)
    as (r & w' & Hr & Hcons' & Hcount).
  exists r, w'. split; [exact Hr|]. split; [exact Hcons'|].
  unfold request_count in Hcount.
  case_decide as Hc.
  - destruct Hcount as [-> ->]. split_and!; [done| |done].
    unfold RATE_LIMIT_MAX_REQUESTS in *. lia.
  - destruct Hcount as [Hs Hrl]. split_and!; [done| |].
    + rewrite Hrl, counted_lookup. unfold request_count; cbn.
      unfold RATE_LIMIT_MAX_REQUESTS in *. lia.
    + intros ip' Hne. rewrite Hrl. apply counted_lookup_ne; [congruence|].
      cbn. pose proof (window_floor_bounds (now_of call.2) RATE_LIMIT_WINDOW).
      unfold RATE_LIMIT_WINDOW in *. lia.
Qed.

(** A run of calls from [ip] in the window [W]. *)
Lemma calls_in_window ip W calls env w :
  Forall (from_address_in_window ip W) calls →
  consistent (DB w) →
  ∃ rs w',
    serve calls env w = (rs, w')
    ∧ consistent (DB w')
    ∧ Z.min (default 0 (rate_limits (DB w) !! (ip, W)) + Z.of_nat (length calls))
            RATE_LIMIT_MAX_REQUESTS
      ≤ default 0 (rate_limits (DB w') !! (ip, W))
    ∧ (∀ ip', ip' ≠ ip →
       rate_limits (DB w') !! (ip', W) = rate_limits (DB w) !! (ip', W)).
Proof.
  intros Hall. revert w.
  induction Hall as [|[request amb] calls Hcall Hall IH]; intros w Hcons.
  - exists [], w. split_and!; [done|done| |done].
    pose proof (consistent_count_nonneg _ (ip, W) Hcons). cbn. lia.
  - destruct (call_in_window ip W (request, amb) env w Hcall Hcons)
      as (r & w1 & Hr & Hcons1 & _ & Hcount1 & Hframe1).
    destruct (IH w1 Hcons1) as (rs & w' & Hrs & Hcons' & Hcount & Hframe).
    cbn in Hr. exists (Returned r :: rs), w'. cbn. rewrite Hr, Hrs.
    split_and!; [done|done| |].
    + unfold RATE_LIMIT_MAX_REQUESTS in *. lia.
    + intros ip' Hne. by rewrite Hframe, Hframe1.
Qed.

(** C3, as the code has it.  On each call that no other call overlaps, the
    limiter reads the counter of the current 60-unit window of the address.  At or above 10 it answers false and changes
    nothing, the counter included (it only issues the SELECT); below 10 it
    answers true and the counter is one higher, 1 when the window had no
    row.  Consequently, when requests are served one after the other and
    ten requests from one address have reached the limiter in one window,
    the eleventh is answered 429, while a request
    from another address with budget in that window is not (it is answered
    201 when it is no duplicate, the store works and its id is unused).
    Standing assumption: the counters of the database are at least 1
    ([consistent]), as the limiter creates and keeps them. *)
Theorem rate_limit_is_a_fixed_window ip other_ip W calls eleventh other env w :
  consistent (DB w) →
  length calls = 10%nat →
  Forall (from_address_in_window ip W) (calls ++ [eleventh]) →
  from_address_in_window other_ip W other →
  other_ip ≠ ip →
  default 0 (rate_limits (DB w) !! (other_ip, W)) < RATE_LIMIT_MAX_REQUESTS →
  (∀ now,
     let c := request_count (DB w) ip now in
     let window := window_floor now RATE_LIMIT_WINDOW in
     (RATE_LIMIT_MAX_REQUESTS ≤ c →
        checkRateLimit ip now w
        = (Returned false,
           {| DB := DB w;
              journal := journal w ++ [Sql (SelectRateLimit ip window)] |}))
     ∧ (c < RATE_LIMIT_MAX_REQUESTS →
        ∃ w1,
          checkRateLimit ip now w = (Returned true, w1)
          ∧ rate_limits (DB w1) !! (ip, window) = Some (c + 1)
          ∧ (rate_limits (DB w) !! (ip, window) = None →
             rate_limits (DB w1) !! (ip, window) = Some 1)))
  ∧ ∃ rs w',
      serve (calls ++ [eleventh]) env w = (rs, w')
      ∧ last rs
        = Some (Returned {| status := 429; body := ErrorBody "Rate limit exceeded" |})
      ∧ ∃ r w'',
          onRequestPost other.1 env other.2 w' = (Returned r, w'')
          ∧ status r ≠ 429
          ∧ (∀ body amount,
               validated other.1 = Some (body, amount) →
               live_record (DB w')
                 (generateIdempotencyKey other_ip amount (now_of other.2))
                 (now_of other.2) = false →
               d1_fault other.2 = false →
               has_event (random_uuid other.2) (DB w') = false →
               status r = 201).
Proof.
  intros Hcons Hlen Hall Hother Hne Hbudget. split.
  - intros now c window. split.
    + intros Hc. by apply checkRateLimit_denied.
    + intros Hc. eexists. split; [|split].
      * by apply checkRateLimit_admitted, consistent_no_zero.
      * apply counted_lookup.
      * subst c window. intros Hnone. cbn [DB]. rewrite counted_lookup.
        unfold request_count. by rewrite Hnone.
  - apply Forall_app in Hall as [Hten Hlast].
    apply Forall_inv in Hlast.
    destruct (calls_in_window ip W calls env w Hten Hcons)
      as (rs & w10 & Hrs & Hcons10 & Hcount10 & Hframe10).
    destruct (call_in_window ip W eleventh env w10 Hlast Hcons10)
      as (r11 & w11 & Hr11 & Hcons11 & Hdenied & _ & Hframe11).
    pose proof (consistent_count_nonneg _ (ip, W) Hcons) as Hnn.
    rewrite Hdenied in Hr11
      by (rewrite Hlen in Hcount10; unfold RATE_LIMIT_MAX_REQUESTS in *; lia).
    exists (rs ++ [Returned (error_response 429 "Rate limit exceeded")]), w11.
    split; [|split].
    + rewrite serve_app, Hrs; cbn. destruct eleventh as [request amb].
      cbn in Hr11. by rewrite Hr11.
    + apply last_snoc.
    + destruct Hother as ([[body amount] Hv] & Hip & HW).
      destruct (call_is_counted other.1 env other.2 w11 body amount Hv Hcons11)
        as (r & w'' & Hr & _ & Hcount).
      assert (request_count (DB w11) (getClientIP other.1) (now_of other.2)
              < RATE_LIMIT_MAX_REQUESTS) as Hroom.
      { unfold request_count. rewrite Hip, HW, Hframe11, Hframe10; done. }
      case_decide as Hc; [lia|]. destruct Hcount as [Hs _].
      exists r, w''. split; [exact Hr|]. split; [exact Hs|].
      intros body' amount' Hv' Hlive Hfault Hfresh.
      rewrite <- Hip in Hlive.
      destruct (request_is_created other.1 env other.2 w11 body' amount' Hv'
                  Hcons11 Hroom Hlive Hfault Hfresh) as (w3 & Hr3 & _).
      rewrite Hr in Hr3. by simplify_eq.
Qed.

(** ** The standing assumptions are invariants of the handler *)

Lemma checkRateLimit_preserves ip now w c w1 :
  consistent (DB w) →
  checkRateLimit ip now w = (c, w1) →
  consistent (DB w1) ∧ events (DB w1) = events (DB w)
  ∧ idempotency_keys (DB w1) = idempotency_keys (DB w).
Proof.
  intros Hcons H.
  destruct (Z.le_gt_cases RATE_LIMIT_MAX_REQUESTS (request_count (DB w) ip now))
    as [Hge|Hlt].
  - rewrite checkRateLimit_denied in H by done. by simplify_eq.
  - rewrite checkRateLimit_admitted in H by (by try apply consistent_no_zero).
    simplify_eq; cbn. split; [by apply counted_consistent|done].
Qed.

Lemma checkIdempotency_preserves key now w c w2 t :
  settled (DB w) t → t ≤ now →
  checkIdempotency key now w = (c, w2) →
  settled (DB w2) now ∧ events (DB w2) = events (DB w)
  ∧ rate_limits (DB w2) = rate_limits (DB w).
Proof.
  intros Hset Ht H. rewrite checkIdempotency_cases in H.
  assert (settled (DB w) now) as Hnow.
  { intros k t' Hk. apply Hset in Hk. lia. }
  destruct (live_record (DB w) key now); simplify_eq; cbn; [done|].
  split; [by apply settled_recorded|done].
Qed.

(** Counters stay at least 1, and with a clock that does not run backwards
    no record is younger than the latest request. *)
Lemma onRequestPost_preserves request env amb w r w' t :
  consistent (DB w) →
  settled (DB w) t → t ≤ now_of amb →
  onRequestPost request env amb w = (r, w') →
  consistent (DB w') ∧ settled (DB w') (now_of amb).
Proof.
  intros Hcons Hset Ht Hr.
  assert (settled (DB w) (now_of amb)) as Hnow.
  { intros k t' Hk. apply Hset in Hk. lia. }
  apply onRequestPost_outcome in Hr.
  inversion Hr as [| | | |body amount w1 Hv Hl|body amount w1 Hv Hl
                  |body amount w1 w2 Hv Hl Hg|body amount w1 w2 Hv Hl Hg Hi
                  |body amount w1 w2 d3 archive Hv Hl Hg Hi Ha]; subst; try done.
  - destruct (checkRateLimit_preserves _ _ _ _ _ Hcons Hl) as (H1 & _ & H2).
    split; [done|]. by eapply settled_same_records.
  - destruct (checkRateLimit_preserves _ _ _ _ _ Hcons Hl) as (H1 & _ & H2).
    split; [done|]. by eapply settled_same_records.
  - destruct (checkRateLimit_preserves _ _ _ _ _ Hcons Hl) as (H1 & _ & H2).
    destruct (checkIdempotency_preserves _ _ w1 _ _ (now_of amb)
                (settled_same_records _ _ _ H2 Hnow) (Z.le_refl _) Hg)
      as (H3 & _ & H4).
    split; [by eapply consistent_same_counters|done].
  - destruct (checkRateLimit_preserves _ _ _ _ _ Hcons Hl) as (H1 & _ & H2).
    destruct (checkIdempotency_preserves _ _ w1 _ _ (now_of amb)
                (settled_same_records _ _ _ H2 Hnow) (Z.le_refl _) Hg)
      as (H3 & _ & H4).
    cbn. split; [by eapply consistent_same_counters|done].
  - destruct (checkRateLimit_preserves _ _ _ _ _ Hcons Hl) as (H1 & _ & H2).
    destruct (checkIdempotency_preserves _ _ w1 _ _ (now_of amb)
                (settled_same_records _ _ _ H2 Hnow) (Z.le_refl _) Hg)
      as (H3 & _ & H4).
    apply insert_event_Some in Hi as (_ & _ & ->). cbn.
    split; [by eapply consistent_same_counters|done].
Qed.

(** ** Idempotence *)

(** C1, as the code has it. Two requests with the same address and amount,
    the second served directly after the first has been answered,
    whose times fall in one dedupe window (the aligned 5-unit window
    [floor(t/5)*5] that the key is derived from), the first answered 201: the
    first has stored its event, and the second stores none and leaves the
    idempotency records as they are, so exactly one event is persisted; the
    second is answered 409 "Duplicate request" whenever the limiter lets it
    through (and 429 when the address has used up its budget).  Standing
    assumption: the counters of the database are at least 1 ([consistent]). *)
Theorem repeat_within_the_window_is_rejected
    request1 request2 env amb1 amb2 w r1 w1 body1 body2 amount :
  consistent (DB w) →
  onRequestPost request1 env amb1 w = (Returned r1, w1) →
  status r1 = 201 →
  validated request1 = Some (body1, amount) →
  validated request2 = Some (body2, amount) →
  getClientIP request2 = getClientIP request1 →
  window_floor (now_of amb2) IDEMPOTENCY_WINDOW
  = window_floor (now_of amb1) IDEMPOTENCY_WINDOW →
  ∃ r2 w2,
    onRequestPost request2 env amb2 w1 = (Returned r2, w2)
    ∧ events (DB w1) = events (DB w) ++ [new_event request1 body1 amb1 amount]
    ∧ events (DB w2) = events (DB w1)
    ∧ idempotency_keys (DB w2) = idempotency_keys (DB w1)
    ∧ (request_count (DB w1) (getClientIP request2) (now_of amb2)
       < RATE_LIMIT_MAX_REQUESTS →
       r2 = {| status := 409; body := ErrorBody "Duplicate request" |})
    ∧ (RATE_LIMIT_MAX_REQUESTS
       ≤ request_count (DB w1) (getClientIP request2) (now_of amb2) →
       r2 = {| status := 429; body := ErrorBody "Rate limit exceeded" |}).
Proof.
  intros Hcons Hr1 Hs1 Hv1 Hv2 Hip Hwin.
  destruct (created_inv _ _ _ _ _ _ Hr1 Hs1)
    as (body & amount' & Hv & _ & _ & Hev1 & Hrl & _).
  assert (body = body1 ∧ amount' = amount) as [-> ->]
    by (split; congruence).
  assert (consistent (DB w1)) as Hcons1.
  { eapply consistent_same_counters; [exact Hrl|]. by apply counted_consistent. }
  destruct (Z.le_gt_cases RATE_LIMIT_MAX_REQUESTS
              (request_count (DB w1) (getClientIP request2) (now_of amb2)))
    as [Hfull|Hroom].
  - pose proof (onRequestPost_rate_limited _ env _ _ _ _ _ Hv2
                  (checkRateLimit_denied _ _ _ Hfull)) as Hr2.
    eexists _, _. split; [exact Hr2|]. split_and!; try done. lia.
  - destruct (repeat_in_window_is_duplicate _ _ env _ _ _ _ _ _ _ _
                Hcons Hr1 Hs1 Hv1 Hv2 Hip Hwin Hroom) as (w2 & Hr2 & Hd2).
    exists (error_response 409 "Duplicate request"), w2.
    split; [exact Hr2|]. rewrite Hd2. split_and!; try done. lia.
Qed.

End Properties.

(** * The properties on concrete runs

    Each statement above that has premises is applied here to a concrete
    request against [test_runtime]. *)

Lemma foreign_origin_is_forbidden_witness :
  onRequestPost (platform := test_runtime) foreign_post no_gitea
    (at_time 1000 "id-1") fresh_world
  = (Returned {| status := 403; body := ErrorBody "Invalid origin" |}, fresh_world).
Proof.
  apply (foreign_origin_is_forbidden (platform := test_runtime)).
  right; right. exists "https://evil.example", "evil.example", "log.example".
  repeat split; [vm_compute; reflexivity..|discriminate].
Defined.

(** C2, as stated, fails on [{"amount_oz": null}]: a value that is not a
    number is taken for an absent one, and the event is stored with 64. *)
Lemma null_amount_is_accepted :
  ∃ w',
    onRequestPost (platform := test_runtime) (post_from "A" JNull) no_gitea
      (at_time 1000 "id-1") fresh_world
    = (Returned {| status := 201; body := CreatedBody "id-1" 64 1000 |}, w')
    ∧ map event_amount_oz (events (DB w')) = [64].
Proof. eexists. split; vm_compute; reflexivity. Defined.

Lemma amount_is_defaulted_or_validated_witness :
  onRequestPost (platform := test_runtime) (post_from "A" (JNumber (-1))) no_gitea
    (at_time 1000 "id-1") fresh_world
  = (Returned {| status := 400; body := ErrorBody "Invalid amount_oz" |}, fresh_world).
Proof.
  refine (proj1 (proj2
    (amount_is_defaulted_or_validated (platform := test_runtime)
       (post_from "A" (JNumber (-1))) no_gitea (at_time 1000 "id-1") fresh_world
       {| body_amount_oz := JNumber (-1); body_source := Some "tap";
          body_note := None |} _ _)) _).
  - vm_compute; reflexivity.
  - reflexivity.
  - cbn. lia.
Defined.

Lemma anonymous_requests_share_an_address_witness :
  getClientIP (anonymous_post "phone") = "unknown"
  ∧ getClientIP (anonymous_post "laptop") = "unknown".
Proof.
  destruct (anonymous_requests_share_an_address
              (anonymous_post "phone") (anonymous_post "laptop")
              eq_refl eq_refl eq_refl eq_refl) as (H1 & H2 & _).
  exact (conj H1 H2).
Defined.

(** C1, as stated, fails at the boundary of two dedupe windows: the windows
    are aligned, not sliding.  The same address posts the same amount at
    t=1004 and again one second later, well within 5 time units, and both
    requests are answered 201 and stored.  The key of the record is derived
    from the window [1000, 1005) for the first and [1005, 1010) for the
    second, so the guard finds no record for the repeat. *)
Lemma adjacent_windows_are_not_deduplicated :
  ∃ wa wb,
    onRequestPost (platform := test_runtime) (post_from "A" (JNumber 32)) no_gitea
      (at_time 1004 "id-1") fresh_world
    = (Returned {| status := 201; body := CreatedBody "id-1" 32 1004 |}, wa)
    ∧ onRequestPost (platform := test_runtime) (post_from "A" (JNumber 32)) no_gitea
        (at_time 1005 "id-2") wa
      = (Returned {| status := 201; body := CreatedBody "id-2" 32 1005 |}, wb)
    ∧ 1005 - 1004 < IDEMPOTENCY_WINDOW
    ∧ generateIdempotencyKey "A" 32 1004 ≠ generateIdempotencyKey "A" 32 1005
    ∧ map event_id (events (DB wb)) = ["id-1"; "id-2"].
Proof.
  eexists _, _.
  split; [vm_compute; reflexivity|].
  split; [vm_compute; reflexivity|].
  split; [reflexivity|].
  split; [vm_compute; discriminate|].
  vm_compute; reflexivity.
Qed.

Lemma repeat_within_the_window_is_rejected_witness :
  let w1 := (onRequestPost (platform := test_runtime) (post_from "A" (JNumber 32))
               no_gitea (at_time 1000 "id-1") fresh_world).2 in
  ∃ w2,
    onRequestPost (platform := test_runtime) (post_from "A" (JNumber 32)) no_gitea
      (at_time 1002 "id-2") w1
    = (Returned {| status := 409; body := ErrorBody "Duplicate request" |}, w2)
    ∧ events (DB w1)
      = [new_event (post_from "A" (JNumber 32)) tap_body (at_time 1000 "id-1") 32]
    ∧ events (DB w2) = events (DB w1).
Proof.
  intros w1.
  destruct (repeat_within_the_window_is_rejected (platform := test_runtime)
              (post_from "A" (JNumber 32)) (post_from "A" (JNumber 32)) no_gitea
              (at_time 1000 "id-1") (at_time 1002 "id-2") fresh_world
              {| status := 201; body := CreatedBody "id-1" 32 1000 |} w1
              tap_body tap_body 32 consistent_empty)
    as (r2 & w2 & Hr2 & Hev1 & Hev2 & _ & H409 & _).
  1-6: vm_compute; reflexivity.
  rewrite H409 in Hr2 by (vm_compute; reflexivity).
  exists w2. exact (conj Hr2 (conj Hev1 Hev2)).
Defined.

Lemma failed_insert_is_an_internal_error_witness :
  ∃ w' j,
    onRequestPost (platform := test_runtime) (post_from "A" (JNumber 32)) test_gitea
      (failing_store 1000 "id-1") fresh_world
    = (Returned {| status := 500; body := ErrorBody "Internal server error" |}, w')
    ∧ events (DB w') = []
    ∧ (has_event "id-1" empty_db = false → has_event "id-1" (DB w') = false)
    ∧ DB w' = DB (checkIdempotency (generateIdempotencyKey "A" 32 1000) 1000
                    (checkRateLimit "A" 1000 fresh_world).2).2
    ∧ journal w' = [] ++ j
    ∧ length (filter (λ e, is_event_insert e = true) j) = 1%nat
    ∧ filter (λ e, is_fetch e = true) j = [].
Proof.
  refine (failed_insert_is_an_internal_error (platform := test_runtime)
            (post_from "A" (JNumber 32)) test_gitea (failing_store 1000 "id-1")
            fresh_world tap_body 32
            (checkRateLimit "A" 1000 fresh_world).2
            (checkIdempotency (generateIdempotencyKey "A" 32 1000) 1000
               (checkRateLimit "A" 1000 fresh_world).2).2 _ _ _ _);
    vm_compute; reflexivity.
Defined.

Lemma duplicate_consumes_rate_budget_witness :
  let w1 := (onRequestPost (platform := test_runtime) (post_from "A" (JNumber 32))
               no_gitea (at_time 1000 "id-1") fresh_world).2 in
  let w2 := (onRequestPost (platform := test_runtime) (post_from "A" (JNumber 32))
               no_gitea (at_time 1002 "id-2") w1).2 in
  request_count (DB w1) "A" 1002 = 1
  ∧ request_count (DB w2) "A" 1002 = 2
  ∧ events (DB w2) = events (DB w1)
  ∧ idempotency_keys (DB w2) = idempotency_keys (DB w1).
Proof.
  intros w1 w2.
  destruct (duplicate_consumes_rate_budget (platform := test_runtime)
              (post_from "A" (JNumber 32)) no_gitea (at_time 1002 "id-2") w1
              (error_response 409 "Duplicate request") w2)
    as (body & amount & w1' & _ & Hl & Hcount & _ & Hdb & Hev & Hik & _).
  - vm_compute; reflexivity.
  - reflexivity.
  - split; [vm_compute; reflexivity|]. split; [|exact (conj Hev Hik)].
    vm_compute; reflexivity.
Defined.

Lemma window_rollover_admits_both_witness :
  let w1 := (onRequestPost (platform := test_runtime) (post_from "A" (JNumber 32))
               no_gitea (at_time 1004 "id-1") fresh_world).2 in
  ∃ w2,
    onRequestPost (platform := test_runtime) (post_from "A" (JNumber 32)) no_gitea
      (at_time 1005 "id-2") w1
    = (Returned {| status := 201; body := CreatedBody "id-2" 32 1005 |}, w2)
    ∧ events (DB w2)
      = events (DB w1)
        ++ [new_event (post_from "A" (JNumber 32)) tap_body (at_time 1005 "id-2") 32].
Proof.
  intros w1.
  refine (proj1
    (window_rollover_admits_both (platform := test_runtime)
       (post_from "A" (JNumber 32)) (post_from "A" (JNumber 32)) no_gitea
       (at_time 1004 "id-1") (at_time 1005 "id-2") fresh_world
       {| status := 201; body := CreatedBody "id-1" 32 1004 |} w1
       tap_body tap_body 32 200 "log.example"
       consistent_empty (settled_empty _) _ _ _ _ _ _ _ _ _ _ _ _)).
  all: try (vm_compute; reflexivity).
  right. split; [vm_compute; discriminate|reflexivity].
Defined.

Lemma archive_failure_is_isolated_witness :
  ∃ w',
    onRequestPost (platform := test_runtime) (post_from "A" (JNumber 32)) test_gitea
      (with_archive first_post unreachable_archive) fresh_world
    = (Returned {| status := 201; body := CreatedBody "id-1" 32 1700000000 |}, w')
    ∧ events (DB w') = [first_event].
Proof.
  pose (w1 := (checkRateLimit "A" 1700000000 fresh_world).2).
  pose (w2 := (checkIdempotency (generateIdempotencyKey "A" 32 1700000000)
                 1700000000 w1).2).
  destruct (archive_failure_is_isolated (platform := test_runtime)
              (post_from "A" (JNumber 32)) test_gitea first_post fresh_world
              unreachable_archive tap_body 32 w1 w2
              {| events := [first_event]; rate_limits := rate_limits (DB w2);
                 idempotency_keys := idempotency_keys (DB w2) |})
    as (_ & _ & _ & w' & Hr & _ & Hev).
  1-4: vm_compute; reflexivity.
  exists w'. exact (conj Hr Hev).
Defined.

Lemma event_is_appended_to_its_month_witness :
  ∃ url payload,
    url = "https://git.example/api/v1/repos/me/log/contents/events/2023-11.json"
    ∧ put_content payload = btoa (utf8_encode (stringify_events [tea_event; first_event]))
    ∧ put_sha payload = Some "r1"
    ∧ appendEventToGitea (platform := js_runtime) (archive_holding [tea_event])
        first_event test_gitea fresh_world
      = (Returned tt,
         after fresh_world
           [Fetch "GET" url None;
            Fetch "PUT" url (Some payload);
            Console ConsoleLog
              "Successfully appended event id-1 to events/2023-11.json"]).
Proof.
  destruct (event_is_appended_to_its_month (platform := js_runtime)
              (archive_holding [tea_event]) first_event test_gitea
              {| config_url := "https://git.example"; config_token := "t0ken";
                 config_owner := "me"; config_repo := "log" |}
              fresh_world eq_refl) as (_ & _ & Hold).
  specialize (Hold 200
                {| file_content := btoa (utf8_encode (stringify_events [tea_event]));
                   file_encoding := "base64"; file_sha := Some "r1" |}
                [tea_event] eq_refl).
  eexists _, _. split; [|split; [|split; [|apply Hold]]].
  - vm_compute; reflexivity.
  - reflexivity.
  - reflexivity.
  - discriminate.
  - reflexivity.
  - vm_compute; reflexivity.
  - reflexivity.
Defined.

Lemma rate_limit_is_a_fixed_window_witness :
  last (serve (platform := test_runtime)
          (ten_posts ++ [(post_from "A" (JNumber 32), at_time 1001 "id-11")])
          no_gitea fresh_world).1
  = Some (Returned {| status := 429; body := ErrorBody "Rate limit exceeded" |}).
Proof.
  destruct (rate_limit_is_a_fixed_window (platform := test_runtime)
              "A" "B" 960 ten_posts
              (post_from "A" (JNumber 32), at_time 1001 "id-11")
              (post_from "B" (JNumber 32), at_time 1002 "id-b")
              no_gitea fresh_world consistent_empty eq_refl)
    as (_ & rs & w' & Hs & Hlast & _).
  - apply Forall_app. split; [apply Forall_replicate|apply Forall_singleton].
    all: split; [exists (tap_body, 32)|split]; vm_compute; reflexivity.
  - split; [exists (tap_body, 32)|split]; vm_compute; reflexivity.
  - discriminate.
  - reflexivity.
  - rewrite Hs. exact Hlast.
Defined.

(** * Further properties of the code *)

Section Coverage.
Context {platform : Runtime}.

(** ** What the handler keeps true of the event table *)

Lemma checkRateLimit_rows ip now w c w1 :
  checkRateLimit ip now w = (c, w1) →
  events (DB w1) = events (DB w)
  ∧ idempotency_keys (DB w1) = idempotency_keys (DB w).
Proof.
  intros H.
  destruct (Z.le_gt_cases RATE_LIMIT_MAX_REQUESTS (request_count (DB w) ip now))
    as [Hge|Hlt].
  { rewrite checkRateLimit_denied in H by done. by simplify_eq. }
  destruct (decide (rate_limits (DB w) !! (ip, window_floor now RATE_LIMIT_WINDOW)
                    = Some 0)) as [Hz|Hnz].
  { rewrite checkRateLimit_thrown in H by done. by simplify_eq. }
  rewrite checkRateLimit_admitted in H by done. by simplify_eq.
Qed.

Lemma checkIdempotency_rows key now w c w2 :
  checkIdempotency key now w = (c, w2) →
  events (DB w2) = events (DB w) ∧ rate_limits (DB w2) = rate_limits (DB w).
Proof.
  rewrite checkIdempotency_cases.
  destruct (live_record (DB w) key now); intros H; by simplify_eq.
Qed.

Lemma validated_in_range request body amount :
  validated request = Some (body, amount) → 0 ≤ amount ≤ 10000.
Proof.
  intros Hv. apply validated_Some in Hv as (_ & _ & Ha).
  unfold valid_amount in Ha.
  destruct (amount_or_default (body_amount_oz body)) as [| |n| | |]; try done.
  destruct (n <? 0) eqn:Hlo; [done|]. destruct (10000 <? n) eqn:Hhi; [done|].
  cbn in Ha. simplify_eq. apply Z.ltb_ge in Hlo, Hhi. lia.
Qed.

(** What each run does to the event table. *)
Lemma onRequestPost_events request env amb w r w' :
  onRequestPost request env amb w = (r, w') →
  (∃ body amount,
     validated request = Some (body, amount)
     ∧ r = Returned (created_response amb amount)
     ∧ events (DB w') = events (DB w) ++ [new_event request body amb amount]
     ∧ has_event (random_uuid amb) (DB w) = false)
  ∨ (events (DB w') = events (DB w)
     ∧ ∀ resp, r = Returned resp → status resp ≠ 201).
Proof.
  intros Hr. apply onRequestPost_outcome in Hr.
  inversion Hr as [| | | |body amount w1 Hv Hl|body amount w1 Hv Hl
                  |body amount w1 w2 Hv Hl Hg|body amount w1 w2 Hv Hl Hg Hi
                  |body amount w1 w2 d3 archive Hv Hl Hg Hi Ha]; subst.
  1-2, 4: right; split; [done|]; intros resp [= <-]; done.
  - by right.
  - right. split; [by apply checkRateLimit_rows in Hl as [-> _]|done].
  - right. split; [by apply checkRateLimit_rows in Hl as [-> _]|].
    intros resp [= <-]; done.
  - right. apply checkRateLimit_rows in Hl as [Hl _].
    apply checkIdempotency_rows in Hg as [Hg _].
    split; [by rewrite Hg, Hl|]. intros resp [= <-]; done.
  - right. apply checkRateLimit_rows in Hl as [Hl _].
    apply checkIdempotency_rows in Hg as [Hg _].
    split; [cbn; by rewrite Hg, Hl|]. intros resp [= <-]; done.
  - left. exists body, amount.
    apply checkRateLimit_rows in Hl as [Hl _].
    apply checkIdempotency_rows in Hg as [Hg _].
    apply insert_event_Some in Hi as (_ & Hfresh & ->); cbn.
    rewrite Hg, Hl. split_and!; try done.
    unfold has_event in *. cbn in Hfresh. by rewrite <- Hl, <- Hg.
Qed.

(** X1. The handler stores an event exactly when it answers 201: then the event
    table is the old one with one row appended, a water event stamped with
    the second of the request whose id, amount and time the response echoes;
    in every other case, a thrown call included, the table is what it was.
    No row is ever changed or removed. *)
Theorem events_are_appended_exactly_on_201 request env amb w r w' :
  onRequestPost request env amb w = (r, w') →
  (∃ e,
     events (DB w') = events (DB w) ++ [e]
     ∧ r = Returned {| status := 201;
                       body := CreatedBody (event_id e) (event_amount_oz e)
                                 (event_created_at e) |}
     ∧ event_type e = "water"
     ∧ event_created_at e = Date_now amb / 1000)
  ∨ (events (DB w') = events (DB w)
     ∧ ∀ resp, r = Returned resp → status resp ≠ 201).
Proof.
  intros Hr.
  destruct (onRequestPost_events _ _ _ _ _ _ Hr)
    as [(body & amount & _ & -> & Hev & _)|Hsame]; [left|by right].
  exists (new_event request body amb amount). by rewrite Hev.
Qed.

(** X3. Every row the handler writes is a water event whose amount lies in
    [0, 10000]: a table of such rows stays one. *)
Theorem stored_events_are_valid request env amb w r w' :
  Forall (λ e, event_type e = "water" ∧ 0 ≤ event_amount_oz e ≤ 10000)
         (events (DB w)) →
  onRequestPost request env amb w = (r, w') →
  Forall (λ e, event_type e = "water" ∧ 0 ≤ event_amount_oz e ≤ 10000)
         (events (DB w')).
Proof.
  intros Hall Hr.
  destruct (onRequestPost_events _ _ _ _ _ _ Hr)
    as [(body & amount & Hv & _ & -> & _)|[-> _]]; [|done].
  apply Forall_app. split; [done|]. apply Forall_singleton; cbn.
  split; [done|]. by eapply validated_in_range.
Qed.

(** ** Answers and exceptions *)

(** X5. A counter row that holds 0 is read as "no row": the limiter then tries
    to INSERT over it, D1 rejects the statement, and because the limiter
    runs outside the handler's [try] the request ends in an exception, not
    in a response; nothing is written. *)
Theorem zero_counter_makes_the_handler_throw request env amb w body amount :
  validated request = Some (body, amount) →
  rate_limits (DB w)
    !! (getClientIP request, window_floor (now_of amb) RATE_LIMIT_WINDOW)
  = Some 0 →
  onRequestPost request env amb w
  = (Thrown,
     {| DB := DB w;
        journal := journal w
          ++ [Sql (SelectRateLimit (getClientIP request)
                     (window_floor (now_of amb) RATE_LIMIT_WINDOW));
              Sql (InsertRateLimit (getClientIP request)
                     (window_floor (now_of amb) RATE_LIMIT_WINDOW))] |}).
Proof.
  intros Hv Hz.
  pose proof (checkRateLimit_thrown _ _ _ Hz) as Hl.
  pose proof (proj1 (validated_Some _ _ _) Hv) as (Ho & Hj & Ha).
  destruct (onRequestPost request env amb w) as [r w'] eqn:E.
  apply onRequestPost_outcome in E.
  inversion E; subst; congruence.
Qed.

(** ** The cap, request by request *)

(** One call from [ip] in the window [W], with the exact count. *)
Lemma call_counts_exactly ip W call env w :
  from_address_in_window ip W call →
  consistent (DB w) →
  ∃ r w',
    onRequestPost call.1 env call.2 w = (Returned r, w')
    ∧ consistent (DB w')
    ∧ (status r = 429
       ↔ RATE_LIMIT_MAX_REQUESTS ≤ default 0 (rate_limits (DB w) !! (ip, W)))
    ∧ default 0 (rate_limits (DB w') !! (ip, W))
      = (if decide (RATE_LIMIT_MAX_REQUESTS
                    ≤ default 0 (rate_limits (DB w) !! (ip, W)))
         then default 0 (rate_limits (DB w) !! (ip, W))
         else default 0 (rate_limits (DB w) !! (ip, W)) + 1)
    ∧ (∀ k, k ≠ (ip, W) → W - 3540 ≤ k.2 →
       rate_limits (DB w') !! k = rate_limits (DB w) !! k).
Proof.
  intros ([[body amount] Hv] & <- & <-) Hcons.
  destruct (call_is_counted call.1 env call.2 w body amount Hv Hcons)
    as (r & w' & Hr & Hcons' & Hcount).
  exists r, w'. split; [exact Hr|]. split; [exact Hcons'|].
  unfold request_count in Hcount.
  case_decide as Hc.
  - destruct Hcount as [-> ->]. split_and!; done.
  - destruct Hcount as [Hs Hrl]. split_and!; [done| |].
    + by rewrite Hrl, counted_lookup.
    + intros k Hne Hk. rewrite Hrl. apply counted_lookup_ne; [done|].
      pose proof (window_floor_bounds (now_of call.2) RATE_LIMIT_WINDOW).
      unfold RATE_LIMIT_WINDOW in *. lia.
Qed.

(** A run of calls from [ip] in the window [W], with the exact count. *)
Lemma calls_count_exactly ip W calls env w :
  Forall (from_address_in_window ip W) calls →
  consistent (DB w) →
  ∃ rs w',
    serve calls env w = (rs, w')
    ∧ consistent (DB w')
    ∧ (default 0 (rate_limits (DB w) !! (ip, W)) + Z.of_nat (length calls)
       ≤ RATE_LIMIT_MAX_REQUESTS →
       default 0 (rate_limits (DB w') !! (ip, W))
       = default 0 (rate_limits (DB w) !! (ip, W)) + Z.of_nat (length calls))
    ∧ (∀ k, k ≠ (ip, W) → W - 3540 ≤ k.2 →
       rate_limits (DB w') !! k = rate_limits (DB w) !! k)
    ∧ (∀ i r, rs !! i = Some r →
       ∃ resp, r = Returned resp
               ∧ (status resp = 429
                  ↔ RATE_LIMIT_MAX_REQUESTS
                    ≤ default 0 (rate_limits (DB w) !! (ip, W)) + Z.of_nat i)).
Proof.
  intros Hall. revert w.
  induction Hall as [|[request amb] calls Hcall Hall IH]; intros w Hcons.
  - exists [], w. split_and!; try done. intros _. cbn. lia.
  - destruct (call_counts_exactly ip W (request, amb) env w Hcall Hcons)
      as (r & w1 & Hr & Hcons1 & Hs1 & Hcount1 & Hframe1).
    destruct (IH w1 Hcons1) as (rs & w' & Hrs & Hcons' & Hcount & Hframe & Hresp).
    pose proof (consistent_count_nonneg _ (ip, W) Hcons) as Hnn.
    cbn in Hr. exists (Returned r :: rs), w'. cbn. rewrite Hr, Hrs.
    split_and!; [done|done| | |].
    + intros Hroom. case_decide as Hc; [unfold RATE_LIMIT_MAX_REQUESTS in *; lia|].
      rewrite Hcount, Hcount1; lia.
    + intros k Hne Hk. by rewrite Hframe, Hframe1.
    + intros [|i] r' Hi; cbn in Hi.
      * simplify_eq. exists r. split; [done|]. by rewrite Z.add_0_r.
      * destruct (Hresp i r' Hi) as (resp & -> & Hiff).
        exists resp. split; [done|]. rewrite Hiff, Hcount1.
        case_decide; unfold RATE_LIMIT_MAX_REQUESTS in *; lia.
Qed.

Lemma serve_length calls env w rs w' :
  serve calls env w = (rs, w') → length rs = length calls.
Proof.
  revert w rs w'.
  induction calls as [|[request amb] calls IH]; intros w rs w' Hrs; cbn in Hrs.
  - by simplify_eq.
  - destruct (onRequestPost request env amb w) as [r w1].
    destruct (serve calls env w1) as [rs1 w2] eqn:Hrest. simplify_eq. cbn.
    f_equal. by eapply IH.
Qed.

(** X6. The cap is exact.  Of the requests that reach the limiter from one
    address during one 60-second window, each is refused with 429 exactly
    when the counter it finds plus the number of such requests before it has
    reached 10; all the others get past the limiter. *)
Theorem requests_are_refused_exactly_past_the_cap ip W calls env w :
  consistent (DB w) →
  Forall (from_address_in_window ip W) calls →
  ∃ rs w',
    serve calls env w = (rs, w')
    ∧ length rs = length calls
    ∧ ∀ i r, rs !! i = Some r →
        ∃ resp, r = Returned resp
                ∧ (status resp = 429
                   ↔ RATE_LIMIT_MAX_REQUESTS
                     ≤ default 0 (rate_limits (DB w) !! (ip, W)) + Z.of_nat i).
Proof.
  intros Hcons Hall.
  destruct (calls_count_exactly ip W calls env w Hall Hcons)
    as (rs & w' & Hrs & _ & _ & _ & Hresp).
  exists rs, w'. split; [done|]. split; [by eapply serve_length|done].
Qed.

(** X7. Windows are counted apart: up to ten requests at the end of one window
    and up to ten more at the start of the next, all from one address, all
    get past the limiter, however close in time they are. *)
Theorem a_window_boundary_doubles_the_budget ip W before after env w :
  consistent (DB w) →
  rate_limits (DB w) !! (ip, W) = None →
  rate_limits (DB w) !! (ip, W + RATE_LIMIT_WINDOW) = None →
  Forall (from_address_in_window ip W) before →
  Forall (from_address_in_window ip (W + RATE_LIMIT_WINDOW)) after →
  (length before ≤ 10)%nat →
  (length after ≤ 10)%nat →
  ∃ rs w',
    serve (before ++ after) env w = (rs, w')
    ∧ ∀ i r, rs !! i = Some r → ∃ resp, r = Returned resp ∧ status resp ≠ 429.
Proof.
  intros Hcons Hrow1 Hrow2 Hbefore Hafter Hlen1 Hlen2.
  destruct (calls_count_exactly ip W before env w Hbefore Hcons)
    as (rs1 & w1 & Hrs1 & Hcons1 & _ & Hframe1 & Hresp1).
  destruct (calls_count_exactly ip (W + RATE_LIMIT_WINDOW) after env w1 Hafter Hcons1)
    as (rs2 & w2 & Hrs2 & _ & _ & _ & Hresp2).
  pose proof (serve_length _ _ _ _ _ Hrs1) as Hl1.
  pose proof (serve_length _ _ _ _ _ Hrs2) as Hl2.
  exists (rs1 ++ rs2), w2. split; [by rewrite serve_app, Hrs1, Hrs2|].
  intros i r Hi. apply lookup_app_Some in Hi as [Hi|[Hge Hi]].
  - destruct (Hresp1 i r Hi) as (resp & -> & Hiff). exists resp. split; [done|].
    apply lookup_lt_Some in Hi. rewrite Hiff, Hrow1; cbn.
    unfold RATE_LIMIT_MAX_REQUESTS. lia.
  - destruct (Hresp2 _ r Hi) as (resp & -> & Hiff). exists resp. split; [done|].
    apply lookup_lt_Some in Hi.
    rewrite Hiff, Hframe1, Hrow2; cbn.
    + unfold RATE_LIMIT_MAX_REQUESTS. lia.
    + unfold RATE_LIMIT_WINDOW. intros [= ?]. lia.
    + cbn. unfold RATE_LIMIT_WINDOW. lia.
Qed.

(** ** Cleaning up, and the guard called twice *)

(** X8. A call that the limiter admits at [now] also cleans up: afterwards no
    counter row belongs to a window that started more than 3600 seconds
    before [now], and every other row within that hour is untouched. *)
Theorem admitted_call_drops_old_counters ip now w w1 :
  checkRateLimit ip now w = (Returned true, w1) →
  (∀ k n, rate_limits (DB w1) !! k = Some n → now - 3600 ≤ k.2)
  ∧ (∀ k, k ≠ (ip, window_floor now RATE_LIMIT_WINDOW) → now - 3600 ≤ k.2 →
     rate_limits (DB w1) !! k = rate_limits (DB w) !! k)
  ∧ (∀ k, k.2 < now - 3600 → rate_limits (DB w1) !! k = None).
Proof.
  intros Hl. apply checkRateLimit_true_inv in Hl as [_ ->]; cbn. split_and!.
  - intros k n Hk. by apply map_lookup_filter_Some in Hk as [_ Hk].
  - intros k Hne Hk. by apply counted_lookup_ne.
  - intros k Hk. apply map_lookup_filter_None. right. intros n _; cbn. lia.
Qed.

(** X9. A call that the guard admits at [now] cleans up in the same way: no
    record older than 3600 seconds is left, and the records of other keys
    within that hour are untouched. *)
Theorem admitted_key_drops_old_records key now w w2 :
  checkIdempotency key now w = (Returned true, w2) →
  idempotency_keys (DB w2) !! key = Some now
  ∧ (∀ k t, idempotency_keys (DB w2) !! k = Some t → now - 3600 ≤ t)
  ∧ (∀ k t, k ≠ key → now - 3600 ≤ t →
     idempotency_keys (DB w) !! k = Some t →
     idempotency_keys (DB w2) !! k = Some t).
Proof.
  intros Hg. apply checkIdempotency_true_inv in Hg as [_ ->]; cbn. split_and!.
  - apply recorded_lookup.
  - intros k t Hk. by apply map_lookup_filter_Some in Hk as [_ Hk].
  - intros k t Hne Ht Hk. apply map_lookup_filter_Some. split; [|done].
    by rewrite lookup_insert_ne.
Qed.

(** X10. The guard called twice with one key.  After it has admitted the key at
    [now], a second call less than 5 seconds later (or at an earlier time,
    should the clock run backwards) is refused and changes nothing; a second
    call 5 seconds later or more is admitted again and restamps the
    record. *)
Theorem guard_refuses_until_the_record_is_stale key now later w w1 :
  checkIdempotency key now w = (Returned true, w1) →
  (later - now < IDEMPOTENCY_WINDOW →
   checkIdempotency key later w1
   = (Returned false,
      {| DB := DB w1; journal := journal w1 ++ [Sql (SelectIdempotencyKey key)] |}))
  ∧ (IDEMPOTENCY_WINDOW ≤ later - now →
     ∃ w2, checkIdempotency key later w1 = (Returned true, w2)
           ∧ idempotency_keys (DB w2) !! key = Some later).
Proof.
  intros Hg. apply checkIdempotency_true_inv in Hg as [_ Hw1].
  assert (idempotency_keys (DB w1) !! key = Some now) as Hrec
    by (rewrite Hw1; apply recorded_lookup).
  split; intros Ht.
  - apply checkIdempotency_duplicate. unfold live_record. rewrite Hrec.
    by apply Z.ltb_lt.
  - eexists. split.
    + apply checkIdempotency_admit. unfold live_record. rewrite Hrec.
      by apply Z.ltb_ge.
    + apply recorded_lookup.
Qed.

(** ** The digest *)

Lemma ToInt32_range z : - 2 ^ 31 ≤ ToInt32 z < 2 ^ 31.
Proof.
  unfold ToInt32. pose proof (Z.mod_pos_bound (z + 2 ^ 31) (2 ^ 32)). lia.
Qed.

Lemma ToInt32_add_multiple z q : ToInt32 (z + q * 2 ^ 32) = ToInt32 z.
Proof.
  unfold ToInt32. f_equal.
  replace (z + q * 2 ^ 32 + 2 ^ 31) with (z + 2 ^ 31 + q * 2 ^ 32) by lia.
  apply Z_mod_plus_full.
Qed.

Lemma ToInt32_wraps z : ∃ q, ToInt32 z = z + q * 2 ^ 32.
Proof.
  exists (- ((z + 2 ^ 31) / 2 ^ 32)). unfold ToInt32.
  pose proof (Z.div_mod (z + 2 ^ 31) (2 ^ 32)). lia.
Qed.

(** [((hash << 5) - hash) + char], masked, is [31 * hash + char] wrapped to
    32 bits. *)
Lemma hash_step_31 hash char : hash_step hash char = ToInt32 (31 * hash + char).
Proof.
  unfold hash_step. rewrite Z.land_diag, Z.shiftl_mul_pow2 by lia.
  destruct (ToInt32_wraps hash) as [q1 ->].
  destruct (ToInt32_wraps ((hash + q1 * 2 ^ 32) * 2 ^ 5)) as [q2 ->].
  replace ((hash + q1 * 2 ^ 32) * 2 ^ 5 + q2 * 2 ^ 32 - hash + char)
    with (31 * hash + char + (32 * q1 + q2) * 2 ^ 32) by lia.
  apply ToInt32_add_multiple.
Qed.

Lemma hash_loop_poly31 data h :
  hash_loop data (ToInt32 h) = ToInt32 (poly31 data h).
Proof.
  revert h. induction data as [|c rest IH]; intros h; cbn; [done|].
  rewrite hash_step_31. destruct (ToInt32_wraps h) as [q ->].
  replace (31 * (h + q * 2 ^ 32) + charCodeAt c)
    with (31 * h + charCodeAt c + 31 * q * 2 ^ 32) by lia.
  by rewrite ToInt32_add_multiple, IH.
Qed.

(** X11. The loop of shifts and masks in [generateIdempotencyKey] computes the
    polynomial hash with multiplier 31 of the string, wrapped to a signed
    32-bit integer; so the number that is printed in hexadecimal, its
    absolute value, is at most 2^31. *)
Theorem digest_is_the_wrapped_polynomial_hash data :
  hash_loop data 0 = ToInt32 (poly31 data 0)
  ∧ - 2 ^ 31 ≤ hash_loop data 0 < 2 ^ 31
  ∧ 0 ≤ Z.abs (hash_loop data 0) ≤ 2 ^ 31.
Proof.
  assert (hash_loop data 0 = ToInt32 (poly31 data 0)) as E
    by exact (hash_loop_poly31 data 0).
  split; [done|]. rewrite E. pose proof (ToInt32_range (poly31 data 0)). lia.
Qed.

Lemma string_app_cons c (s1 s2 : string) :
  String c s1 +:+ s2 = String c (s1 +:+ s2).
Proof. reflexivity. Qed.

Lemma string_app_assoc (s1 s2 s3 : string) : (s1 +:+ s2) +:+ s3 = s1 +:+ (s2 +:+ s3).
Proof.
  induction s1 as [|c s1 IH]; [done|]. by rewrite !string_app_cons, IH.
Qed.

Lemma poly31_app s1 s2 h : poly31 (s1 +:+ s2) h = poly31 s2 (poly31 s1 h).
Proof.
  revert h. induction s1 as [|c s1 IH]; intros h; [done|].
  rewrite string_app_cons. cbn. apply IH.
Qed.

Lemma colliding_keys p s amount timestamp :
  generateIdempotencyKey (p +:+ "Aa" +:+ s) amount timestamp
  = generateIdempotencyKey (p +:+ "BB" +:+ s) amount timestamp.
Proof.
  unfold generateIdempotencyKey. do 2 f_equal.
  rewrite (hash_loop_poly31 _ 0), (hash_loop_poly31 _ 0). f_equal.
  rewrite !string_app_assoc, !poly31_app.
  assert (poly31 "Aa" (poly31 p 0) = poly31 "BB" (poly31 p 0)) as ->; [|done].
  generalize (poly31 p 0). intros h.
  change (31 * (31 * h + 65) + 97 = 31 * (31 * h + 66) + 66). lia.
Qed.

(** X12. The digest is not injective in the address: two addresses that differ
    only in having [Aa] where the other has [BB] get the same idempotency
    key for every amount and time.  A request from the one, made in the
    dedupe window in which the other's request with the same amount was
    created, is therefore answered 409 and stores nothing. *)
Theorem colliding_addresses_are_deduplicated
    request1 request2 env amb1 amb2 w r1 w1 body1 body2 amount p s :
  consistent (DB w) →
  onRequestPost request1 env amb1 w = (Returned r1, w1) →
  status r1 = 201 →
  validated request1 = Some (body1, amount) →
  validated request2 = Some (body2, amount) →
  getClientIP request1 = p +:+ "Aa" +:+ s →
  getClientIP request2 = p +:+ "BB" +:+ s →
  window_floor (now_of amb2) IDEMPOTENCY_WINDOW
  = window_floor (now_of amb1) IDEMPOTENCY_WINDOW →
  request_count (DB w1) (getClientIP request2) (now_of amb2)
  < RATE_LIMIT_MAX_REQUESTS →
  getClientIP request1 ≠ getClientIP request2
  ∧ generateIdempotencyKey (getClientIP request1) amount (now_of amb1)
    = generateIdempotencyKey (getClientIP request2) amount (now_of amb2)
  ∧ ∃ w2,
      onRequestPost request2 env amb2 w1
      = (Returned {| status := 409; body := ErrorBody "Duplicate request" |}, w2)
      ∧ events (DB w2) = events (DB w1).
Proof.
  intros Hcons Hr1 Hs1 Hv1 Hv2 Hip1 Hip2 Hwin Hbudget.
  assert (generateIdempotencyKey (getClientIP request1) amount (now_of amb1)
          = generateIdempotencyKey (getClientIP request2) amount (now_of amb2))
    as Hkey.
  { rewrite Hip1, Hip2, colliding_keys. symmetry. by apply same_window_key. }
  split; [|split; [exact Hkey|]].
  { rewrite Hip1, Hip2. intros E. apply (inj (String.app p)) in E. discriminate. }
  destruct (created_inv _ _ _ _ _ _ Hr1 Hs1)
    as (body & amount' & Hv & _ & _ & _ & Hrl & Hik).
  assert (amount' = amount) as -> by congruence.
  assert (consistent (DB w1)) as Hcons1.
  { eapply consistent_same_counters; [exact Hrl|]. by apply counted_consistent. }
  pose proof (checkRateLimit_admitted (getClientIP request2) (now_of amb2) w1
                Hbudget (consistent_no_zero _ _ Hcons1)) as Hl.
  eexists. split.
  - eapply (onRequestPost_duplicate request2 env amb2 w1 body2 amount);
      [done|exact Hl|].
    apply checkIdempotency_duplicate; cbn. unfold live_record; cbn.
    rewrite Hik, <- Hkey, recorded_lookup.
    apply Z.ltb_lt. by apply same_window_close.
  - done.
Qed.

(** ** The mirror's traffic *)

Lemma getGiteaConfig_None env :
  getGiteaConfig env = None ↔
  truthy (GITEA_URL env) && truthy (GITEA_TOKEN env)
    && truthy (GITEA_OWNER env) && truthy (GITEA_REPO env) = false.
Proof.
  unfold getGiteaConfig, truthy.
  destruct (GITEA_URL env) as [[|? ?]|], (GITEA_TOKEN env) as [[|? ?]|],
    (GITEA_OWNER env) as [[|? ?]|], (GITEA_REPO env) as [[|? ?]|]; done.
Qed.

(** X13. When one of the four configuration variables is missing or is the empty
    string, the mirror does nothing but warn: it returns without contacting
    the archive. *)
Theorem mirror_is_idle_without_configuration server event env w :
  truthy (GITEA_URL env) && truthy (GITEA_TOKEN env)
    && truthy (GITEA_OWNER env) && truthy (GITEA_REPO env) = false →
  appendEventToGitea server event env w
  = (Returned tt,
     {| DB := DB w;
        journal := journal w
          ++ [Console ConsoleWarn "Gitea config not available, skipping webhook"] |}).
Proof.
  intros Hc. apply getGiteaConfig_None in Hc.
  by rewrite appendEventToGitea_unconfigured.
Qed.

(** X14. The mirror never overwrites blindly.  Whatever the archive replies, if a
    run sends a write at all, then its GET of the same document succeeded
    (or found none), the fetched document parsed as a sequence, and the
    write carries that whole sequence followed by the event, as a PUT with
    the fetched revision when there is one and as a POST otherwise. *)
Theorem every_write_extends_the_fetched_document server event env w :
  ∃ j,
    appendEventToGitea server event env w = (Returned tt, after w j)
    ∧ ∀ method url payload,
        Fetch method url (Some payload) ∈ j →
        ∃ config existing previous,
          getGiteaConfig env = Some config
          ∧ url = contents_url config (monthly_path event)
          ∧ fetched (http_get server url) = Some existing
          ∧ starting_events existing = Some previous
          ∧ put_content payload = btoa_utf8 (JSON_stringify (previous ++ [event]))
          ∧ put_sha payload = or_null (revision existing)
          ∧ method = (if truthy (revision existing) then "PUT" else "POST").
Proof.
  destruct (getGiteaConfig env) as [config|] eqn:Hc.
  2: { eexists. split; [by apply appendEventToGitea_unconfigured|].
       intros method url payload Hin. by apply list_elem_of_singleton in Hin. }
  exists (sync_journal server config event).
  split; [by apply appendEventToGitea_journal|].
  intros method url payload Hin. unfold sync_journal in Hin.
  destruct (fetched (http_get server (contents_url config (monthly_path event))))
    as [existing|] eqn:Hf.
  2: { repeat (apply elem_of_cons in Hin as [Hin|Hin]; [done|]).
       by apply elem_of_nil in Hin. }
  destruct (starting_events existing) as [previous|] eqn:Hs.
  2: { repeat (apply elem_of_cons in Hin as [Hin|Hin]; [done|]).
       by apply elem_of_nil in Hin. }
  unfold write_request in Hin.
  assert (Fetch method url (Some payload)
          = Fetch (if truthy (revision existing) then "PUT" else "POST")
              (contents_url config (monthly_path event))
              (Some {| put_content := btoa_utf8 (JSON_stringify (previous ++ [event]));
                       put_sha := or_null (revision existing) |})) as E.
  { destruct (accepted _);
      apply elem_of_cons in Hin as [Hin|Hin]; [done| |done|];
      apply elem_of_cons in Hin as [Hin|Hin]; [done| |done|];
      repeat (apply elem_of_cons in Hin as [Hin|Hin]; [done|]);
      by apply elem_of_nil in Hin. }
  simplify_eq. exists config, existing, previous. by rewrite Hf.
Qed.

(** X15. The mirror reads once and writes at most once: the requests of a run
    are none at all, or one GET, or one GET followed by one write to the
    same URL.  A failed request is never sent again. *)
Theorem mirror_sends_at_most_one_read_and_one_write server event env w :
  ∃ j,
    appendEventToGitea server event env w = (Returned tt, after w j)
    ∧ (filter (λ e, is_fetch e = true) j = []
       ∨ (∃ url, filter (λ e, is_fetch e = true) j = [Fetch "GET" url None])
       ∨ (∃ url method payload,
            filter (λ e, is_fetch e = true) j
            = [Fetch "GET" url None; Fetch method url (Some payload)])).
Proof.
  destruct (getGiteaConfig env) as [config|] eqn:Hc.
  2: { eexists. split; [by apply appendEventToGitea_unconfigured|]. by left. }
  exists (sync_journal server config event).
  split; [by apply appendEventToGitea_journal|].
  unfold sync_journal.
  destruct (fetched _) as [existing|]; [|right; left; by eexists].
  destruct (starting_events existing) as [previous|]; [|right; left; by eexists].
  destruct (write_request _ _) as [method payload].
  destruct (accepted _); right; right; by eexists _, _, _.
Qed.

(** ** One document per month *)

Lemma digit_inj d1 d2 : 0 ≤ d1 ≤ 9 → 0 ≤ d2 ≤ 9 → digit d1 = digit d2 → d1 = d2.
Proof.
  intros H1 H2 E. apply (f_equal nat_of_ascii) in E. unfold digit in E.
  rewrite !nat_ascii_embedding in E by lia. lia.
Qed.

Lemma two_digits_inj n1 n2 :
  0 ≤ n1 ≤ 99 → 0 ≤ n2 ≤ 99 → two_digits n1 = two_digits n2 → n1 = n2.
Proof.
  intros H1 H2 E. unfold two_digits in E. injection E as Ea Eb.
  apply digit_inj in Ea; [|by Z.to_euclidean_division_equations; lia..].
  apply digit_inj in Eb; [|by Z.to_euclidean_division_equations; lia..].
  Z.to_euclidean_division_equations; lia.
Qed.

Lemma four_digits_inj n1 n2 :
  0 ≤ n1 ≤ 9999 → 0 ≤ n2 ≤ 9999 → four_digits n1 = four_digits n2 → n1 = n2.
Proof.
  intros H1 H2 E. unfold four_digits in E. injection E as Ea Eb Ec Ed.
  assert (n1 `mod` 100 = n2 `mod` 100) as Em.
  { apply two_digits_inj; [by Z.to_euclidean_division_equations; lia..|].
    unfold two_digits. congruence. }
  apply digit_inj in Ea; [|by Z.to_euclidean_division_equations; lia..].
  apply digit_inj in Eb; [|by Z.to_euclidean_division_equations; lia..].
  Z.to_euclidean_division_equations; lia.
Qed.

(** X16. Different months never share a document: for four-digit years and
    months 1 to 12, equal paths mean equal year and month. *)
Theorem monthly_paths_are_distinct year1 month1 year2 month2 :
  1000 ≤ year1 ≤ 9999 → 1000 ≤ year2 ≤ 9999 →
  1 ≤ month1 ≤ 12 → 1 ≤ month2 ≤ 12 →
  getMonthlyFilePath year1 month1 = getMonthlyFilePath year2 month2 →
  year1 = year2 ∧ month1 = month2.
Proof.
  intros Hy1 Hy2 Hm1 Hm2 E. unfold getMonthlyFilePath in E.
  rewrite !month_two_digits, !year_four_digits in E by done.
  apply (inj (String.app "events/")) in E.
  cbv beta iota fix delta [String.append two_digits four_digits] in E.
  injection E as Ea Eb Ec Ed Ee Ef.
  split.
  - apply four_digits_inj; [lia..|]. unfold four_digits, two_digits. congruence.
  - apply two_digits_inj; [lia..|]. unfold two_digits. congruence.
Qed.

(** ** The event id *)

Lemma draw_in_range q : (0 <= q < 1)%Q → 0 ≤ Qfloor (q * 16) < 16.
Proof.
  intros [H0 H1]. split.
  - change 0 with (Qfloor 0). apply Qfloor_resp_le.
    by apply Qmult_le_0_compat.
  - destruct (Z.lt_ge_cases (Qfloor (q * 16)) 16) as [H|H]; [done|].
    exfalso. pose proof (Qfloor_le (q * 16)) as Hf.
    assert (16 <= q * 16)%Q as H16.
    { rewrite Zle_Qle in H. eapply Qle_trans; [exact H|exact Hf]. }
    assert (q * 16 < 1 * 16)%Q as Hlt by by apply Qmult_lt_compat_r.
    by apply (Qlt_not_le _ _ Hlt).
Qed.

Lemma sixteen_values r :
  0 ≤ r < 16 →
  r ∈ [0; 1; 2; 3; 4; 5; 6; 7; 8; 9; 10; 11; 12; 13; 14; 15].
Proof.
  intros H. rewrite !elem_of_cons. lia.
Qed.

Lemma uuid_digit_replaced c q :
  c = "x"%char ∨ c = "y"%char → (0 <= q < 1)%Q →
  ∃ c', uuid_digit c q = String c' "" ∧ replaced_by c c' = true.
Proof.
  intros Hc Hq. apply draw_in_range in Hq. unfold uuid_digit.
  assert (ToInt32 (Qfloor (q * 16)) = Qfloor (q * 16)) as ->.
  { unfold ToInt32. rewrite Z.mod_small; lia. }
  apply sixteen_values in Hq. revert Hq. generalize (Qfloor (q * 16)) as r.
  intros r Hr.
  destruct Hc as [-> | ->];
    repeat (apply elem_of_cons in Hr as [->|Hr]; [by eexists|]);
    by apply elem_of_nil in Hr.
Qed.

Lemma list_ascii_of_string_app s t :
  list_ascii_of_string (s +:+ t) = list_ascii_of_string s ++ list_ascii_of_string t.
Proof. induction s as [|c s IH]; [done|]. rewrite string_app_cons. cbn. by rewrite IH. Qed.

Lemma replace_xy_replaced template random i :
  (∀ i, (0 <= random i < 1)%Q) →
  Forall2 (λ c c', replaced_by c c' = true)
    (list_ascii_of_string template)
    (list_ascii_of_string (replace_xy template random i)).
Proof.
  intros Hr. revert i. induction template as [|c rest IH]; intros i; cbn.
  { constructor. }
  case_decide as Hc.
  - destruct (uuid_digit_replaced c (random i) Hc (Hr i)) as (c' & -> & Hc').
    rewrite list_ascii_of_string_app. cbn. by constructor.
  - cbn. constructor; [|done]. unfold replaced_by.
    rewrite !decide_False by tauto. by apply bool_decide_eq_true.
Qed.

(** When the draws lie in [[0, 1)], as [Math.random] promises, the id is a
    well-formed version 4 UUID, whatever the draws are. *)
Lemma replaced_by_x c' : replaced_by "x" c' = true → is_hex c' = true.
Proof. done. Qed.

Lemma replaced_by_y c' :
  replaced_by "y" c' = true → bool_decide (c' ∈ list_ascii_of_string "89ab") = true.
Proof. done. Qed.

Lemma replaced_by_other c c' :
  c ≠ "x"%char → c ≠ "y"%char → replaced_by c c' = true → c' = c.
Proof.
  intros Hx Hy. unfold replaced_by. rewrite !decide_False by done.
  apply bool_decide_eq_true.
Qed.

Lemma string_length_list s : String.length s = length (list_ascii_of_string s).
Proof. induction s as [|c s IH]; [done|]. cbn. by rewrite IH. Qed.

(** X17. When the draws lie in [[0, 1)], as [Math.random] promises, the id is a
    well-formed version 4 UUID, whatever the draws are. *)
Theorem generated_id_is_a_version_4_uuid random :
  (∀ i, (0 <= random i < 1)%Q) →
  is_uuid_v4 (generateUUID random) = true.
Proof.
  intros Hr.
  pose proof (replace_xy_replaced "xxxxxxxx-xxxx-4xxx-yxxx-xxxxxxxxxxxx" random 0 Hr)
    as H.
  unfold is_uuid_v4, generateUUID. rewrite string_length_list.
  revert H.
  generalize (list_ascii_of_string
                (replace_xy "xxxxxxxx-xxxx-4xxx-yxxx-xxxxxxxxxxxx" random 0)) as l.
  intros l H. cbn [list_ascii_of_string] in H.
  repeat (apply Forall2_cons_inv_l in H as (? & ? & ? & H & ->)).
  apply Forall2_nil_inv_l in H as ->.
  repeat match goal with
         | H : replaced_by "x" _ = true |- _ => apply replaced_by_x in H
         | H : replaced_by "y" _ = true |- _ => apply replaced_by_y in H
         | H : replaced_by _ _ = true |- _ =>
             apply replaced_by_other in H; [subst|done..]
         end.
  cbn [imap forallb length fst snd].
  rewrite bool_decide_true by done.
  repeat (apply andb_true_intro; split); try done.
Qed.

(** ** The form and the handler *)

(** X18. Whatever the fields hold, a body the form posts carries a number that
    is not negative, so the handler never falls back on its default for it
    and refuses it only when it exceeds 10000; its [source] and [note] are
    [null] or non-empty, so the handler's [|| null] leaves them as sent.
    The amount field is taken to hold at most fifteen characters, the range
    in which [parseInt] returns the integer it read exactly. *)
Theorem form_posts_are_refused_only_above_the_maximum form body :
  (String.length (amount_value form) ≤ 15)%nat →
  submit form = Some body →
  ∃ n, parseInt (amount_value form) = Some n
       ∧ 0 ≤ n
       ∧ body_amount_oz body = JNumber n
       ∧ valid_amount (amount_or_default (body_amount_oz body))
         = (if decide (n ≤ 10000) then Some n else None)
       ∧ body_source body ≠ Some ""
       ∧ body_note body ≠ Some ""
       ∧ or_null (body_source body) = body_source body
       ∧ or_null (body_note body) = body_note body.
Proof.
  intros _ H. unfold submit in H.
  destruct (parseInt (amount_value form)) as [n|] eqn:Hp; [|done].
  destruct (n <? 0) eqn:Hn; [done|]. apply Z.ltb_ge in Hn.
  injection H as <-. exists n. cbn.
  split_and!; try done.
  - rewrite (proj2 (Z.ltb_ge n 0)) by done. cbn.
    case_decide; [rewrite (proj2 (Z.ltb_ge 10000 n)) by lia
                 |rewrite (proj2 (Z.ltb_lt 10000 n)) by lia]; done.
  - by destruct (trim (source_value form)).
  - by destruct (trim (note_value form)).
  - by destruct (trim (source_value form)).
  - by destruct (trim (note_value form)).
Qed.

(** ** Behind Cloudflare *)

(** X19. When [CF-Connecting-IP] is present and not empty, [X-Forwarded-For] has
    no influence at all: the handler answers, writes and logs the same
    whatever that header holds. *)
Theorem forwarded_header_is_ignored_behind_cloudflare request forwarded env amb w :
  truthy (header_CF_Connecting_IP request) = true →
  onRequestPost (with_forwarded request forwarded) env amb w
  = onRequestPost request env amb w.
Proof.
  intros Hcf.
  assert (getClientIP (with_forwarded request forwarded) = getClientIP request) as Hip.
  { unfold getClientIP, with_forwarded. cbn.
    by destruct (header_CF_Connecting_IP request) as [[|? ?]|]. }
  unfold onRequestPost. rewrite Hip. reflexivity.
Qed.

(** ** One event per dedupe window *)

Lemma stamped_is_live d key W now :
  stamped_in d key W → window_floor now IDEMPOTENCY_WINDOW = W →
  live_record d key now = true.
Proof.
  intros (t & Ht & HW) Hnow. unfold live_record. rewrite Ht.
  apply Z.ltb_lt. apply same_window_close; [done|congruence].
Qed.

Lemma call_in_dedupe_window ip amount W key call env w r w' :
  in_dedupe_window ip amount W call →
  generateIdempotencyKey ip amount (now_of call.2) = key →
  onRequestPost call.1 env call.2 w = (r, w') →
  (events (DB w') = events (DB w)
   ∧ (stamped_in (DB w) key W → stamped_in (DB w') key W))
  ∨ (∃ e, events (DB w') = events (DB w) ++ [e])
    ∧ ¬ stamped_in (DB w) key W
    ∧ stamped_in (DB w') key W.
Proof.
  intros ([body Hv] & Hip & HW) Hkey Hrun.
  pose proof (proj1 (validated_Some _ _ _) Hv) as (Ho & Hj & Ha).
  apply onRequestPost_outcome in Hrun.
  inversion Hrun as
    [ Ho' | Ho' Hj' | Ho' Hj' | b Ho' Hj' Ha'
    | b a w1 Hv' Hrl | b a w1 Hv' Hrl
    | b a w1 w2 Hv' Hrl Hid
    | b a w1 w2 Hv' Hrl Hid Hins
    | b a w1 w2 d3 archive Hv' Hrl Hid Hins Harch ]; subst r w'.
  - congruence.
  - congruence.
  - congruence.
  - congruence.
  - left. apply checkRateLimit_rows in Hrl as [He Hi].
    split; [done|]. unfold stamped_in. by rewrite Hi.
  - left. apply checkRateLimit_rows in Hrl as [He Hi].
    split; [done|]. unfold stamped_in. by rewrite Hi.
  - left. apply checkRateLimit_rows in Hrl as [He Hi].
    apply checkIdempotency_false_inv in Hid as [_ ->]. cbn.
    split; [done|]. unfold stamped_in. by rewrite Hi.
  - left. assert (a = amount) as -> by congruence.
    apply checkRateLimit_rows in Hrl as [He Hi].
    rewrite Hip, Hkey in Hid.
    apply checkIdempotency_true_inv in Hid as [_ ->]. cbn.
    split; [done|]. intros _. exists (now_of call.2).
    split; [apply recorded_lookup|done].
  - right. assert (a = amount) as -> by congruence.
    apply checkRateLimit_rows in Hrl as [He Hi].
    rewrite Hip, Hkey in Hid.
    apply checkIdempotency_true_inv in Hid as [Hlive ->]. cbn in *.
    apply insert_event_Some in Hins as (_ & _ & ->). cbn.
    split_and!.
    + eexists. by rewrite He.
    + intros Hs. unfold stamped_in in Hs. rewrite <- Hi in Hs.
      apply (stamped_is_live _ _ _ (now_of call.2)) in Hs; [|done].
      congruence.
    + exists (now_of call.2). split; [apply recorded_lookup|done].
Qed.

Lemma calls_in_dedupe_window ip amount W key calls env w rs w' :
  (∀ t, window_floor t IDEMPOTENCY_WINDOW = W →
        generateIdempotencyKey ip amount t = key) →
  Forall (in_dedupe_window ip amount W) calls →
  serve calls env w = (rs, w') →
  (stamped_in (DB w) key W → events (DB w') = events (DB w))
  ∧ (events (DB w') = events (DB w)
     ∨ ∃ e, events (DB w') = events (DB w) ++ [e]).
Proof.
  intros Hkey Hcalls. revert w rs w'.
  induction Hcalls as [|call calls Hcall Hcalls IH]; intros w rs w' Hrun.
  { cbn in Hrun. injection Hrun as <- <-. by split; [|left]. }
  destruct call as [request amb]. cbn [serve] in Hrun.
  destruct (onRequestPost request env amb w) as [r w1] eqn:H1.
  destruct (serve calls env w1) as [rs' w2] eqn:H2.
  injection Hrun as <- <-.
  apply IH in H2 as [IHs IHe].
  eapply (call_in_dedupe_window ip amount W key (request, amb)) in H1;
    [|done|apply Hkey; apply Hcall].
  destruct H1 as [[He Hs]|([e He] & Hn & Hs)].
  - rewrite <- He. split; [tauto|done].
  - split; [done|]. right. exists e. rewrite <- He. by apply IHs.
Qed.

(** X20. Any number of requests from one address with one amount, made while the
    clock is in one 5-second window, store at most one event between them,
    whatever the database held before, whatever their order, and whichever
    of them are refused by the limiter or fail in the store. *)
Theorem one_event_per_dedupe_window ip amount W calls env w rs w' :
  Forall (in_dedupe_window ip amount W) calls →
  serve calls env w = (rs, w') →
  events (DB w') = events (DB w)
  ∨ ∃ e, events (DB w') = events (DB w) ++ [e].
Proof.
  intros Hcalls Hrun.
  destruct calls as [|call calls].
  { cbn in Hrun. injection Hrun as <- <-. by left. }
  pose proof (Forall_inv Hcalls) as (_ & _ & HW).
  eapply (calls_in_dedupe_window ip amount W
            (generateIdempotencyKey ip amount (now_of call.2))) in Hrun;
    [apply Hrun| |done].
  intros t Ht. apply same_window_key. congruence.
Qed.

(** ** What the limiter bounds *)

Lemma calls_store_within_budget ip W calls env w rs w' :
  consistent (DB w) →
  Forall (from_address_in_window ip W) calls →
  serve calls env w = (rs, w') →
  ∃ new,
    events (DB w') = events (DB w) ++ new
    ∧ Z.of_nat (length new)
      ≤ Z.max 0 (RATE_LIMIT_MAX_REQUESTS
                 - default 0 (rate_limits (DB w) !! (ip, W))).
Proof.
  intros Hc Hcalls. revert w rs w' Hc.
  induction Hcalls as [|call calls Hcall Hcalls IH]; intros w rs w' Hc Hrun.
  { cbn in Hrun. injection Hrun as <- <-. exists []. rewrite app_nil_r.
    split; [done|]. cbn. lia. }
  destruct call as [request amb]. cbn [serve] in Hrun.
  destruct (call_counts_exactly ip W (request, amb) env w Hcall Hc)
    as (r & w1 & H1 & Hc1 & H429 & Hcount & _).
  cbn [fst snd] in H1. rewrite H1 in Hrun.
  destruct (serve calls env w1) as [rs' w2] eqn:H2.
  injection Hrun as <- <-.
  destruct (IH _ _ _ Hc1 H2) as (new & Hnew & Hlen).
  rewrite Hcount in Hlen.
  destruct (onRequestPost_events _ _ _ _ _ _ H1)
    as [(body & amount & _ & Hr & He & _)|[He _]].
  - exists (new_event request body amb amount :: new).
    rewrite Hnew, He, <- app_assoc. split; [done|].
    injection Hr as ->.
    case_decide as Hfull; [apply H429 in Hfull; done|].
    cbn [length]. lia.
  - exists new. rewrite Hnew, He. split; [done|].
    case_decide; lia.
Qed.

(** X21. The limiter bounds what is stored: of any number of requests from one
    address during one 60-second window, served one after the other, at
    most ten lead to an event, and
    fewer when the window's counter has already been used; the events
    stored before stay in front, unchanged. *)
Theorem at_most_ten_events_per_window ip W calls env w rs w' :
  consistent (DB w) →
  Forall (from_address_in_window ip W) calls →
  serve calls env w = (rs, w') →
  ∃ new,
    events (DB w') = events (DB w) ++ new
    ∧ (length new ≤ 10)%nat
    ∧ Z.of_nat (length new)
      ≤ Z.max 0 (RATE_LIMIT_MAX_REQUESTS
                 - default 0 (rate_limits (DB w) !! (ip, W))).
Proof.
  intros Hc Hcalls Hrun.
  destruct (calls_store_within_budget _ _ _ _ _ _ _ Hc Hcalls Hrun)
    as (new & Hnew & Hlen).
  exists new. split_and!; [done| |done].
  pose proof (consistent_count_nonneg (DB w) (ip, W) Hc) as Hn.
  unfold RATE_LIMIT_MAX_REQUESTS in Hlen. lia.
Qed.

(** ** A failed insert and the retry *)

Lemma stamped_call_is_a_duplicate request env amb w body amount :
  validated request = Some (body, amount) →
  consistent (DB w) →
  request_count (DB w) (getClientIP request) (now_of amb) < RATE_LIMIT_MAX_REQUESTS →
  stamped_in (DB w)
    (generateIdempotencyKey (getClientIP request) amount (now_of amb))
    (window_floor (now_of amb) IDEMPOTENCY_WINDOW) →
  ∃ w2,
    onRequestPost request env amb w
    = (Returned (error_response 409 "Duplicate request"), w2)
    ∧ events (DB w2) = events (DB w).
Proof.
  intros Hv Hc Hbudget Hs.
  pose proof (checkRateLimit_admitted (getClientIP request) (now_of amb) w Hbudget
                (consistent_no_zero _ _ Hc)) as Hrl.
  eexists. split.
  - eapply onRequestPost_duplicate; [exact Hv|exact Hrl|].
    apply checkIdempotency_duplicate. cbn.
    eapply stamped_is_live; [|done]. exact Hs.
  - done.
Qed.

(** X22. The idempotency record is written before the event: when the insert
    fails and the client is told 500, the same request sent again in the
    same 5-second window is answered 409 "Duplicate request", although no
    event was stored for it. *)
Theorem retry_after_a_failed_insert_is_refused
    request env amb1 amb2 w r1 w1 body amount :
  consistent (DB w) →
  validated request = Some (body, amount) →
  onRequestPost request env amb1 w = (Returned r1, w1) →
  status r1 = 500 →
  window_floor (now_of amb2) IDEMPOTENCY_WINDOW
  = window_floor (now_of amb1) IDEMPOTENCY_WINDOW →
  request_count (DB w1) (getClientIP request) (now_of amb2)
  < RATE_LIMIT_MAX_REQUESTS →
  ∃ w2,
    onRequestPost request env amb2 w1
    = (Returned {| status := 409; body := ErrorBody "Duplicate request" |}, w2)
    ∧ events (DB w2) = events (DB w).
Proof.
  intros Hc Hv H1 H500 HW Hbudget.
  pose proof H1 as Hout. apply onRequestPost_outcome in Hout.
  inversion Hout as
    [ | | | | | | | b a wa wb Hv' Hrl Hid Hins
    | b a wa wb d3 archive Hv' Hrl Hid Hins Harch ];
    subst; try done.
  assert (a = amount) as -> by congruence.
  pose proof Hrl as Hrows. apply checkRateLimit_rows in Hrows as [He Hi].
  pose proof (checkRateLimit_preserves _ _ _ _ _ Hc Hrl) as (Hc1 & _ & _).
  apply checkIdempotency_true_inv in Hid as [_ ->]. cbn in *.
  destruct (stamped_call_is_a_duplicate request env amb2
              {| DB := recorded (DB wa)
                         (generateIdempotencyKey (getClientIP request) amount (now_of amb1))
                         (now_of amb1);
                 journal := (journal wa
                   ++ [Sql (SelectIdempotencyKey
                              (generateIdempotencyKey (getClientIP request) amount
                                 (now_of amb1)));
                       Sql (ReplaceIdempotencyKey
                              (generateIdempotencyKey (getClientIP request) amount
                                 (now_of amb1)) (now_of amb1));
                       Sql (DeleteIdempotencyKeys (now_of amb1 - 3600))])
                   ++ [Sql (InsertEvent (new_event request b amb1 amount));
                       Console ConsoleError "Database error:"] |}
              body amount Hv) as (w2 & H2 & He2).
  - cbn. intros k n Hk. apply (Hc1 k n). exact Hk.
  - exact Hbudget.
  - cbn. exists (now_of amb1). split; [|done].
    rewrite (same_window_key _ _ (now_of amb2) (now_of amb1)) by done.
    apply recorded_lookup.
  - exists w2. split; [exact H2|]. rewrite He2. cbn. done.
Qed.

(** ** A body that is null *)

(** X26. A same-origin request whose body parses to [null] is not answered:
    [body.amount_oz] throws outside any [try], before the limiter is called;
    no statement is issued and no row changes. *)
Theorem null_body_makes_the_handler_throw request env amb w :
  isSameOrigin request (url_origin request) = true →
  json request = ResolvesNull →
  onRequestPost request env amb w = (Thrown, w)
  ∧ validated request = None.
Proof.
  intros Ho Hj. unfold onRequestPost, validated. by rewrite Ho, Hj.
Qed.

End Coverage.

(** * Suspended invocations *)

Section Overlap.
Context {platform : Runtime}.

(** ** Invocations that are not interrupted *)

Lemma finish_bind_run {A B : Type} (r : Run A) (k : A → Task B) :
  finish (bind_run r k)
  = match finish r with
    | (Returned a, w') => finish (k a w')
    | (Thrown, w') => (Thrown, w')
    end.
Proof.
  induction r as [[a|] w|w resume IH]; cbn; [done..|]. apply IH.
Qed.

Lemma finish_try_run {A : Type} (r : Run A) (handler : Task A) :
  finish (try_run r handler)
  = match finish r with
    | (Thrown, w') => finish (handler w')
    | other => other
    end.
Proof.
  induction r as [[a|] w|w resume IH]; cbn; [done..|]. apply IH.
Qed.

Lemma finish_at_once {A : Type} (m : Async A) w : finish (at_once m w) = m w.
Proof. unfold at_once. by destruct (m w). Qed.

Lemma finish_await {A : Type} (m : Async A) w : finish (await m w) = m w.
Proof. cbn. apply finish_at_once. Qed.

Lemma finish_bind_task {A B : Type} (m : Task A) (k : A → Task B) (m' : Async A)
    (k' : A → Async B) w :
  (∀ w0, finish (m w0) = m' w0) →
  (∀ a w0, finish (k a w0) = k' a w0) →
  finish (bind_task m k w) = bind m' k' w.
Proof.
  intros Hm Hk. unfold bind_task, bind. rewrite finish_bind_run, Hm.
  destruct (m' w) as [[a|] w']; [apply Hk|done].
Qed.

Lemma finish_try_task {A : Type} (m handler : Task A) (m' handler' : Async A) w :
  (∀ w0, finish (m w0) = m' w0) →
  (∀ w0, finish (handler w0) = handler' w0) →
  finish (try_task m handler w) = try_catch m' handler' w.
Proof.
  intros Hm Hh. unfold try_task, try_catch. rewrite finish_try_run, Hm.
  destruct (m' w) as [[a|] w']; [done|apply Hh].
Qed.

Lemma finish_checkRateLimit ip now w :
  finish (checkRateLimit_task ip now w) = checkRateLimit ip now w.
Proof.
  unfold checkRateLimit_task, checkRateLimit.
  apply finish_bind_task; [intros; apply finish_await|].
  intros result w0. case_match; [done|].
  apply finish_bind_task; [intros; apply finish_await|]. intros _ w1.
  apply finish_bind_task; [intros; apply finish_await|]. done.
Qed.

Lemma finish_checkIdempotency key now w :
  finish (checkIdempotency_task key now w) = checkIdempotency key now w.
Proof.
  unfold checkIdempotency_task, checkIdempotency.
  apply finish_bind_task; [intros; apply finish_await|].
  intros result w0. case_match; [done|].
  apply finish_bind_task; [intros; apply finish_await|]. intros _ w1.
  apply finish_bind_task; [intros; apply finish_await|]. done.
Qed.

(** An invocation that no other one interrupts ends as [onRequestPost]
    says. *)
Lemma finish_onRequestPost request env amb w :
  finish (onRequestPost_task request env amb w) = onRequestPost request env amb w.
Proof.
  unfold onRequestPost_task, onRequestPost.
  case_match; [done|].
  unfold bind_task at 1. rewrite finish_bind_run, finish_await.
  unfold ret at 1. cbn beta iota.
  destruct (json request) as [| |body]; [done..|].
  case_match; [|done].
  apply finish_bind_task; [apply finish_checkRateLimit|].
  intros allowed w1. case_match; [done|].
  apply finish_bind_task; [apply finish_checkIdempotency|].
  intros fresh w2. case_match; [done|].
  apply finish_try_task.
  - intros w3. apply finish_bind_task; [intros; apply finish_await|].
    intros _ w4. apply finish_bind_task; [intros; apply finish_at_once|]. done.
  - intros w3. apply finish_bind_task; [intros; apply finish_at_once|]. done.
Qed.


(** ** Service without overlap *)

Lemma advance_to_the_end {A : Type} (r : Run A) :
  ∀ (t : Task A) w pre post,
    t w = r →
    ∃ n,
      interleave (replicate n (length pre)) (pre ++ Pending t :: post) w
      = (pre ++ Completed (finish r).1 :: post, (finish r).2).
Proof.
  induction r as [c w'|w' resume IH]; intros t w pre post Ht.
  - exists 1%nat. cbn [replicate interleave].
    rewrite list_lookup_middle by done. cbn [advance]. rewrite Ht.
    rewrite <- (Nat.add_0_r (length pre)), insert_app_r. done.
  - destruct (IH w' resume w' pre post eq_refl) as [n Hn].
    exists (S n). cbn [replicate interleave].
    rewrite list_lookup_middle by done. cbn [advance]. rewrite Ht.
    rewrite <- (Nat.add_0_r (length pre)) at 2. rewrite insert_app_r.
    cbn [insert list_insert finish]. exact Hn.
Qed.

Lemma interleave_app {A : Type} s1 s2 (slots : list (slot A)) w :
  interleave (s1 ++ s2) slots w
  = interleave s2 (interleave s1 slots w).1 (interleave s1 slots w).2.
Proof.
  revert slots w. induction s1 as [|i s1 IH]; intros slots w; [done|].
  cbn [app interleave]. destruct (slots !! i) as [s|]; [|apply IH].
  destruct (advance s w) as [s' w']. apply IH.
Qed.

(** [serve] is the schedule on which no two invocations overlap: each
    request is run from its start to its answer before the next starts. *)
Lemma serve_is_service_without_overlap calls env w answered :
  ∃ schedule,
    interleave schedule (map Completed answered ++ invoke calls env) w
    = (map Completed (answered ++ (serve calls env w).1), (serve calls env w).2).
Proof.
  revert w answered. induction calls as [|[request amb] calls IH]; intros w answered.
  { exists []. cbn. by rewrite !app_nil_r. }
  cbn [invoke map serve fst snd].
  destruct (advance_to_the_end (onRequestPost_task request env amb w)
              (onRequestPost_task request env amb) w
              (map Completed answered) (invoke calls env) eq_refl) as [n Hn].
  rewrite finish_onRequestPost in Hn.
  destruct (onRequestPost request env amb w) as [r w1] eqn:Hr.
  destruct (IH w1 (answered ++ [r])) as [schedule Hs].
  destruct (serve calls env w1) as [rs w2] eqn:Hrest.
  exists (replicate n (length (map Completed answered)) ++ schedule).
  rewrite interleave_app. fold (invoke calls env). rewrite Hn. cbn [fst snd].
  rewrite map_app in Hs. cbn [map] in Hs. rewrite <- app_assoc in Hs. cbn [app] in Hs.
  rewrite Hs. cbn [fst snd]. by rewrite <- app_assoc.
Qed.

(** ** Invocations that overlap *)

Ltac run_chunk :=
  cbn [interleave lookup list_lookup advance bind_task bind_run await insert
       list_insert ret_task];
  unfold at_once at 1;
  unfold query, run, bind, emit, ret, update_rate_limit, insert_rate_limit,
    delete_rate_limits, replace_idempotency_key, delete_idempotency_keys;
  cbn [DB journal bind_run default id events rate_limits idempotency_keys].

Lemma window_within_the_hour now : now - 3600 ≤ window_floor now RATE_LIMIT_WINDOW.
Proof.
  pose proof (window_floor_bounds now RATE_LIMIT_WINDOW) as H.
  unfold RATE_LIMIT_WINDOW in *. lia.
Qed.

(** X23. The limiter reads, then writes, and is suspended in between.  When two
    calls for one address and window overlap so that the second reads
    before the first has written, both find the same count [c] below the
    cap, both answer true, and the counter ends at [c + 2]: from 9 it
    passes the cap. *)
Theorem overlapping_limiter_calls_both_pass ip now1 now2 W c w :
  window_floor now1 RATE_LIMIT_WINDOW = W →
  window_floor now2 RATE_LIMIT_WINDOW = W →
  rate_limits (DB w) !! (ip, W) = Some c →
  0 < c < RATE_LIMIT_MAX_REQUESTS →
  ∃ w',
    interleave read_read_write_write
      [Pending (checkRateLimit_task ip now1); Pending (checkRateLimit_task ip now2)] w
    = ([Completed (Returned true); Completed (Returned true)], w')
    ∧ rate_limits (DB w') !! (ip, W) = Some (c + 2).
Proof.
  intros H1 H2 Hc Hr.
  assert ((RATE_LIMIT_MAX_REQUESTS <=? c) = false) as Hcap by (apply Z.leb_gt; lia).
  assert ((c =? 0) = false) as Hz by (apply Z.eqb_neq; lia).
  pose proof (window_within_the_hour now1) as Hw1.
  pose proof (window_within_the_hour now2) as Hw2.
  unfold checkRateLimit_task, read_read_write_write. rewrite H1, H2 in *.
  run_chunk. rewrite Hc. cbn [default id]. rewrite Hcap, Hz.
  run_chunk. rewrite Hc. cbn [default id]. rewrite Hcap, Hz.
  do 4 run_chunk.
  eexists. split; [reflexivity|]. cbn [DB rate_limits].
  apply map_lookup_filter_Some. split; [|done].
  assert (filter (λ row : string * Z * Z, now1 - 3600 ≤ row.1.2)
            (alter Z.succ (ip, W) (rate_limits (DB w))) !! (ip, W)
          = Some (Z.succ c)) as Hrow.
  { apply map_lookup_filter_Some. split; [|done]. by rewrite lookup_alter_eq, Hc. }
  rewrite lookup_alter_eq, Hrow. cbn. f_equal. lia.
Qed.

(** X24. When the window has no counter yet, both overlapping calls try to
    create it: the second INSERT is rejected by the primary key, and that
    call throws instead of answering. *)
Theorem overlapping_first_calls_collide ip now1 now2 W w :
  window_floor now1 RATE_LIMIT_WINDOW = W →
  window_floor now2 RATE_LIMIT_WINDOW = W →
  rate_limits (DB w) !! (ip, W) = None →
  ∃ w',
    interleave read_read_write_write
      [Pending (checkRateLimit_task ip now1); Pending (checkRateLimit_task ip now2)] w
    = ([Completed (Returned true); Completed Thrown], w')
    ∧ rate_limits (DB w') !! (ip, W) = Some 1.
Proof.
  intros H1 H2 Hc.
  pose proof (window_within_the_hour now1) as Hw1.
  unfold checkRateLimit_task, read_read_write_write. rewrite H1, H2 in *.
  run_chunk. rewrite Hc. cbn [default id].
  change (RATE_LIMIT_MAX_REQUESTS <=? 0) with false. change (0 =? 0) with true.
  run_chunk. rewrite Hc. cbn [default id].
  change (RATE_LIMIT_MAX_REQUESTS <=? 0) with false. change (0 =? 0) with true.
  run_chunk. rewrite Hc. cbn [bind_run DB journal].
  run_chunk.
  assert (filter (λ row : string * Z * Z, now1 - 3600 ≤ row.1.2)
            (<[(ip, W) := 1]> (rate_limits (DB w))) !! (ip, W) = Some 1) as Hrow.
  { apply map_lookup_filter_Some. split; [apply lookup_insert_eq|done]. }
  run_chunk. rewrite Hrow.
  cbn [interleave lookup list_lookup advance bind_run insert list_insert DB journal].
  eexists. split; [reflexivity|]. exact Hrow.
Qed.

(** X25. The guard reads, then writes, and is suspended in between.  When two
    calls with one key overlap so that the second reads before the first
    has written, and the key has no record that is live at either time,
    both are admitted. *)
Theorem overlapping_guard_calls_both_admit key now1 now2 w :
  live_record (DB w) key now1 = false →
  live_record (DB w) key now2 = false →
  ∃ w',
    interleave read_read_write_write
      [Pending (checkIdempotency_task key now1);
       Pending (checkIdempotency_task key now2)] w
    = ([Completed (Returned true); Completed (Returned true)], w')
    ∧ idempotency_keys (DB w') !! key = Some now2.
Proof.
  intros Hl1 Hl2. unfold live_record in Hl1, Hl2.
  unfold checkIdempotency_task, read_read_write_write.
  run_chunk. rewrite Hl1.
  run_chunk. rewrite Hl2.
  do 4 run_chunk.
  eexists. split; [reflexivity|]. cbn [DB idempotency_keys].
  apply map_lookup_filter_Some. split; [apply lookup_insert_eq|cbn; lia].
Qed.

End Overlap.

(** ** The further properties on concrete runs *)

Lemma events_are_appended_exactly_on_201_witness :
  let run := onRequestPost (platform := test_runtime) (post_from "A" (JNumber 32))
               no_gitea (at_time 1000 "id-1") fresh_world in
  (∃ e,
     events (DB run.2) = events (DB fresh_world) ++ [e]
     ∧ run.1 = Returned {| status := 201;
                           body := CreatedBody (event_id e) (event_amount_oz e)
                                     (event_created_at e) |}
     ∧ event_type e = "water"
     ∧ event_created_at e = Date_now (at_time 1000 "id-1") / 1000)
  ∨ (events (DB run.2) = events (DB fresh_world)
     ∧ ∀ resp, run.1 = Returned resp → status resp ≠ 201).
Proof.
  intros run.
  apply (events_are_appended_exactly_on_201 (platform := test_runtime)
           (post_from "A" (JNumber 32)) no_gitea (at_time 1000 "id-1") fresh_world
           run.1 run.2).
  vm_compute; reflexivity.
Defined.

Lemma stored_events_are_valid_witness :
  Forall (λ e, event_type e = "water" ∧ 0 ≤ event_amount_oz e ≤ 10000)
    (events (DB (onRequestPost (platform := test_runtime)
                   (post_from "A" (JNumber 32)) no_gitea
                   (at_time 1000 "id-1") fresh_world).2)).
Proof.
  apply (stored_events_are_valid (platform := test_runtime)
           (post_from "A" (JNumber 32)) no_gitea (at_time 1000 "id-1") fresh_world
           (onRequestPost (platform := test_runtime) (post_from "A" (JNumber 32))
              no_gitea (at_time 1000 "id-1") fresh_world).1).
  - apply Forall_nil_2.
  - vm_compute; reflexivity.
Defined.

Lemma zero_counter_makes_the_handler_throw_witness :
  onRequestPost (platform := test_runtime) (post_from "A" (JNumber 32)) no_gitea
    (at_time 1000 "id-1") zeroed_world
  = (Thrown,
     {| DB := DB zeroed_world;
        journal := [Sql (SelectRateLimit "A" 960); Sql (InsertRateLimit "A" 960)] |}).
Proof.
  apply (zero_counter_makes_the_handler_throw (platform := test_runtime)
           (post_from "A" (JNumber 32)) no_gitea (at_time 1000 "id-1") zeroed_world
           tap_body 32).
  - vm_compute; reflexivity.
  - vm_compute; reflexivity.
Defined.

Lemma requests_are_refused_exactly_past_the_cap_witness :
  ∃ rs w',
    serve (platform := test_runtime)
      (ten_posts ++ [(post_from "A" (JNumber 32), at_time 1001 "id-11")])
      no_gitea fresh_world = (rs, w')
    ∧ length rs
      = length (ten_posts ++ [(post_from "A" (JNumber 32), at_time 1001 "id-11")])
    ∧ ∀ i r, rs !! i = Some r →
        ∃ resp, r = Returned resp
                ∧ (status resp = 429
                   ↔ RATE_LIMIT_MAX_REQUESTS
                     ≤ default 0 (rate_limits (DB fresh_world) !! ("A", 960))
                       + Z.of_nat i).
Proof.
  apply (requests_are_refused_exactly_past_the_cap (platform := test_runtime)
           "A" 960 (ten_posts ++ [(post_from "A" (JNumber 32), at_time 1001 "id-11")])
           no_gitea fresh_world consistent_empty).
  apply Forall_app. split; [apply Forall_replicate|apply Forall_singleton].
  all: split; [exists (tap_body, 32)|split]; vm_compute; reflexivity.
Defined.

Lemma a_window_boundary_doubles_the_budget_witness :
  ∃ rs w',
    serve (platform := test_runtime) (late_posts ++ early_posts) no_gitea fresh_world
    = (rs, w')
    ∧ ∀ i r, rs !! i = Some r → ∃ resp, r = Returned resp ∧ status resp ≠ 429.
Proof.
  apply (a_window_boundary_doubles_the_budget (platform := test_runtime)
           "A" 960 late_posts early_posts no_gitea fresh_world consistent_empty).
  - reflexivity.
  - reflexivity.
  - apply Forall_replicate.
    split; [exists (tap_body, 32)|split]; vm_compute; reflexivity.
  - apply Forall_replicate.
    split; [exists (tap_body, 32)|split]; vm_compute; reflexivity.
  - cbn. lia.
  - cbn. lia.
Defined.

Lemma admitted_call_drops_old_counters_witness :
  rate_limits (DB (checkRateLimit "A" 5000 stale_world).2) !! ("B", 60) = None.
Proof.
  refine (proj2 (proj2
    (admitted_call_drops_old_counters "A" 5000 stale_world
       (checkRateLimit "A" 5000 stale_world).2 _)) ("B", 60) _).
  - vm_compute; reflexivity.
  - cbn. lia.
Defined.

Lemma admitted_key_drops_old_records_witness :
  idempotency_keys (DB (checkIdempotency "idempotency:1" 5000 stale_world).2)
    !! "idempotency:1" = Some 5000.
Proof.
  refine (proj1
    (admitted_key_drops_old_records "idempotency:1" 5000 stale_world
       (checkIdempotency "idempotency:1" 5000 stale_world).2 _)).
  vm_compute; reflexivity.
Defined.

Lemma guard_refuses_until_the_record_is_stale_witness :
  let w1 := (checkIdempotency "idempotency:1" 1000 fresh_world).2 in
  checkIdempotency "idempotency:1" 1003 w1
  = (Returned false,
     {| DB := DB w1;
        journal := journal w1 ++ [Sql (SelectIdempotencyKey "idempotency:1")] |}).
Proof.
  intros w1.
  refine (proj1
    (guard_refuses_until_the_record_is_stale "idempotency:1" 1000 1003 fresh_world
       w1 _) _).
  - vm_compute; reflexivity.
  - vm_compute; reflexivity.
Defined.

Lemma colliding_addresses_are_deduplicated_witness :
  let w1 := (onRequestPost (platform := test_runtime) (post_from "xAa" (JNumber 32))
               no_gitea (at_time 1000 "id-1") fresh_world).2 in
  getClientIP (post_from "xAa" (JNumber 32)) ≠ getClientIP (post_from "xBB" (JNumber 32))
  ∧ generateIdempotencyKey (getClientIP (post_from "xAa" (JNumber 32))) 32
      (now_of (at_time 1000 "id-1"))
    = generateIdempotencyKey (getClientIP (post_from "xBB" (JNumber 32))) 32
        (now_of (at_time 1002 "id-2"))
  ∧ ∃ w2,
      onRequestPost (platform := test_runtime) (post_from "xBB" (JNumber 32)) no_gitea
        (at_time 1002 "id-2") w1
      = (Returned {| status := 409; body := ErrorBody "Duplicate request" |}, w2)
      ∧ events (DB w2) = events (DB w1).
Proof.
  intros w1.
  apply (colliding_addresses_are_deduplicated (platform := test_runtime)
           (post_from "xAa" (JNumber 32)) (post_from "xBB" (JNumber 32)) no_gitea
           (at_time 1000 "id-1") (at_time 1002 "id-2") fresh_world
           {| status := 201; body := CreatedBody "id-1" 32 1000 |} w1
           tap_body tap_body 32 "x" "" consistent_empty).
  all: vm_compute; reflexivity.
Defined.

Lemma mirror_is_idle_without_configuration_witness :
  appendEventToGitea (platform := test_runtime) empty_archive first_event
    blank_token fresh_world
  = (Returned tt,
     {| DB := DB fresh_world;
        journal := journal fresh_world
          ++ [Console ConsoleWarn "Gitea config not available, skipping webhook"] |}).
Proof.
  apply (mirror_is_idle_without_configuration (platform := test_runtime)).
  reflexivity.
Defined.

Lemma monthly_paths_are_distinct_witness :
  2023 = 2023 ∧ 11 = 11.
Proof.
  apply (monthly_paths_are_distinct 2023 11 2023 11); try lia.
  reflexivity.
Defined.

Lemma generated_id_is_a_version_4_uuid_witness :
  is_uuid_v4 (generateUUID cycling_draws) = true.
Proof.
  apply generated_id_is_a_version_4_uuid.
  intros i. unfold cycling_draws, Qle, Qlt. cbn.
  pose proof (Nat.mod_upper_bound i 16). lia.
Defined.

Lemma form_posts_are_refused_only_above_the_maximum_witness :
  ∃ n, parseInt (amount_value tap_form) = Some n
       ∧ 0 ≤ n
       ∧ JNumber 16 = JNumber n
       ∧ valid_amount (amount_or_default (JNumber 16))
         = (if decide (n ≤ 10000) then Some n else None)
       ∧ Some "tap" ≠ Some ""
       ∧ None ≠ Some ""
       ∧ or_null (Some "tap") = Some "tap"
       ∧ or_null None = None.
Proof.
  apply (form_posts_are_refused_only_above_the_maximum tap_form
           {| body_amount_oz := JNumber 16; body_source := Some "tap";
              body_note := None |}).
  - cbn. lia.
  - vm_compute; reflexivity.
Defined.

Lemma forwarded_header_is_ignored_behind_cloudflare_witness :
  onRequestPost (platform := test_runtime)
    (with_forwarded (post_from "A" (JNumber 32)) (Some "6.6.6.6")) no_gitea
    (at_time 1000 "id-1") fresh_world
  = onRequestPost (platform := test_runtime) (post_from "A" (JNumber 32)) no_gitea
      (at_time 1000 "id-1") fresh_world.
Proof.
  apply (forwarded_header_is_ignored_behind_cloudflare (platform := test_runtime)).
  reflexivity.
Defined.

Lemma one_event_per_dedupe_window_witness :
  let run := serve (platform := test_runtime) burst no_gitea fresh_world in
  events (DB run.2) = events (DB fresh_world)
  ∨ ∃ e, events (DB run.2) = events (DB fresh_world) ++ [e].
Proof.
  intros run.
  apply (one_event_per_dedupe_window (platform := test_runtime)
           "A" 32 1000 burst no_gitea fresh_world run.1 run.2).
  - repeat apply Forall_cons_2; [..|apply Forall_nil_2].
    all: split; [exists tap_body|split]; vm_compute; reflexivity.
  - vm_compute; reflexivity.
Defined.

Lemma at_most_ten_events_per_window_witness :
  let run := serve (platform := test_runtime)
               (ten_posts ++ [(post_from "A" (JNumber 32), at_time 1001 "id-11")])
               no_gitea fresh_world in
  ∃ new,
    events (DB run.2) = events (DB fresh_world) ++ new
    ∧ (length new ≤ 10)%nat
    ∧ Z.of_nat (length new)
      ≤ Z.max 0 (RATE_LIMIT_MAX_REQUESTS
                 - default 0 (rate_limits (DB fresh_world) !! ("A", 960))).
Proof.
  intros run.
  apply (at_most_ten_events_per_window (platform := test_runtime)
           "A" 960 (ten_posts ++ [(post_from "A" (JNumber 32), at_time 1001 "id-11")])
           no_gitea fresh_world run.1 run.2 consistent_empty).
  - apply Forall_app. split; [apply Forall_replicate|apply Forall_singleton].
    all: split; [exists (tap_body, 32)|split]; vm_compute; reflexivity.
  - vm_compute; reflexivity.
Defined.

Lemma retry_after_a_failed_insert_is_refused_witness :
  let w1 := (onRequestPost (platform := test_runtime) (post_from "A" (JNumber 32))
               no_gitea (failing_store 1000 "id-1") fresh_world).2 in
  ∃ w2,
    onRequestPost (platform := test_runtime) (post_from "A" (JNumber 32)) no_gitea
      (at_time 1002 "id-2") w1
    = (Returned {| status := 409; body := ErrorBody "Duplicate request" |}, w2)
    ∧ events (DB w2) = events (DB fresh_world).
Proof.
  intros w1.
  apply (retry_after_a_failed_insert_is_refused (platform := test_runtime)
           (post_from "A" (JNumber 32)) no_gitea (failing_store 1000 "id-1")
           (at_time 1002 "id-2") fresh_world
           {| status := 500; body := ErrorBody "Internal server error" |} w1
           tap_body 32 consistent_empty).
  all: vm_compute; reflexivity.
Defined.

Lemma null_body_makes_the_handler_throw_witness :
  onRequestPost (platform := test_runtime) null_post no_gitea (at_time 1000 "id-1")
    fresh_world
  = (Thrown, fresh_world)
  ∧ validated (platform := test_runtime) null_post = None.
Proof.
  apply (null_body_makes_the_handler_throw (platform := test_runtime));
    vm_compute; reflexivity.
Defined.

Lemma overlapping_limiter_calls_both_pass_witness :
  let w9 := (serve (platform := test_runtime) nine_posts no_gitea fresh_world).2 in
  ∃ w',
    interleave read_read_write_write
      [Pending (checkRateLimit_task "A" 1001); Pending (checkRateLimit_task "A" 1002)]
      w9
    = ([Completed (Returned true); Completed (Returned true)], w')
    ∧ rate_limits (DB w') !! ("A", 960) = Some (9 + 2).
Proof.
  intros w9.
  apply (overlapping_limiter_calls_both_pass "A" 1001 1002 960 9 w9).
  - reflexivity.
  - reflexivity.
  - vm_compute; reflexivity.
  - vm_compute. split; reflexivity.
Defined.

Lemma overlapping_first_calls_collide_witness :
  ∃ w',
    interleave read_read_write_write
      [Pending (checkRateLimit_task "A" 1000); Pending (checkRateLimit_task "A" 1001)]
      fresh_world
    = ([Completed (Returned true); Completed Thrown], w')
    ∧ rate_limits (DB w') !! ("A", 960) = Some 1.
Proof.
  apply (overlapping_first_calls_collide "A" 1000 1001 960 fresh_world);
    reflexivity.
Defined.

Lemma overlapping_guard_calls_both_admit_witness :
  ∃ w',
    interleave read_read_write_write
      [Pending (checkIdempotency_task "idempotency:1" 1000);
       Pending (checkIdempotency_task "idempotency:1" 1001)] fresh_world
    = ([Completed (Returned true); Completed (Returned true)], w')
    ∧ idempotency_keys (DB w') !! "idempotency:1" = Some 1001.
Proof.
  apply (overlapping_guard_calls_both_admit "idempotency:1" 1000 1001 fresh_world);
    reflexivity.
Defined.

(** C8, where it fails.  The document of November 2023 holds one event
    whose note is [café], stored as [putFileContent] stores text: UTF-8,
    then base64.  The mirror reads it with [atob] alone, takes each byte of
    the UTF-8 text for a character, and writes back a document that holds
    the old event with the note [cafÃ©] followed by the new event: not the
    fetched sequence with the event appended.  On a document whose text is
    ASCII the same run writes the fetched sequence with the event appended. *)
Theorem mirror_rewrites_text_outside_ascii :
  let sync previous :=
    appendEventToGitea (platform := js_runtime) (archive_holding previous)
      first_event test_gitea fresh_world in
  held_events (btoa (utf8_encode (stringify_events [cafe_event]))) = Some [cafe_event]
  ∧ (sync [cafe_event]).1 = Returned tt
  ∧ (written_content (journal (sync [cafe_event]).2) ≫= held_events)
    = Some [garbled_event; first_event]
  ∧ garbled_event ≠ cafe_event
  ∧ (written_content (journal (sync [tea_event]).2) ≫= held_events)
    = Some [tea_event; first_event].
Proof.
  intros sync. split_and!; [vm_compute; reflexivity..|discriminate|vm_compute; reflexivity].
Qed.

(** C3, as stated, fails when requests overlap.  Nine requests from address
    A have been served in the window [960, 1020).  The tenth and the
    eleventh arrive together: each is suspended after it has read the
    counter, 9, and before it writes.  Both pass the limiter and are
    answered 201, the eleventh included, and the counter ends at 11. *)
Lemma overlapping_requests_pass_the_cap :
  let w9 := (serve (platform := test_runtime) nine_posts no_gitea fresh_world).2 in
  request_count (DB w9) "A" 1001 = 9
  ∧ ∃ w',
      interleave ([0; 0; 0; 1; 1; 1] ++ replicate 6 0 ++ replicate 6 1)%nat
        (invoke (H := test_runtime) tenth_and_eleventh no_gitea) w9
      = ([Completed (Returned {| status := 201; body := CreatedBody "id-10" 10 1001 |});
          Completed (Returned {| status := 201; body := CreatedBody "id-11" 11 1001 |})],
         w')
      ∧ request_count (DB w') "A" 1001 = 11.
Proof.
  intros w9. split; [vm_compute; reflexivity|].
  eexists. split; vm_compute; reflexivity.
Qed.
